(** * GeoIP enrichment of CSV tables (geogsuite.py): model and properties

    A shallow embedding of [src/geogsuite.py].  Python strings are Rocq
    strings whose characters are code points below 256; Python integers are
    [Z]; floats are [spec_float] (sign, mantissa, binary exponent, plus zeros,
    infinities and NaN).  The libraries the script calls into ([ipaddress],
    [geoip2], [pandas]) are not part of the repository: the address parser
    and the database readers are parameters of the development, the handful
    of pandas operations used is modelled on row-oriented frames. *)

From Stdlib Require Import ZArith List String Ascii Bool Lia Arith.
From Stdlib Require Import DecimalString DecimalZ DecimalPos SpecFloat.
Import ListNotations.
Open Scope string_scope.

(** ** Python strings *)

Module PyStr.

(** [str.isspace] on code points below 256: TAB..CR, FS..US, space, NEL and
    the no-break space. *)
Definition isspace (c : ascii) : bool :=
  let n := nat_of_ascii c in
  (((9 <=? n) && (n <=? 13)) || ((28 <=? n) && (n <=? 32))
   || (n =? 133) || (n =? 160))%nat.

Fixpoint lstrip (s : string) : string :=
  match s with
  | EmptyString => EmptyString
  | String c r => if isspace c then lstrip r else s
  end.

Fixpoint rstrip (s : string) : string :=
  match s with
  | EmptyString => EmptyString
  | String c r =>
      match rstrip r with
      | EmptyString => if isspace c then EmptyString else String c EmptyString
      | r' => String c r'
      end
  end.

(** [s.strip()] *)
Definition strip (s : string) : string := rstrip (lstrip s).

(** [str.lower] on code points below 256. *)
Definition lower_char (c : ascii) : ascii :=
  let n := nat_of_ascii c in
  if (((65 <=? n) && (n <=? 90))
      || ((192 <=? n) && (n <=? 222) && negb (n =? 215)))%nat
  then ascii_of_nat (n + 32) else c.

Fixpoint lower (s : string) : string :=
  match s with
  | EmptyString => EmptyString
  | String c r => String (lower_char c) (lower r)
  end.

(** Truth value of a string, and of an optional string ([None] is false). *)
Definition truthy (s : string) : bool :=
  match s with EmptyString => false | _ => true end.

Definition truthy_opt (o : option string) : bool :=
  match o with Some s => truthy s | None => false end.

(** [x or ""] for an optional string [x]. *)
Definition or_empty (o : option string) : string :=
  match o with Some s => s | None => EmptyString end.

(** [a or b] on optional strings. *)
Definition por (a b : option string) : option string :=
  if truthy_opt a then a else b.

(** [sep.join(parts)] for a one-character separator. *)
Fixpoint join (sep : ascii) (parts : list string) : string :=
  match parts with
  | [] => EmptyString
  | [p] => p
  | p :: rest => p ++ String sep (join sep rest)
  end.

(** [s.split(sep)] for a one-character separator. *)
Fixpoint split (sep : ascii) (s : string) : list string :=
  match s with
  | EmptyString => [EmptyString]
  | String c r =>
      if Ascii.eqb c sep then EmptyString :: split sep r
      else match split sep r with
           | p :: ps => String c p :: ps
           | [] => [String c EmptyString]
           end
  end.

(** [sep in s] *)
Fixpoint contains (sep : ascii) (s : string) : bool :=
  match s with
  | EmptyString => false
  | String c r => Ascii.eqb c sep || contains sep r
  end.

(** [s.count(sep)] for a one-character separator. *)
Fixpoint occurrences (sep : ascii) (s : string) : nat :=
  match s with
  | EmptyString => 0
  | String c r => (if Ascii.eqb c sep then 1 else 0) + occurrences sep r
  end.

Fixpoint all_chars (p : ascii -> bool) (s : string) : bool :=
  match s with
  | EmptyString => true
  | String c r => p c && all_chars p r
  end.

Definition is_digit (c : ascii) : bool :=
  let n := nat_of_ascii c in ((48 <=? n) && (n <=? 57))%nat.

Definition is_sign_or_digit (c : ascii) : bool := is_digit c || Ascii.eqb c "-".

(** Any character but the field separator of [format_geoip]. *)
Definition is_plain (c : ascii) : bool := negb (Ascii.eqb c "|").

(** [s.rsplit(".", 1)[0]]: everything before the last dot, the whole string
    when there is none. *)
Fixpoint rsplit_dot_head (s : string) : string :=
  match s with
  | EmptyString => EmptyString
  | String c r =>
      if contains "." r then String c (rsplit_dot_head r)
      else if Ascii.eqb c "." then EmptyString else s
  end.

End PyStr.

(** ** Rendering of numbers *)

Module PyNum.

(** [str(n)] for an integer. *)
Definition str_int (z : Z) : string := NilZero.string_of_int (Z.to_int z).

Definition digit_char (d : Z) : ascii := ascii_of_nat (48 + Z.to_nat (d mod 10)).

(** The six fractional digits of a number given in millionths. *)
Definition frac6 (q : Z) : string :=
  String (digit_char (q / 100000))
  (String (digit_char (q / 10000))
  (String (digit_char (q / 1000))
  (String (digit_char (q / 100))
  (String (digit_char (q / 10))
  (String (digit_char q) EmptyString))))).

(** Nearest integer to [n / d], ties to even ([0 <= n], [0 < d]). *)
Definition round_half_even (n d : Z) : Z :=
  let q := (n / d)%Z in
  let r := (n mod d)%Z in
  if (2 * r <? d)%Z then q
  else if (d <? 2 * r)%Z then (q + 1)%Z
  else if Z.even q then q else (q + 1)%Z.

(** [m * 2^e] in millionths, correctly rounded. *)
Definition millionths (m : positive) (e : Z) : Z :=
  if (0 <=? e)%Z then (Zpos m * 2 ^ e * 1000000)%Z
  else round_half_even (Zpos m * 1000000) (2 ^ (- e)).

Definition sign_str (s : bool) : string := if s then "-" else "".

(** [f"{x:.6f}"] for a float [x]. *)
Definition format_6f (x : spec_float) : string :=
  match x with
  | S754_nan => "nan"
  | S754_infinity s => sign_str s ++ "inf"
  | S754_zero s => sign_str s ++ "0.000000"
  | S754_finite s m e =>
      let q := millionths m e in
      sign_str s ++ str_int (q / 1000000) ++ "." ++ frac6 (q mod 1000000)
  end.

(** A decimal numeral with an optional minus sign, at least one digit
    before the point and exactly six after it. *)
Definition six_decimals (s : string) : bool :=
  match PyStr.split "." s with
  | [i; f] =>
      let i' := match i with String "-" r => r | _ => i end in
      PyStr.truthy i' && PyStr.all_chars PyStr.is_digit i'
      && (String.length f =? 6)%nat && PyStr.all_chars PyStr.is_digit f
  | _ => false
  end.

Definition is_finite (x : spec_float) : bool :=
  match x with
  | S754_zero _ | S754_finite _ _ _ => true
  | _ => false
  end.

End PyNum.

Import PyStr PyNum.

(** ** The libraries the script calls *)

(** What the script uses of [ipaddress]: [ip_address] (here [None] stands for
    the [ValueError] it raises on a string that is no IPv4 or IPv6 address)
    and five properties of a parsed address. *)
Record ip_library : Type := {
  ip_addr : Type;
  ip_address : string -> option ip_addr;
  is_private : ip_addr -> bool;
  is_loopback : ip_addr -> bool;
  is_reserved : ip_addr -> bool;
  is_link_local : ip_addr -> bool;
  is_multicast : ip_addr -> bool
}.

(** What the script reads of a [geoip2] city response and ASN response. *)
Record country_rec : Type := { iso_code : option string }.
Record subdivision : Type := { sub_name : option string; sub_iso_code : option string }.
Record city_rec : Type := { name : option string }.
Record location_rec : Type := {
  latitude : option spec_float;
  longitude : option spec_float
}.
Record city_response : Type := {
  country : option country_rec;
  subdivisions : list subdivision;
  city : option city_rec;
  location : option location_rec
}.
Record asn_response : Type := {
  autonomous_system_number : option Z;
  autonomous_system_organization : option string
}.

(** An open [geoip2.database.Reader]; a method answers [None] where the
    library raises (address not in the database, wrong database type, ...). *)
Record reader : Type := {
  reader_city : string -> option city_response;
  reader_asn : string -> option asn_response
}.

(** ** Effects: a trace of events and exceptions *)

Inductive exn : Type :=
| KeyError (key : string)
| ValueError (msg : string)
| IndexError (msg : string)
| SystemExit (msg : string)
| ReadError (path : string)
| DatabaseError (path : string)
| LookupFailure (ip : string).

Inductive db_kind : Type := CityDb | AsnDb.

Inductive cell : Type :=
| CStr (s : string)
| CNum (text : string)
| CNull.

Record frame : Type := { columns : list string; rows : list (list cell) }.

Inductive event : Type :=
| EvOpen (k : db_kind) (path : string)
| EvClose (k : db_kind)
| EvQuery (k : db_kind) (ip : string)
| EvToCsv (path : string) (append header : bool) (f : frame)
| EvPrint (msg : string).

(** A computation yields the events it caused, in order, and either an
    exception or a value. *)
Definition M (A : Type) : Type := (list event * (exn + A))%type.

Definition ret {A : Type} (a : A) : M A := ([], inr a).
Definition raise {A : Type} (e : exn) : M A := ([], inl e).
Definition emit (ev : event) : M unit := ([ev], inr tt).

Definition bind {A B : Type} (m : M A) (k : A -> M B) : M B :=
  match m with
  | (t, inl e) => (t, inl e)
  | (t, inr a) => let (t', r) := k a in ((t ++ t')%list, r)
  end.

(** [try: body / except Exception: handler]; [SystemExit] is no [Exception]. *)
Definition try_except {A : Type} (body : M A) (handler : M A) : M A :=
  match body with
  | (t, inl (SystemExit msg)) => (t, inl (SystemExit msg))
  | (t, inl _) => let (t', r) := handler in ((t ++ t')%list, r)
  | ok => ok
  end.

(** [try: body / finally: fin]. *)
Definition try_finally {A : Type} (body : M A) (fin : M unit) : M A :=
  let (t, r) := body in
  let (t', r') := fin in
  ((t ++ t')%list, match r' with inl e => inl e | inr _ => r end).

Declare Scope py_scope.
Delimit Scope py_scope with py.
Notation "x <- m ;; k" := (bind m (fun x => k))
  (at level 61, m at next level, right associativity) : py_scope.
Notation "m ;;; k" := (bind m (fun _ => k))
  (at level 61, right associativity) : py_scope.
Open Scope py_scope.

Fixpoint mapM {A B : Type} (f : A -> M B) (l : list A) : M (list B) :=
  match l with
  | [] => ret []
  | a :: l' => b <- f a ;; bs <- mapM f l' ;; ret (b :: bs)
  end.

Definition trace_of {A : Type} (m : M A) : list event := fst m.
Definition outcome {A : Type} (m : M A) : exn + A := snd m.

(** ** The pandas operations the script uses *)

Module Pd.

(** [list.index] / position of a label, first occurrence. *)
Fixpoint index_of (x : string) (l : list string) : option nat :=
  match l with
  | [] => None
  | y :: l' =>
      if String.eqb y x then Some 0
      else match index_of x l' with Some i => Some (S i) | None => None end
  end.

Definition cell_at (i : nat) (row : list cell) : cell := nth i row CNull.

(** [df[label]]: the column as a list of cells, [KeyError] without it. *)
Definition getitem (df : frame) (label : string) : M (list cell) :=
  match index_of label (columns df) with
  | Some i => ret (map (cell_at i) (rows df))
  | None => raise (KeyError label)
  end.

(** [series.astype(str)] on one value: text stays, a number becomes its
    [str()], a missing value becomes the text [nan]. *)
Definition astype_str (c : cell) : cell :=
  match c with
  | CStr s => CStr s
  | CNum text => CStr text
  | CNull => CStr "nan"
  end.

Definition str_of_cell (c : cell) : string :=
  match c with
  | CStr s => s
  | CNum text => text
  | CNull => "nan"
  end.

(** [series.dropna()] *)
Definition dropna (l : list cell) : list cell :=
  filter (fun c => match c with CNull => false | _ => true end) l.

(** [df.head(n)] *)
Definition head (n : nat) (df : frame) : frame :=
  {| columns := columns df; rows := firstn n (rows df) |}.

Definition insert_at {A : Type} (loc : nat) (x : A) (l : list A) : list A :=
  (firstn loc l ++ x :: skipn loc l)%list.

Fixpoint zip_insert (loc : nat) (rs : list (list cell)) (vals : list cell)
  : list (list cell) :=
  match rs, vals with
  | r :: rs', v :: vals' => insert_at loc v r :: zip_insert loc rs' vals'
  | _, _ => []
  end.

(** [df.insert(loc, column, value)] with the default [allow_duplicates]:
    [ValueError] when the label is already a column, [IndexError] when [loc]
    is past the end. *)
Definition insert (df : frame) (loc : nat) (column : string) (value : list cell)
  : M frame :=
  if existsb (String.eqb column) (columns df) then
    raise (ValueError ("cannot insert " ++ column ++ ", already exists"))
  else if (List.length (columns df) <? loc)%nat then
    raise (IndexError "index out of bounds")
  else
    ret {| columns := insert_at loc column (columns df);
           rows := zip_insert loc (rows df) value |}.

Fixpoint indices_of (labels cols : list string) : exn + list nat :=
  match labels with
  | [] => inr []
  | l :: labels' =>
      match index_of l cols with
      | Some i =>
          match indices_of labels' cols with
          | inr idxs => inr (i :: idxs)
          | inl e => inl e
          end
      | None => inl (KeyError l)
      end
  end.

(** [df[labels]] for a list of labels of a frame with distinct column names. *)
Definition select (df : frame) (labels : list string) : M frame :=
  match indices_of labels (columns df) with
  | inr idxs =>
      ret {| columns := labels;
             rows := map (fun r => map (fun i => cell_at i r) idxs) (rows df) |}
  | inl e => raise e
  end.

(** [df.to_csv(path, index=False, mode=..., header=...)] *)
Definition to_csv (df : frame) (path : string) (append header : bool) : M unit :=
  emit (EvToCsv path append header df).

(** The keyword arguments of a call of [read_csv]; [kw_chunksize] is
    [Some k] for [read_csv(path, chunksize=k, ...)] and [None] for a call
    that reads the whole table. *)
Record read_kwargs : Type := {
  kw_encoding : string;
  kw_sep : string;
  kw_quotechar : string;
  kw_na_filter : option bool;
  kw_chunksize : option nat
}.

(** What a call of [read_csv] yields: the rows it delivers, as pandas types
    them in that call, and, when reading breaks off, the number of rows that
    can be read before it does.  A call that reads the whole table types
    every column over all rows; a chunked call parses and types every batch
    on its own, so that a value such as [01] is text where the whole column
    is, and the number [1] in a batch whose column holds numerals only: for
    a chunked call [in_frame] holds the rows of the batches as the reader
    delivers them, the batches put end to end. *)
Record csv_input : Type := { in_frame : frame; in_fail_at : option nat }.

(** The files of a run: what [read_csv] yields for a path under given
    keyword arguments.  The answer to a chunked call and the answer to the
    whole-table call on the same path are separate entries, nothing relates
    them.  The entry of a chunked call describes what the reader delivers
    in the course of the run: where the run writes to the path it reads
    ([--out] equal to [--in]) the later batches come from a file that has
    been overwritten, and the entry holds whatever the reader delivers
    then. *)
Definition file_system : Type := string -> read_kwargs -> option csv_input.

Definition read_csv (fs : file_system) (path : string) (kw : read_kwargs) : M frame :=
  match fs path kw with
  | None => raise (ReadError path)
  | Some i =>
      match in_fail_at i with
      | Some n =>
          if (n <? List.length (rows (in_frame i)))%nat then raise (ReadError path)
          else ret (in_frame i)
      | None => ret (in_frame i)
      end
  end.

Fixpoint chunk_rows (fuel k : nat) (rs : list (list cell)) : list (list (list cell)) :=
  match fuel with
  | O => []
  | S fuel' =>
      match rs with
      | [] => []
      | _ => firstn k rs :: chunk_rows fuel' k (skipn k rs)
      end
  end.

(** The batches of [k] rows a chunked reader yields; a table without rows
    yields one empty batch. *)
Definition chunks (k : nat) (df : frame) : list frame :=
  match rows df with
  | [] => [df]
  | rs => map (fun c => {| columns := columns df; rows := c |})
              (chunk_rows (List.length rs) k rs)
  end.

(** [read_csv(path, chunksize=k, ...)], with [kw] the keyword arguments of
    that call, [chunksize] among them: opening fails at once, the reader
    delivers the rows of the entry of this chunked call in batches of [k],
    and a broken read raises from the iterator at the first batch that needs
    a missing row.  The batches are cut from what the chunked call delivers,
    typed batch by batch, not from what a whole-table read of the path
    returns; a statement that compares the two, or the file read with the
    file written, says so in its hypotheses. *)
Definition read_csv_chunked (fs : file_system) (path : string) (k : nat)
  (kw : read_kwargs) : M (list (exn + frame)) :=
  match fs path kw with
  | None => raise (ReadError path)
  | Some i =>
      let cs := chunks k (in_frame i) in
      match in_fail_at i with
      | Some n =>
          if (n <? List.length (rows (in_frame i)))%nat
          then ret (map inr (firstn (n / k) cs) ++ [inl (ReadError path)])%list
          else ret (map inr cs)
      | None => ret (map inr cs)
      end
  end.

End Pd.

(** ** What ends up in a file *)

Inductive csv_line : Type :=
| HeaderLine (names : list string)
| DataLine (cells : list cell).

Definition written (header : bool) (f : frame) : list csv_line :=
  ((if header then [HeaderLine (columns f)] else []) ++ map DataLine (rows f))%list.

Fixpoint file_after (t : list event) (path : string) (cur : option (list csv_line))
  : option (list csv_line) :=
  match t with
  | [] => cur
  | EvToCsv p append header f :: t' =>
      if String.eqb p path then
        let old := if append then match cur with Some c => c | None => [] end else [] in
        file_after t' path (Some (old ++ written header f)%list)
      else file_after t' path cur
  | _ :: t' => file_after t' path cur
  end.

(** The content of [path] after the events [t], starting without the file. *)
Definition file_content (t : list event) (path : string) : option (list csv_line) :=
  file_after t path None.



(** Open database handles after the events [t], most recent first. *)
Fixpoint remove_first (k : db_kind) (l : list db_kind) : list db_kind :=
  match l with
  | [] => []
  | k' :: l' =>
      match k, k' with
      | CityDb, CityDb | AsnDb, AsnDb => l'
      | _, _ => k' :: remove_first k l'
      end
  end.

Fixpoint open_handles (t : list event) (held : list db_kind) : list db_kind :=
  match t with
  | [] => held
  | EvOpen k _ :: t' => open_handles t' (k :: held)
  | EvClose k :: t' => open_handles t' (remove_first k held)
  | _ :: t' => open_handles t' held
  end.

Definition is_query (ev : event) : bool :=
  match ev with EvQuery _ _ => true | _ => false end.

(** Events on the databases, as opposed to writes and prints. *)
Definition is_db_event (ev : event) : bool :=
  match ev with
  | EvOpen _ _ | EvClose _ | EvQuery _ _ => true
  | _ => false
  end.

(** What a chunked reader yields is a batch with the given columns, or an
    error. *)
Definition item_has_columns (cols : list string) (it : exn + frame) : Prop :=
  match it with
  | inr c => columns c = cols
  | inl _ => True
  end.

(** A computation that raises and has written nothing: its events are
    database events only. *)
Definition aborts {A : Type} (m : M A) : Prop :=
  (exists e, outcome m = inl e) /\ forallb is_db_event (trace_of m) = true.

Definition db_kind_eqb (a b : db_kind) : bool :=
  match a, b with
  | CityDb, CityDb | AsnDb, AsnDb => true
  | _, _ => false
  end.

(** How many times a handle of kind [k] is acquired in [t]. *)
Fixpoint count_open (k : db_kind) (t : list event) : nat :=
  match t with
  | [] => 0
  | EvOpen k' _ :: t' => (if db_kind_eqb k k' then 1 else 0) + count_open k t'
  | _ :: t' => count_open k t'
  end.

Fixpoint count_query (t : list event) : nat :=
  match t with
  | [] => 0
  | EvQuery _ _ :: t' => S (count_query t')
  | _ :: t' => count_query t'
  end.

(** ** The script *)

(** The namespace [parse_args] returns. *)
Record args : Type := {
  inp : string;
  out : option string;
  city_db : string;
  asn_db : option string;
  ip_col : option string;
  geoip_col : string;
  chunksize : Z;
  encoding : string;
  sep : string;
  quotechar : string;
  na_filter : bool;
  keep_invalid : bool;
  invalid_marker : string
}.

(** The tuple [lookup] returns: (country_iso, region, city, lat, lon, asn, org). *)
Record lookup_result : Type := {
  r_country_iso : option string;
  r_region : option string;
  r_city : option string;
  r_lat : option spec_float;
  r_lon : option spec_float;
  r_asn : option Z;
  r_org : option string
}.

Definition no_subdivision : subdivision := {| sub_name := None; sub_iso_code := None |}.

Definition common : list string :=
  ["ip"; "ip_address"; "client_ip"; "source_ip"; "src_ip"; "dst_ip"; "remote_ip"].

(** [format_geoip].  The coordinates are floats or absent and the asn is an
    integer or absent, as [lookup] is annotated: the [isinstance] tests hold
    exactly for the present values. *)
Definition format_geoip (country_iso region city : option string)
  (lat lon : option spec_float) (asn : option Z) (org : option string) : string :=
  let parts :=
    [ or_empty country_iso;
      or_empty region;
      or_empty city;
      match lat with Some x => format_6f x | None => "" end;
      match lon with Some x => format_6f x | None => "" end;
      match asn with Some n => "AS" ++ str_int n | None => "" end;
      or_empty org ] in
  join "|" parts.

(** [city_reader.city(ip)] and [asn_reader.asn(ip)] as calls that are seen
    in the trace and may raise. *)
Definition call_city (r : reader) (ip : string) : M city_response :=
  emit (EvQuery CityDb ip) ;;;
  match reader_city r ip with
  | Some resp => ret resp
  | None => raise (LookupFailure ip)
  end.

Definition call_asn (r : reader) (ip : string) : M asn_response :=
  emit (EvQuery AsnDb ip) ;;;
  match reader_asn r ip with
  | Some resp => ret resp
  | None => raise (LookupFailure ip)
  end.

(** The assignments of the first [try] block of [lookup], after the call. *)
Definition city_fields (resp : city_response)
  : option string * option string * option string
    * option spec_float * option spec_float :=
  let country_iso := match country resp with Some c => iso_code c | None => None end in
  let region :=
    match subdivisions resp with
    | [] => None
    | subs =>
        let most_specific := last subs no_subdivision in
        por (sub_name most_specific) (sub_iso_code most_specific)
    end in
  let city_name := match city resp with Some c => name c | None => None end in
  match location resp with
  | Some l => (country_iso, region, city_name, latitude l, longitude l)
  | None => (country_iso, region, city_name, None, None)
  end.

(** [lookup] *)
Definition lookup (city_reader : reader) (asn_reader : option reader) (ip : string)
  : M lookup_result :=
  loc <- try_except
           (city_resp <- call_city city_reader ip ;; ret (city_fields city_resp))
           (ret (None, None, None, None, None)) ;;
  own <- match asn_reader with
         | Some ar =>
             try_except
               (asn_resp <- call_asn ar ip ;;
                ret (autonomous_system_number asn_resp,
                     autonomous_system_organization asn_resp))
               (ret (None, None))
         | None => ret (None, None)
         end ;;
  let '(country_iso, region, city_name, lat, lon) := loc in
  let '(asn, org) := own in
  ret {| r_country_iso := country_iso; r_region := region; r_city := city_name;
         r_lat := lat; r_lon := lon; r_asn := asn; r_org := org |}.

Section Script.

Variable L : ip_library.
(** [geoip2.database.Reader(path)]: [None] where opening the file raises. *)
Variable Reader : string -> option reader.
Variable fs : Pd.file_system.

(** The first loop of [autodetect_ip_col], over the column names. *)
Fixpoint scan_names (cols : list string) : option string :=
  match cols with
  | [] => None
  | c :: rest =>
      if existsb (String.eqb (lower c)) common then Some c else scan_names rest
  end.

(** The inner loop of [autodetect_ip_col]: [hits] and [tot] after [vals]. *)
Fixpoint count_hits (vals : list string) (hits tot : nat) : nat * nat :=
  match vals with
  | [] => (hits, tot)
  | v :: rest =>
      match ip_address L (strip v) with
      | Some _ => count_hits rest (S hits) (S tot)
      | None => count_hits rest hits (S tot)
      end
  end.

(** [sample[c].dropna().astype(str).head(200).tolist()] *)
Definition sample_values (sample : frame) (c : string) : list string :=
  match Pd.index_of c (columns sample) with
  | Some i =>
      firstn 200 (map Pd.str_of_cell (Pd.dropna (map (Pd.cell_at i) (rows sample))))
  | None => []
  end.

(** [tot and hits / tot >= 0.5]; with at most 200 values the quotient of the
    two floats is at least one half exactly when [tot <= 2 * hits]. *)
Definition looks_like_ips (vals : list string) : bool :=
  let '(hits, tot) := count_hits vals 0 0 in
  (negb (tot =? 0) && (tot <=? 2 * hits))%nat.

(** Its second loop, over the columns of the sample. *)
Fixpoint scan_values (sample : frame) (cols : list string) : option string :=
  match cols with
  | [] => None
  | c :: rest =>
      match sample_values sample c with
      | [] => scan_values sample rest
      | vals => if looks_like_ips vals then Some c else scan_values sample rest
      end
  end.

(** [autodetect_ip_col] *)
Definition autodetect_ip_col (df : frame) : option string :=
  match scan_names (columns df) with
  | Some c => Some c
  | None =>
      let sample := Pd.head 1000 df in
      scan_values sample (columns sample)
  end.

(** [is_public_ip] *)
Definition is_public_ip (s : string) : bool :=
  match ip_address L (strip s) with
  | Some ip =>
      negb (is_private L ip || is_loopback L ip || is_reserved L ip
            || is_link_local L ip || is_multicast L ip)
  | None => false
  end.

(** The closure [compute] of [enrich_dataframe]. *)
Definition compute (city_reader : reader) (asn_reader : option reader)
  (ip_val : cell) : M string :=
  match ip_val with
  | CStr v =>
      let s := strip v in
      if negb (truthy s) then ret ""
      else if negb (is_public_ip s) then ret ""
      else
        r <- lookup city_reader asn_reader s ;;
        ret (format_geoip (r_country_iso r) (r_region r) (r_city r)
                          (r_lat r) (r_lon r) (r_asn r) (r_org r))
  | _ => ret ""
  end.

Definition open_db (k : db_kind) (path : string) : M reader :=
  match Reader path with
  | Some r => emit (EvOpen k path) ;;; ret r
  | None => raise (DatabaseError path)
  end.

Definition list_index (cols : list string) (x : string) : M nat :=
  match Pd.index_of x cols with
  | Some i => ret i
  | None => raise (ValueError (x ++ " is not in list"))
  end.

(** The [try] block of [enrich_dataframe]. *)
Definition enrich_body (df : frame) (ip_col geoip_col : string)
  (city_reader : reader) (asn_reader : option reader) : M frame :=
  series <- Pd.getitem df ip_col ;;
  geo_series <- mapM (fun v => s <- compute city_reader asn_reader (Pd.astype_str v) ;;
                                ret (CStr s)) series ;;
  let cols := columns df in
  ip_idx <- list_index cols ip_col ;;
  let new_cols := (firstn (ip_idx + 1) cols ++ [geoip_col]
                   ++ skipn (ip_idx + 1) cols)%list in
  df_out <- Pd.insert df (ip_idx + 1) geoip_col geo_series ;;
  Pd.select df_out new_cols.

(** Its [finally] block. *)
Definition close_readers (asn_reader : option reader) : M unit :=
  emit (EvClose CityDb) ;;;
  match asn_reader with
  | Some _ => emit (EvClose AsnDb)
  | None => ret tt
  end.

(** [enrich_dataframe] *)
Definition enrich_dataframe (df : frame) (ip_col : string) (city_db : string)
  (asn_db : option string) (geoip_col : string) : M frame :=
  city_reader <- open_db CityDb city_db ;;
  asn_reader <- match asn_db with
                | Some p =>
                    if truthy p then r <- open_db AsnDb p ;; ret (Some r)
                    else ret None
                | None => ret None
                end ;;
  try_finally (enrich_body df ip_col geoip_col city_reader asn_reader)
              (close_readers asn_reader).

(** The field [compute] returns, without its events. *)
Definition field_of (city_reader : reader) (asn_reader : option reader)
  (ip_val : cell) : string :=
  match outcome (compute city_reader asn_reader ip_val) with
  | inr s => s
  | inl _ => ""
  end.

(** The ownership database [enrich_dataframe] opens: the path given, unless
    it is missing or empty. *)
Definition asn_path (asn_db : option string) : option string :=
  match asn_db with
  | Some p => if truthy p then Some p else None
  | None => None
  end.

(** The ownership reader the rows are computed with. *)
Definition asn_reader_of (asn_db : option string) : option reader :=
  match asn_path asn_db with
  | Some p => Reader p
  | None => None
  end.

(** The ownership database, when one is configured, can be opened. *)
Definition asn_opens (adb : option string) : Prop :=
  forall p, asn_path adb = Some p -> Reader p <> None.

(** The loop of [process_all] works with column [c]: it is the configured
    one, or none is configured and [c] was detected before. *)
Definition resolves (a : args) (detected_ip : option string) (c : string) : Prop :=
  (truthy_opt (ip_col a) = true /\ or_empty (ip_col a) = c)
  \/ (truthy_opt (ip_col a) = false /\ detected_ip = Some c /\ truthy c = true).

(** The column a run settles on from the frame [df] it looks at: the
    configured one, or the detected one. *)
Definition resolved_column (a : args) (df : frame) : option string :=
  if truthy_opt (ip_col a) then ip_col a else autodetect_ip_col df.

(** One output row of [enrich_dataframe] for the IP column at position [i]:
    the row with the field inserted right after that position. *)
Definition enrich_row (city_reader : reader) (asn_reader : option reader)
  (i : nat) (r : list cell) : list cell :=
  Pd.insert_at (i + 1)
    (CStr (field_of city_reader asn_reader (Pd.astype_str (Pd.cell_at i r)))) r.

(** A frame as the specification has tables: distinct column names, and as
    many cells in every row as there are columns. *)
Definition well_formed (df : frame) : Prop :=
  NoDup (columns df)
  /\ Forall (fun r => List.length r = List.length (columns df)) (rows df).

Definition autodetect_failed : exn :=
  SystemExit "Failed to auto-detect IP column. Specify --ip-col.".

Definition out_path_of (a : args) : string :=
  if truthy_opt (out a) then or_empty (out a)
  else rsplit_dot_head (inp a) ++ ".geoip.csv".

(** The keyword arguments of the [read_csv] call of [process_all]: the
    dictionary [read_kwargs] and, in chunked mode, [chunksize]. *)
Definition read_kwargs_of (a : args) : Pd.read_kwargs :=
  {| Pd.kw_encoding := encoding a; Pd.kw_sep := sep a;
     Pd.kw_quotechar := quotechar a;
     Pd.kw_na_filter := if na_filter a then None else Some false;
     Pd.kw_chunksize := if (0 <? chunksize a)%Z
                        then Some (Z.to_nat (chunksize a)) else None |}.

(** The column one pass of the loop of [process_all] works with, and the
    new value of [detected_ip]. *)
Definition resolve_ip_col (a : args) (chunk : frame) (detected_ip : option string)
  : M (string * option string) :=
  if truthy_opt (ip_col a) then ret (or_empty (ip_col a), detected_ip)
  else
    let detected := if truthy_opt detected_ip then detected_ip
                    else autodetect_ip_col chunk in
    if negb (truthy_opt detected) then raise autodetect_failed
    else ret (or_empty detected, detected).

(** The [for chunk in reader] loop of [process_all], with its two variables
    [first] and [detected_ip]. *)
Fixpoint chunk_loop (a : args) (out_path : string) (items : list (exn + frame))
  (first : bool) (detected_ip : option string) : M unit :=
  match items with
  | [] => ret tt
  | inl e :: _ => raise e
  | inr chunk :: rest =>
      resolved <- resolve_ip_col a chunk detected_ip ;;
      enriched <- enrich_dataframe chunk (fst resolved) (city_db a) (asn_db a)
                                   (geoip_col a) ;;
      Pd.to_csv enriched out_path (negb first) first ;;;
      chunk_loop a out_path rest false (snd resolved)
  end.

(** [process_all] *)
Definition process_all (a : args) : M unit :=
  let out_path := out_path_of a in
  let read_kwargs := read_kwargs_of a in
  (if (0 <? chunksize a)%Z then
     items <- Pd.read_csv_chunked fs (inp a) (Z.to_nat (chunksize a)) read_kwargs ;;
     chunk_loop a out_path items true None
   else
     df <- Pd.read_csv fs (inp a) read_kwargs ;;
     let resolved := if truthy_opt (ip_col a) then ip_col a
                     else autodetect_ip_col df in
     if negb (truthy_opt resolved) then raise autodetect_failed
     else
       out_df <- enrich_dataframe df (or_empty resolved) (city_db a) (asn_db a)
                                  (geoip_col a) ;;
       Pd.to_csv out_df out_path false true) ;;;
  emit (EvPrint ("Wrote: " ++ out_path)).

End Script.

(** Arguments that differ in one option. *)
Definition with_chunksize (a : args) (k : Z) : args :=
  {| inp := inp a; out := out a; city_db := city_db a; asn_db := asn_db a;
     ip_col := ip_col a; geoip_col := geoip_col a; chunksize := k;
     encoding := encoding a; sep := sep a; quotechar := quotechar a;
     na_filter := na_filter a; keep_invalid := keep_invalid a;
     invalid_marker := invalid_marker a |}.

Definition with_keep_invalid (a : args) (keep : bool) (marker : string) : args :=
  {| inp := inp a; out := out a; city_db := city_db a; asn_db := asn_db a;
     ip_col := ip_col a; geoip_col := geoip_col a; chunksize := chunksize a;
     encoding := encoding a; sep := sep a; quotechar := quotechar a;
     na_filter := na_filter a; keep_invalid := keep; invalid_marker := marker |}.

Definition with_asn_db (a : args) (p : string) : args :=
  {| inp := inp a; out := out a; city_db := city_db a; asn_db := Some p;
     ip_col := ip_col a; geoip_col := geoip_col a; chunksize := chunksize a;
     encoding := encoding a; sep := sep a; quotechar := quotechar a;
     na_filter := na_filter a; keep_invalid := keep_invalid a;
     invalid_marker := invalid_marker a |}.

(** ** The classifier of the specification

    The three classes of the specification, assigned in its words: trim,
    then [Invalid] for the empty string or an unparsable address,
    [ValidNonRoutable] for a parsed address in a private, loopback, reserved,
    link-local or multicast range, [ValidPublic] otherwise.  The script has
    no such function; it is compared with [is_public_ip] below. *)

Inductive ip_class : Type := Invalid | ValidPublic | ValidNonRoutable.

Definition classify_spec (L : ip_library) (s : string) : ip_class :=
  let t := strip s in
  if String.eqb t "" then Invalid
  else match ip_address L t with
       | None => Invalid
       | Some ip =>
           if is_private L ip || is_loopback L ip || is_reserved L ip
              || is_link_local L ip || is_multicast L ip
           then ValidNonRoutable else ValidPublic
       end.

(** ** The two tests of auto-detection

    The tests the two loops of [autodetect_ip_col] apply to a column, as
    functions of the column: the test on its name, and the test on the
    values sampled from it. *)

Definition is_common_name (c : string) : bool :=
  existsb (String.eqb (lower c)) common.

Definition parses (L : ip_library) (v : string) : bool :=
  match ip_address L (strip v) with Some _ => true | None => false end.

Definition column_qualifies (L : ip_library) (df : frame) (c : string) : bool :=
  let vals := sample_values (Pd.head 1000 df) c in
  match vals with
  | [] => false
  | _ => (List.length vals <=? 2 * List.length (filter (parses L) vals))%nat
  end.

(** ** The notions of the specification, written out

    What the specification means by surrounding whitespace, by comparing
    names case-insensitively and by the values it inspects, defined without
    the functions of the script and without [strip] and [lower]. *)

(** A string with no whitespace at either end: it is empty, or its first and
    its last character are no whitespace. *)
Definition starts_without_space (t : string) : bool :=
  match t with
  | EmptyString => true
  | String c _ => negb (isspace c)
  end.

Fixpoint ends_without_space (t : string) : bool :=
  match t with
  | EmptyString => true
  | String c EmptyString => negb (isspace c)
  | String _ r => ends_without_space r
  end.

Definition no_outer_space (t : string) : bool :=
  starts_without_space t && ends_without_space t.

(** The string without its leading and trailing whitespace, obtained by
    dropping whitespace from the front of the string and from the front of
    the reversed string. *)
Fixpoint drop_while (p : ascii -> bool) (s : string) : string :=
  match s with
  | EmptyString => EmptyString
  | String c r => if p c then drop_while p r else s
  end.

Fixpoint string_rev (s : string) : string :=
  match s with
  | EmptyString => EmptyString
  | String c r => string_rev r ++ String c EmptyString
  end.

Definition trimmed_spec (s : string) : string :=
  string_rev (drop_while isspace (string_rev (drop_while isspace s))).

(** Two characters are the same letter when they are equal or one is the
    capital of the other: the capitals are A..Z and, above 127, the
    code points 192..222 but the multiplication sign, each 32 below its
    small letter. *)
Definition is_capital (c : ascii) : bool :=
  let n := nat_of_ascii c in
  (((65 <=? n) && (n <=? 90))
   || ((192 <=? n) && (n <=? 222) && negb (n =? 215)))%nat.

Definition same_letter (x y : ascii) : bool :=
  Ascii.eqb x y
  || (is_capital x && (nat_of_ascii x + 32 =? nat_of_ascii y)%nat)
  || (is_capital y && (nat_of_ascii y + 32 =? nat_of_ascii x)%nat).

Fixpoint equal_ignoring_case (s t : string) : bool :=
  match s, t with
  | EmptyString, EmptyString => true
  | String x s', String y t' => same_letter x y && equal_ignoring_case s' t'
  | _, _ => false
  end.

(** The column name is, case ignored, one of the fixed list. *)
Definition named_commonly (c : string) : bool :=
  existsb (equal_ignoring_case c) common.

(** The position of the first column of that name. *)
Definition position_of (c : string) (cols : list string) : option nat :=
  option_map fst
    (find (fun p => String.eqb (snd p) c) (combine (seq 0 (List.length cols)) cols)).

Definition cell_present (c : cell) : bool :=
  match c with CNull => false | _ => true end.

Definition cell_text (c : cell) : string :=
  match c with
  | CStr s => s
  | CNum text => text
  | CNull => "nan"
  end.

(** The values inspected in column [c]: of the cells the column has in the
    first 1000 rows, those that are not null, as text, and of these the
    first 200. *)
Definition inspected_values (df : frame) (c : string) : list string :=
  match position_of c (columns df) with
  | Some i =>
      firstn 200
        (map cell_text
           (filter cell_present (map (fun r => nth i r CNull) (firstn 1000 (rows df)))))
  | None => []
  end.

(** The value is an address once its surrounding whitespace is removed. *)
Definition value_parses (L : ip_library) (v : string) : bool :=
  match ip_address L (trimmed_spec v) with Some _ => true | None => false end.

(** At least one value is inspected and at least half of them parse. *)
Definition half_parse (L : ip_library) (df : frame) (c : string) : bool :=
  let vals := inspected_values df c in
  (negb (List.length vals =? 0)
   && (List.length vals <=? 2 * List.length (filter (value_parses L) vals)))%nat.

(** The column the specification detects: the first, in schema order, with a
    common name; without any, the first, in schema order, of whose inspected
    values at least half parse. *)
Definition detect_spec (L : ip_library) (df : frame) : option string :=
  match find named_commonly (columns df) with
  | Some c => Some c
  | None => find (half_parse L df) (columns df)
  end.

(** The separators inside the four text fields of a lookup result. *)
Definition text_separators (country_iso region city org : option string) : nat :=
  occurrences "|" (or_empty country_iso) + occurrences "|" (or_empty region)
  + occurrences "|" (or_empty city) + occurrences "|" (or_empty org).

(** ** A small instance of the environment

    An IPv4-only address parser with the usual special ranges, two databases
    and a few input files.  It serves the worked examples below; the general
    statements hold for every instance. *)

Module Sample.

Fixpoint digits_value (s : string) (acc : nat) : nat :=
  match s with
  | EmptyString => acc
  | String c r => digits_value r (10 * acc + (nat_of_ascii c - 48))
  end.

Definition octet (p : string) : option nat :=
  let n := String.length p in
  if ((1 <=? n) && (n <=? 3))%nat && all_chars is_digit p
     && ((n =? 1)%nat || negb (String.eqb (substring 0 1 p) "0"))
  then let v := digits_value p 0 in if (v <=? 255)%nat then Some v else None
  else None.

Definition parse_ipv4 (s : string) : option (nat * nat * nat * nat) :=
  match split "." s with
  | [a; b; c; d] =>
      match octet a, octet b, octet c, octet d with
      | Some a', Some b', Some c', Some d' => Some (a', b', c', d')
      | _, _, _, _ => None
      end
  | _ => None
  end.

Definition ipv4_library : ip_library :=
  {| ip_addr := (nat * nat * nat * nat)%type;
     ip_address := parse_ipv4;
     is_private := fun '(a, b, _, _) =>
       ((a =? 10) || ((a =? 172) && (16 <=? b) && (b <=? 31))
        || ((a =? 192) && (b =? 168)))%nat;
     is_loopback := fun '(a, _, _, _) => (a =? 127)%nat;
     is_reserved := fun '(a, _, _, _) => (240 <=? a)%nat;
     is_link_local := fun '(a, b, _, _) => ((a =? 169) && (b =? 254))%nat;
     is_multicast := fun '(a, _, _, _) => ((224 <=? a) && (a <=? 239))%nat |}.

Definition lat_37_751 : spec_float := S754_finite false 5312980922901987 (-47).
Definition lon_m97_822 : spec_float := S754_finite true 6883611292947448 (-46).

Definition us_response : city_response :=
  {| country := Some {| iso_code := Some "US" |};
     subdivisions := [];
     city := Some {| name := None |};
     location := Some {| latitude := Some lat_37_751; longitude := Some lon_m97_822 |} |}.

Definition city_reader : reader :=
  {| reader_city := fun ip => if String.eqb ip "8.8.8.8" then Some us_response else None;
     reader_asn := fun _ => None |}.

Definition asn_reader : reader :=
  {| reader_city := fun _ => None;
     reader_asn := fun ip =>
       if String.eqb ip "8.8.8.8"
       then Some {| autonomous_system_number := Some 15169%Z;
                    autonomous_system_organization := Some "GOOGLE" |}
       else None |}.

(** A reader that fails every query. *)
Definition broken_reader : reader :=
  {| reader_city := fun _ => None; reader_asn := fun _ => None |}.

Definition open_reader (path : string) : option reader :=
  if String.eqb path "city.mmdb" then Some city_reader
  else if String.eqb path "asn.mmdb" then Some asn_reader
  else None.

Definition text_rows (l : list (list string)) : list (list cell) :=
  map (map CStr) l.

(** The four addresses of the end-to-end example. *)
Definition table_ips : frame :=
  {| columns := ["ip"];
     rows := text_rows [["8.8.8.8"]; ["10.0.0.1"]; ["not-an-ip"]; [""]] |}.

(** No column carries a common name; in the first row only [a] holds an
    address, over all rows only [b] does in at least half of them. *)
Definition table_mixed : frame :=
  {| columns := ["a"; "b"];
     rows := text_rows [["1.1.1.1"; "z"]; ["x"; "2.2.2.2"]; ["y"; "3.3.3.3"]] |}.

Definition table_abc : frame :=
  {| columns := ["a"; "ip"; "b"; "c"];
     rows := text_rows [["1"; "8.8.8.8"; "2"; "3"]; ["4"; "10.0.0.1"; "5"; "6"]] |}.

Definition table_collide : frame :=
  {| columns := ["ip"; "geoip"];
     rows := text_rows [["8.8.8.8"; "old"]] |}.

Definition table_schema : frame :=
  {| columns := ["user"; "client_ip"; "ts"];
     rows := text_rows [["ann"; "8.8.8.8"; "1"]] |}.

Definition table_no_ip : frame :=
  {| columns := ["user"; "note"];
     rows := text_rows [["ann"; "x"]; ["bob"; "8.8.8.8"]; ["cy"; "z"]] |}.

(** A file whose column [b] holds [01] in the first row and [x] in the
    second.  Read in one piece the column is text; read in batches of one
    row, the first batch has a column of numerals and delivers the number
    1. *)
Definition table_typed_whole : frame :=
  {| columns := ["ip"; "b"];
     rows := [[CStr "8.8.8.8"; CStr "01"]; [CStr "10.0.0.1"; CStr "x"]] |}.

Definition table_typed_by_row : frame :=
  {| columns := ["ip"; "b"];
     rows := [[CStr "8.8.8.8"; CNum "1"]; [CStr "10.0.0.1"; CStr "x"]] |}.

Definition files (path : string) (kw : Pd.read_kwargs) : option Pd.csv_input :=
  let ok := fun t => Some {| Pd.in_frame := t; Pd.in_fail_at := None |} in
  if String.eqb path "typed.csv"
  then match Pd.kw_chunksize kw with
       | Some 1 => ok table_typed_by_row
       | _ => ok table_typed_whole
       end
  else
  if String.eqb path "ips.csv" then ok table_ips
  else if String.eqb path "mixed.csv" then ok table_mixed
  else if String.eqb path "abc.csv" then ok table_abc
  else if String.eqb path "collide.csv" then ok table_collide
  else if String.eqb path "schema.csv" then ok table_schema
  else if String.eqb path "noip.csv" then ok table_no_ip
  else if String.eqb path "broken.csv"
  then Some {| Pd.in_frame := table_mixed; Pd.in_fail_at := Some 2 |}
  else None.

(** The defaults of [parse_args] for an input file. *)
Definition default_args (input : string) : args :=
  {| inp := input; out := None; city_db := "city.mmdb"; asn_db := None;
     ip_col := None; geoip_col := "geoip"; chunksize := 0;
     encoding := "utf-8"; sep := ","; quotechar := String (ascii_of_nat 34) EmptyString;
     na_filter := false; keep_invalid := false; invalid_marker := "invalid_ip" |}.

Definition run (a : args) : M unit := process_all ipv4_library open_reader files a.

End Sample.

(** ** Further observers and arguments *)

(** How many times the database of kind [k] is queried in [t]. *)
Fixpoint count_kind_query (k : db_kind) (t : list event) : nat :=
  match t with
  | [] => 0
  | EvQuery k' _ :: t' => (if db_kind_eqb k k' then 1 else 0) + count_kind_query k t'
  | _ :: t' => count_kind_query k t'
  end.

Definition is_print (ev : event) : bool :=
  match ev with EvPrint _ => true | _ => false end.

Definition is_write (ev : event) : bool :=
  match ev with EvToCsv _ _ _ _ => true | _ => false end.

(** The text is an address the specification classifies Valid-Public. *)
Definition is_valid_public (L : ip_library) (s : string) : bool :=
  match classify_spec L s with
  | ValidPublic => true
  | _ => false
  end.

Definition with_ip_col (a : args) (c : option string) : args :=
  {| inp := inp a; out := out a; city_db := city_db a; asn_db := asn_db a;
     ip_col := c; geoip_col := geoip_col a; chunksize := chunksize a;
     encoding := encoding a; sep := sep a; quotechar := quotechar a;
     na_filter := na_filter a; keep_invalid := keep_invalid a;
     invalid_marker := invalid_marker a |}.

Definition with_city_db (a : args) (p : string) : args :=
  {| inp := inp a; out := out a; city_db := p; asn_db := asn_db a;
     ip_col := ip_col a; geoip_col := geoip_col a; chunksize := chunksize a;
     encoding := encoding a; sep := sep a; quotechar := quotechar a;
     na_filter := na_filter a; keep_invalid := keep_invalid a;
     invalid_marker := invalid_marker a |}.

(** A city response with two subdivisions, the more specific one without a
    name. *)
Definition sample_subdivided : city_response :=
  {| country := Some {| iso_code := Some "GB" |};
     subdivisions := [ {| sub_name := Some "England"; sub_iso_code := Some "ENG" |};
                       {| sub_name := None; sub_iso_code := Some "WSM" |} ];
     city := Some {| name := Some "London" |};
     location := Some {| latitude := Some Sample.lat_37_751; longitude := None |} |}.

Definition sample_subdivided_reader : reader :=
  {| reader_city := fun _ => Some sample_subdivided;
     reader_asn := fun _ => None |}.

(** The frame the first call of [enrich_dataframe] of a run works on, given
    the table read: the first batch in chunked mode, the table otherwise. *)
Definition first_frame (a : args) (df : frame) : frame :=
  if (0 <? chunksize a)%Z then Pd.head (Z.to_nat (chunksize a)) df else df.

(** The writes in [t], in order: for each the flags (append, header). *)
Fixpoint write_modes (t : list event) : list (bool * bool) :=
  match t with
  | [] => []
  | EvToCsv _ append header _ :: t' => (append, header) :: write_modes t'
  | _ :: t' => write_modes t'
  end.

(** The queries of one row of a call of [enrich_dataframe] whose IP column
    is at position [i]: none unless the value, as text, is a Valid-Public
    address; else one of the location database with the trimmed text and,
    with an ownership database, one of that database after it. *)
Definition queries_of_row (L : ip_library) (with_asn : bool) (i : nat)
  (r : list cell) : list event :=
  let text := Pd.str_of_cell (Pd.cell_at i r) in
  if is_valid_public L text then
    EvQuery CityDb (strip text)
      :: (if with_asn then [EvQuery AsnDb (strip text)] else [])
  else [].

(** Tables for the detection examples.  In [table_named] the second column
    has a common name in capitals and small letters, and no row holds an
    address.  In [table_sampled] no name is common; column [w] is null in
    the first 1000 rows and holds addresses after them; column [v] is null
    in its first 100 rows, then holds 200 addresses with a space on either
    side, then 900 other values. *)
Definition table_named : frame :=
  {| columns := ["User"; "Client_IP"; "ip"];
     rows := [[CStr "ann"; CStr "n/a"; CStr "-"]] |}.

Definition table_sampled : frame :=
  {| columns := ["w"; "v"];
     rows := (repeat [CNull; CNull] 100
              ++ repeat [CNull; CStr " 8.8.8.8 "] 200
              ++ repeat [CNull; CStr "junk"] 700
              ++ repeat [CStr "8.8.4.4"; CStr "junk"] 200)%list |}.

(** * Properties *)

(** ** The end-to-end example *)

Example sample_end_to_end :
  outcome (Sample.run (Sample.default_args "ips.csv")) = inr tt /\
  file_content (trace_of (Sample.run (Sample.default_args "ips.csv"))) "ips.geoip.csv"
  = Some [ HeaderLine ["ip"; "geoip"];
           DataLine [CStr "8.8.8.8"; CStr "US|||37.751000|-97.822000||"];
           DataLine [CStr "10.0.0.1"; CStr ""];
           DataLine [CStr "not-an-ip"; CStr ""];
           DataLine [CStr ""; CStr ""] ].
Proof. vm_compute. split; reflexivity. Qed.

Example sample_trace :
  trace_of (Sample.run (with_chunksize (Sample.default_args "ips.csv") 3))
  = [ EvOpen CityDb "city.mmdb"; EvQuery CityDb "8.8.8.8"; EvClose CityDb;
      EvToCsv "ips.geoip.csv" false true
        {| columns := ["ip"; "geoip"];
           rows := [ [CStr "8.8.8.8"; CStr "US|||37.751000|-97.822000||"];
                     [CStr "10.0.0.1"; CStr ""];
                     [CStr "not-an-ip"; CStr ""] ] |};
      EvOpen CityDb "city.mmdb"; EvClose CityDb;
      EvToCsv "ips.geoip.csv" true false
        {| columns := ["ip"; "geoip"]; rows := [ [CStr ""; CStr ""] ] |};
      EvPrint "Wrote: ips.geoip.csv" ].
Proof. vm_compute. reflexivity. Qed.
(** ** Rendering and strings on examples *)

Example format_6f_lat : format_6f (S754_finite false 5312980922901987 (-47)) = "37.751000".
Proof. vm_compute. reflexivity. Qed.

Example format_6f_lon : format_6f (S754_finite true 6883611292947448 (-46)) = "-97.822000".
Proof. vm_compute. reflexivity. Qed.

Example format_6f_small : format_6f (S754_finite false 4722366482869645 (-73)) = "0.000000".
Proof. vm_compute. reflexivity. Qed.

(** Ties go to the even digit: 1/128 and 3/128. *)
Example format_6f_ties :
  format_6f (S754_finite false 1 (-7)) = "0.007812"
  /\ format_6f (S754_finite false 3 (-7)) = "0.023438".
Proof. vm_compute. split; reflexivity. Qed.

Example format_6f_large :
  format_6f (S754_finite false 4768371582031250 21) = "10000000000000000000000.000000"
  /\ format_6f (S754_zero true) = "-0.000000"
  /\ format_6f (S754_infinity true) = "-inf".
Proof. vm_compute. repeat split; reflexivity. Qed.

Example split_ex : split "|" "a||b" = ["a"; ""; "b"].
Proof. reflexivity. Qed.

Example strip_ex :
  strip "  1.2.3.4 " = "1.2.3.4"
  /\ strip (String (ascii_of_nat 133) (String "a" (String (ascii_of_nat 160) ""))) = "a".
Proof. split; reflexivity. Qed.

Example lower_ex : lower "Client_IP" = "client_ip".
Proof. reflexivity. Qed.

Example rsplit_ex :
  rsplit_dot_head "a.b.csv" = "a.b" /\ rsplit_dot_head "noext" = "noext"
  /\ rsplit_dot_head ".csv" = "".
Proof. repeat split; reflexivity. Qed.

Example str_int_ex : str_int 15169 = "15169" /\ str_int 0 = "0" /\ str_int (-3) = "-3".
Proof. vm_compute. auto. Qed.

(** ** Strings *)

Lemma ascii_eqb_sym (a b : ascii) : Ascii.eqb a b = Ascii.eqb b a.
Proof.
  destruct (Ascii.eqb_spec a b) as [->|Hab].
  - symmetry. apply Ascii.eqb_refl.
  - symmetry. apply Ascii.eqb_neq. congruence.
Qed.

Lemma contains_app (sep : ascii) (a b : string) :
  contains sep (a ++ b) = contains sep a || contains sep b.
Proof.
  induction a as [|c a IH]; simpl; [reflexivity|].
  rewrite IH. apply orb_assoc.
Qed.

Lemma all_chars_app (p : ascii -> bool) (a b : string) :
  all_chars p (a ++ b) = all_chars p a && all_chars p b.
Proof.
  induction a as [|c a IH]; simpl; [reflexivity|].
  rewrite IH. apply andb_assoc.
Qed.

Lemma all_chars_contains (p : ascii -> bool) (sep : ascii) (s : string) :
  p sep = false -> all_chars p s = true -> contains sep s = false.
Proof.
  intros Hsep. induction s as [|c s IH]; simpl; [reflexivity|].
  intros H. apply andb_true_iff in H as [Hc Hs].
  rewrite (IH Hs), orb_false_r.
  apply Ascii.eqb_neq. intros ->. congruence.
Qed.

Lemma all_chars_weaken (p q : ascii -> bool) (s : string) :
  (forall c, p c = true -> q c = true) ->
  all_chars p s = true -> all_chars q s = true.
Proof.
  intros Hpq. induction s as [|c s IH]; simpl; [reflexivity|].
  intros H. apply andb_true_iff in H as [Hc Hs].
  rewrite (Hpq _ Hc), (IH Hs). reflexivity.
Qed.

Lemma split_no_sep (sep : ascii) (p : string) :
  contains sep p = false -> split sep p = [p].
Proof.
  induction p as [|c p IH]; simpl; [reflexivity|].
  intros H. apply orb_false_iff in H as [Hc Hp].
  rewrite Hc, (IH Hp). reflexivity.
Qed.

Lemma split_app_sep (sep : ascii) (p rest : string) :
  contains sep p = false ->
  split sep (p ++ String sep rest) = p :: split sep rest.
Proof.
  induction p as [|c p IH]; simpl.
  - intros _. rewrite Ascii.eqb_refl. reflexivity.
  - intros H. apply orb_false_iff in H as [Hc Hp].
    rewrite Hc, (IH Hp). reflexivity.
Qed.

(** Splitting undoes joining when no part holds the separator. *)
Lemma split_join (sep : ascii) (parts : list string) :
  parts <> [] ->
  Forall (fun p => contains sep p = false) parts ->
  split sep (join sep parts) = parts.
Proof.
  induction parts as [|p rest IH]; [congruence|].
  intros _ HF. inversion HF as [|? ? Hp Hrest]; subst.
  destruct rest as [|q rest'].
  - simpl. apply split_no_sep, Hp.
  - change (join sep (p :: q :: rest')) with (p ++ String sep (join sep (q :: rest'))).
    rewrite (split_app_sep _ _ _ Hp). f_equal.
    apply IH; [discriminate | exact Hrest].
Qed.

(** A join of [n + 1] parts holds at least [n] separators, exactly [n] when
    the parts hold none: the number of pieces of a split. *)
Lemma split_length_ge (sep : ascii) (parts : list string) :
  parts <> [] -> List.length parts <= List.length (split sep (join sep parts)).
Proof.
  assert (Hnonempty : forall s, 1 <= List.length (split sep s)).
  { induction s as [|c s IH]; simpl; [lia|].
    destruct (Ascii.eqb c sep); simpl; [lia|].
    destruct (split sep s); simpl; lia. }
  assert (Happ : forall p rest,
             S (List.length (split sep rest))
             <= List.length (split sep (p ++ String sep rest))).
  { induction p as [|c p IH]; intros rest; simpl.
    - rewrite Ascii.eqb_refl. simpl. lia.
    - specialize (IH rest).
      destruct (Ascii.eqb c sep); simpl; [lia|].
      destruct (split sep (p ++ String sep rest)); simpl in *; lia. }
  induction parts as [|p rest IH]; [congruence|].
  intros _. destruct rest as [|q rest'].
  - simpl. apply Hnonempty.
  - change (join sep (p :: q :: rest')) with (p ++ String sep (join sep (q :: rest'))).
    specialize (Happ p (join sep (q :: rest'))).
    assert (List.length (q :: rest') <= List.length (split sep (join sep (q :: rest'))))
      by (apply IH; discriminate).
    simpl in *. lia.
Qed.

Lemma lstrip_head (s : string) :
  match lstrip s with
  | EmptyString => True
  | String c _ => isspace c = false
  end.
Proof.
  induction s as [|c s IH]; simpl; [exact I|].
  destruct (isspace c) eqn:Hc; [exact IH | exact Hc].
Qed.

Lemma lstrip_fixed (c : ascii) (s : string) :
  isspace c = false -> lstrip (String c s) = String c s.
Proof. intros H. simpl. rewrite H. reflexivity. Qed.

Lemma rstrip_head (c : ascii) (s : string) :
  isspace c = false -> exists s', rstrip (String c s) = String c s'.
Proof.
  intros H. simpl. destruct (rstrip s).
  - rewrite H. eauto.
  - eauto.
Qed.

Lemma rstrip_idem (s : string) : rstrip (rstrip s) = rstrip s.
Proof.
  induction s as [|c s IH]; simpl; [reflexivity|].
  destruct (rstrip s) as [|d r] eqn:Hr.
  - destruct (isspace c) eqn:Hc; simpl; [reflexivity|]. rewrite Hc. reflexivity.
  - change (rstrip (String c (String d r))) with
      (match rstrip (String d r) with
       | EmptyString => if isspace c then EmptyString else String c EmptyString
       | r' => String c r'
       end).
    rewrite IH. reflexivity.
Qed.

(** Trimming twice is trimming once. *)
Lemma strip_idem (s : string) : strip (strip s) = strip s.
Proof.
  unfold strip.
  pose proof (lstrip_head s) as Hh.
  destruct (lstrip s) as [|c r] eqn:Hl; [reflexivity|].
  destruct (rstrip_head c r Hh) as [s' Hs'].
  rewrite Hs', (lstrip_fixed _ _ Hh), <- Hs'. apply rstrip_idem.
Qed.

(** ** Surrounding whitespace *)

Lemma lstrip_spaces (ws x : string) :
  all_chars isspace ws = true -> lstrip (ws ++ x) = lstrip x.
Proof.
  induction ws as [|c ws IH]; [reflexivity|]. cbn [all_chars].
  intros H. apply andb_true_iff in H as [Hc Hws].
  cbn [append lstrip]. rewrite Hc. apply IH, Hws.
Qed.

Lemma lstrip_all_space (ws : string) :
  all_chars isspace ws = true -> lstrip ws = EmptyString.
Proof.
  induction ws as [|c ws IH]; [reflexivity|]. cbn [all_chars].
  intros H. apply andb_true_iff in H as [Hc Hws].
  cbn [lstrip]. rewrite Hc. apply IH, Hws.
Qed.

Lemma rstrip_all_space (ws : string) :
  all_chars isspace ws = true -> rstrip ws = EmptyString.
Proof.
  induction ws as [|c ws IH]; [reflexivity|]. cbn [all_chars].
  intros H. apply andb_true_iff in H as [Hc Hws].
  cbn [rstrip]. rewrite (IH Hws), Hc. reflexivity.
Qed.

Lemma rstrip_spaces (x ws : string) :
  all_chars isspace ws = true -> rstrip (x ++ ws) = rstrip x.
Proof.
  intros Hws. induction x as [|c x IH].
  - apply rstrip_all_space, Hws.
  - cbn [append rstrip]. rewrite IH. reflexivity.
Qed.

Lemma rstrip_fixed (t : string) : ends_without_space t = true -> rstrip t = t.
Proof.
  induction t as [|c t IH]; [reflexivity|].
  destruct t as [|d t'].
  - cbn. intros H. apply negb_true_iff in H. rewrite H. reflexivity.
  - intros H.
    change (ends_without_space (String c (String d t')))
      with (ends_without_space (String d t')) in H.
    change (rstrip (String c (String d t')))
      with (match rstrip (String d t') with
            | EmptyString => if isspace c then EmptyString else String c EmptyString
            | r' => String c r'
            end).
    rewrite (IH H). reflexivity.
Qed.

(** Whatever whitespace surrounds a string that has none at its ends,
    [strip] gives back that string. *)
Lemma strip_unique (ws1 t ws2 : string) :
  all_chars isspace ws1 = true -> all_chars isspace ws2 = true ->
  no_outer_space t = true ->
  strip (ws1 ++ t ++ ws2) = t.
Proof.
  intros H1 H2 Ht. unfold strip. rewrite (lstrip_spaces _ _ H1).
  apply andb_true_iff in Ht as [Hs He].
  destruct t as [|c t'].
  - cbn [append]. rewrite (lstrip_all_space _ H2). reflexivity.
  - cbn [starts_without_space] in Hs. apply negb_true_iff in Hs.
    cbn [append]. rewrite (lstrip_fixed _ _ Hs).
    change (String c (t' ++ ws2)) with (String c t' ++ ws2).
    rewrite (rstrip_spaces _ _ H2). apply rstrip_fixed, He.
Qed.

Lemma strip_fixed (t : string) : no_outer_space t = true -> strip t = t.
Proof.
  intros Ht. apply andb_true_iff in Ht as [Hs He]. unfold strip.
  destruct t as [|c t']; [reflexivity|].
  cbn [starts_without_space] in Hs. apply negb_true_iff in Hs.
  rewrite (lstrip_fixed _ _ Hs). apply rstrip_fixed, He.
Qed.

Lemma lstrip_decomposition (s : string) :
  exists ws, s = ws ++ lstrip s /\ all_chars isspace ws = true.
Proof.
  induction s as [|c s [ws [Hs Hws]]].
  - exists EmptyString. split; reflexivity.
  - cbn [lstrip]. destruct (isspace c) eqn:Hc.
    + exists (String c ws). cbn [append all_chars]. rewrite <- Hs, Hc, Hws.
      split; reflexivity.
    + exists EmptyString. split; reflexivity.
Qed.

Lemma rstrip_decomposition (s : string) :
  exists ws, s = rstrip s ++ ws /\ all_chars isspace ws = true.
Proof.
  induction s as [|c s [ws [Hs Hws]]].
  - exists EmptyString. split; reflexivity.
  - cbn [rstrip]. destruct (rstrip s) as [|d r] eqn:Hr.
    + cbn [append] in Hs. subst ws. destruct (isspace c) eqn:Hc.
      * exists (String c s). cbn [append all_chars]. rewrite Hc, Hws.
        split; reflexivity.
      * exists s. split; [reflexivity | exact Hws].
    + exists ws. cbn [append]. split; [|exact Hws].
      f_equal. exact Hs.
Qed.

Lemma rstrip_ends (s : string) : ends_without_space (rstrip s) = true.
Proof.
  induction s as [|c s IH]; [reflexivity|]. cbn [rstrip].
  destruct (rstrip s) as [|d r] eqn:Hr.
  - destruct (isspace c) eqn:Hc; [reflexivity|]. cbn. rewrite Hc. reflexivity.
  - exact IH.
Qed.

Lemma strip_no_outer_space (s : string) : no_outer_space (strip s) = true.
Proof.
  unfold no_outer_space, strip. rewrite rstrip_ends, andb_true_r.
  pose proof (lstrip_head s) as Hh.
  destruct (lstrip s) as [|c r]; [reflexivity|].
  destruct (rstrip_head c r Hh) as [s' Hs']. rewrite Hs'.
  cbn [starts_without_space]. rewrite Hh. reflexivity.
Qed.

(** Every string is a string without whitespace at its ends, surrounded by
    whitespace; [strip] finds it. *)
Lemma strip_decomposition (s : string) :
  exists ws1 ws2,
    s = ws1 ++ strip s ++ ws2
    /\ all_chars isspace ws1 = true /\ all_chars isspace ws2 = true
    /\ no_outer_space (strip s) = true.
Proof.
  destruct (lstrip_decomposition s) as [ws1 [H1 Hw1]].
  destruct (rstrip_decomposition (lstrip s)) as [ws2 [H2 Hw2]].
  exists ws1, ws2. unfold strip at 1. rewrite <- H2.
  split; [exact H1|]. split; [exact Hw1|]. split; [exact Hw2|].
  apply strip_no_outer_space.
Qed.

(** ** Trimming by reversal, and letters *)

Lemma drop_while_lstrip (s : string) : drop_while isspace s = lstrip s.
Proof.
  induction s as [|c s IH]; [reflexivity|]. cbn [drop_while lstrip].
  rewrite IH. reflexivity.
Qed.

Lemma string_rev_snoc (x : string) (c : ascii) :
  string_rev (x ++ String c EmptyString) = String c (string_rev x).
Proof.
  induction x as [|a x IH]; [reflexivity|].
  cbn [append string_rev]. rewrite IH. reflexivity.
Qed.

Lemma lstrip_snoc (a : string) (c : ascii) :
  lstrip (a ++ String c EmptyString)
  = if all_chars isspace a then lstrip (String c EmptyString)
    else lstrip a ++ String c EmptyString.
Proof.
  induction a as [|x a IH]; [reflexivity|].
  cbn [append lstrip all_chars]. destruct (isspace x); [exact IH | reflexivity].
Qed.

Lemma lstrip_empty (a : string) :
  match lstrip a with
  | EmptyString => all_chars isspace a = true
  | String _ _ => all_chars isspace a = false
  end.
Proof.
  induction a as [|x a IH]; [reflexivity|].
  cbn [lstrip all_chars]. destruct (isspace x) eqn:Hx; [exact IH | reflexivity].
Qed.

(** Dropping whitespace from the front of the reversed string and reversing
    again is [rstrip]. *)
Lemma rev_lstrip_rev (s : string) : string_rev (lstrip (string_rev s)) = rstrip s.
Proof.
  induction s as [|c s IH]; [reflexivity|].
  cbn [string_rev rstrip]. rewrite lstrip_snoc.
  pose proof (lstrip_empty (string_rev s)) as He.
  destruct (lstrip (string_rev s)) as [|x w] eqn:Hl.
  - rewrite He. cbn [string_rev] in IH. rewrite <- IH.
    cbn [lstrip]. destruct (isspace c); reflexivity.
  - rewrite He, string_rev_snoc, IH.
    destruct (rstrip s) as [|y r] eqn:Hr; [|reflexivity].
    cbn [string_rev] in IH. destruct (string_rev w); discriminate.
Qed.

Lemma trimmed_spec_strip (s : string) : trimmed_spec s = strip s.
Proof.
  unfold trimmed_spec, strip. rewrite !drop_while_lstrip. apply rev_lstrip_rev.
Qed.

Lemma in_all_ascii (x : ascii) : In x (map ascii_of_nat (seq 0 256)).
Proof.
  rewrite <- (ascii_nat_embedding x). apply in_map, in_seq.
  pose proof (nat_ascii_bounded x). lia.
Qed.

(** Two characters are the same letter exactly when [lower] sends them to
    the same character: checked on all pairs of characters. *)
Lemma same_letter_lower (x y : ascii) :
  same_letter x y = Ascii.eqb (lower_char x) (lower_char y).
Proof.
  assert (H : forallb (fun a =>
                forallb (fun b => Bool.eqb (same_letter a b)
                                           (Ascii.eqb (lower_char a) (lower_char b)))
                        (map ascii_of_nat (seq 0 256)))
              (map ascii_of_nat (seq 0 256)) = true)
    by (vm_compute; reflexivity).
  rewrite forallb_forall in H. specialize (H x (in_all_ascii x)).
  rewrite forallb_forall in H. specialize (H y (in_all_ascii y)).
  apply eqb_prop in H. exact H.
Qed.

Lemma equal_ignoring_case_lower (s t : string) :
  equal_ignoring_case s t = String.eqb (lower s) (lower t).
Proof.
  revert t. induction s as [|x s IH]; intros [|y t]; try reflexivity.
  cbn [equal_ignoring_case lower String.eqb].
  rewrite same_letter_lower, IH.
  destruct (Ascii.eqb (lower_char x) (lower_char y)); reflexivity.
Qed.

Lemma named_commonly_spec (c : string) : named_commonly c = is_common_name c.
Proof.
  unfold named_commonly, is_common_name, common. cbn [existsb].
  rewrite !equal_ignoring_case_lower. reflexivity.
Qed.

Lemma truthy_false (s : string) : truthy s = false -> s = EmptyString.
Proof. destruct s; [reflexivity | discriminate]. Qed.

(** ** Numbers as text *)

Lemma digit_char_is_digit (d : Z) : is_digit (digit_char d) = true.
Proof.
  unfold digit_char.
  assert (H : (0 <= d mod 10 < 10)%Z) by (apply Z.mod_pos_bound; lia).
  assert (Hk : Z.to_nat (d mod 10) < 10) by lia.
  destruct (Z.to_nat (d mod 10)) as [|[|[|[|[|[|[|[|[|[|k]]]]]]]]]];
    try reflexivity; lia.
Qed.

Lemma frac6_shape (q : Z) :
  all_chars is_digit (frac6 q) = true /\ String.length (frac6 q) = 6.
Proof.
  unfold frac6. split.
  - cbn [all_chars]. rewrite !digit_char_is_digit. reflexivity.
  - reflexivity.
Qed.

Lemma uint_digits (d : Decimal.uint) :
  all_chars is_digit (NilEmpty.string_of_uint d) = true.
Proof. induction d; simpl; auto. Qed.

Lemma uint_digits_zero (d : Decimal.uint) :
  all_chars is_digit (NilZero.string_of_uint d) = true
  /\ truthy (NilZero.string_of_uint d) = true.
Proof.
  destruct d; simpl; split; try reflexivity; apply uint_digits.
Qed.

Lemma str_int_nonneg (z : Z) :
  (0 <= z)%Z -> all_chars is_digit (str_int z) = true /\ truthy (str_int z) = true.
Proof.
  intros Hz. unfold str_int. destruct z as [|p|p]; simpl.
  - auto.
  - apply uint_digits_zero.
  - lia.
Qed.

Lemma str_int_chars (z : Z) : all_chars is_sign_or_digit (str_int z) = true.
Proof.
  assert (Hd : forall d, all_chars is_sign_or_digit (NilZero.string_of_uint d) = true).
  { intros d. apply all_chars_weaken with (p := is_digit).
    - intros c Hc. unfold is_sign_or_digit. rewrite Hc. reflexivity.
    - apply uint_digits_zero. }
  unfold str_int. destruct z as [|p|p]; simpl; try apply Hd.
  reflexivity.
Qed.

(** [str_int] writes the decimal numeral of its argument: reading it back
    gives the number. *)
Lemma str_int_reads_back (z : Z) :
  option_map Z.of_int (NilZero.int_of_string (str_int z)) = Some z.
Proof.
  unfold str_int. destruct z as [|p|p].
  - reflexivity.
  - rewrite NilZero.isi.
    + simpl. f_equal. apply (DecimalZ.of_to (Zpos p)).
    + simpl. intros [= H]. revert H. apply DecimalPos.Unsigned.to_uint_nonnil.
    + discriminate.
  - rewrite NilZero.isi.
    + simpl. f_equal. apply (DecimalZ.of_to (Zneg p)).
    + discriminate.
    + simpl. intros [= H]. revert H. apply DecimalPos.Unsigned.to_uint_nonnil.
Qed.

Lemma round_half_even_nonneg (n d : Z) :
  (0 <= n)%Z -> (0 < d)%Z -> (0 <= round_half_even n d)%Z.
Proof.
  intros Hn Hd. unfold round_half_even.
  assert (0 <= n / d)%Z by (apply Z.div_pos; lia).
  destruct (2 * (n mod d) <? d)%Z; [lia|].
  destruct (d <? 2 * (n mod d))%Z; [lia|].
  destruct (Z.even (n / d)); lia.
Qed.

Lemma millionths_nonneg (m : positive) (e : Z) : (0 <= millionths m e)%Z.
Proof.
  unfold millionths. destruct (0 <=? e)%Z eqn:He.
  - apply Z.leb_le in He.
    assert (0 < 2 ^ e)%Z by (apply Z.pow_pos_nonneg; lia). nia.
  - apply Z.leb_gt in He.
    apply round_half_even_nonneg; [lia|]. apply Z.pow_pos_nonneg; lia.
Qed.

Lemma six_decimals_intro (sign : bool) (i f : string) :
  all_chars is_digit i = true -> truthy i = true ->
  all_chars is_digit f = true -> String.length f = 6 ->
  six_decimals (sign_str sign ++ i ++ "." ++ f) = true.
Proof.
  intros Hi Hti Hf Hlen. unfold six_decimals.
  assert (Hdot : is_digit "." = false) by reflexivity.
  assert (Hminus : is_digit "-" = false) by reflexivity.
  assert (Hsplit : split "." (sign_str sign ++ i ++ "." ++ f) = [sign_str sign ++ i; f]).
  { replace (sign_str sign ++ i ++ "." ++ f)
      with ((sign_str sign ++ i) ++ String "." f).
    - rewrite split_app_sep.
      + rewrite split_no_sep; [reflexivity|].
        apply (all_chars_contains is_digit); assumption.
      + rewrite contains_app.
        rewrite (all_chars_contains is_digit "." i Hdot Hi).
        destruct sign; reflexivity.
    - destruct sign; simpl; [f_equal|]; induction i; simpl; congruence. }
  rewrite Hsplit.
  destruct sign; simpl.
  - rewrite Hti, Hi, Hf, Hlen. reflexivity.
  - destruct i as [|c i']; [discriminate|].
    assert (Hc : c <> "-"%char).
    { intros ->. simpl in Hi. discriminate. }
    assert (Hcase : match String c i' with String "-" r => r | _ => String c i' end
                    = String c i').
    { destruct c as [[] [] [] [] [] [] [] []]; try reflexivity. congruence. }
    rewrite Hcase, Hi, Hf, Hlen. reflexivity.
Qed.

(** A finite float is written with exactly six decimals. *)
Lemma format_6f_six_decimals (x : spec_float) :
  is_finite x = true -> six_decimals (format_6f x) = true.
Proof.
  destruct x as [s|s| |s m e]; simpl; try discriminate; intros _.
  - destruct s; reflexivity.
  - pose proof (millionths_nonneg m e) as Hq.
    destruct (frac6_shape (millionths m e mod 1000000)) as [Hf Hl].
    destruct (str_int_nonneg (millionths m e / 1000000)) as [Hi Ht].
    + apply Z.div_pos; lia.
    + apply six_decimals_intro; assumption.
Qed.

Lemma format_6f_no_bar (x : spec_float) : contains "|" (format_6f x) = false.
Proof.
  assert (Hdigit : forall c, is_digit c = true -> is_plain c = true).
  { intros c Hc. unfold is_plain. apply negb_true_iff, Ascii.eqb_neq.
    intros ->. discriminate. }
  assert (Hsd : forall c, is_sign_or_digit c = true -> is_plain c = true).
  { intros c Hc. unfold is_plain. apply negb_true_iff, Ascii.eqb_neq.
    intros ->. discriminate. }
  apply (all_chars_contains is_plain); [reflexivity|].
  destruct x as [s|s| |s m e]; cbn [format_6f].
  - destruct s; reflexivity.
  - destruct s; reflexivity.
  - reflexivity.
  - rewrite !all_chars_app.
    assert (Hs : all_chars is_plain (sign_str s) = true) by (destruct s; reflexivity).
    rewrite Hs, (all_chars_weaken _ _ _ Hsd (str_int_chars _)).
    rewrite (all_chars_weaken _ _ _ Hdigit (proj1 (frac6_shape _))).
    reflexivity.
Qed.

Lemma str_int_no_bar (z : Z) : contains "|" (str_int z) = false.
Proof.
  apply (all_chars_contains is_sign_or_digit); [reflexivity | apply str_int_chars].
Qed.

(** ** Counting separators *)

Lemma occurrences_app (sep : ascii) (a b : string) :
  occurrences sep (a ++ b) = occurrences sep a + occurrences sep b.
Proof.
  induction a as [|c a IH]; simpl; [reflexivity|]. rewrite IH. lia.
Qed.

Lemma occurrences_contains (sep : ascii) (s : string) :
  occurrences sep s = 0 <-> contains sep s = false.
Proof.
  induction s as [|c s IH]; simpl; [tauto|].
  destruct (Ascii.eqb c sep); simpl; [split; [lia | discriminate] | exact IH].
Qed.

(** A split has one part more than the string has separators. *)
Lemma split_length (sep : ascii) (s : string) :
  List.length (split sep s) = S (occurrences sep s).
Proof.
  induction s as [|c s IH]; simpl; [reflexivity|].
  destruct (Ascii.eqb c sep); simpl; [rewrite IH; reflexivity|].
  destruct (split sep s) as [|p ps]; simpl in *; [discriminate | exact IH].
Qed.

(** A join has the separators of its parts and one between any two. *)
Lemma occurrences_join (sep : ascii) (parts : list string) :
  occurrences sep (join sep parts)
  = list_sum (map (occurrences sep) parts) + (List.length parts - 1).
Proof.
  induction parts as [|p rest IH]; [reflexivity|].
  destruct rest as [|q rest'].
  - simpl. lia.
  - change (join sep (p :: q :: rest')) with (p ++ String sep (join sep (q :: rest'))).
    rewrite occurrences_app.
    change (occurrences sep (String sep (join sep (q :: rest'))))
      with ((if Ascii.eqb sep sep then 1 else 0) + occurrences sep (join sep (q :: rest'))).
    rewrite Ascii.eqb_refl, IH. unfold list_sum. cbn [map fold_right List.length]. lia.
Qed.

(** ** The record encoder *)

(** C3, as the code has it.  For every lookup result [format_geoip]
    returns the seven slots country, region, city, lat, lon, asn, org, in
    this order, with a separator between any two: an absent field is the
    empty slot, a present text field is itself, a present coordinate is
    written with exactly six decimals when it is finite and as [nan], [inf]
    or [-inf] when it is not, a present asn is [AS] followed by the decimal
    numeral of the number.  Splitting the result on the separator gives
    seven parts and one more for every separator inside the text fields
    country, region, city and org: exactly seven when none of them holds the
    separator, more than seven otherwise.  When none holds it, the parts are
    the seven slots. *)
Theorem C3_format_geoip_seven_slots
  (c r ci : option string) (la lo : option spec_float) (an : option Z)
  (og : option string) :
  exists p_lat p_lon p_asn : string,
    format_geoip c r ci la lo an og
    = or_empty c ++ "|" ++ or_empty r ++ "|" ++ or_empty ci ++ "|"
      ++ p_lat ++ "|" ++ p_lon ++ "|" ++ p_asn ++ "|" ++ or_empty og
    /\ match la with
       | None => p_lat = ""
       | Some x => p_lat = format_6f x
                   /\ (is_finite x = true -> six_decimals p_lat = true)
                   /\ (is_finite x = false ->
                       p_lat = "nan" \/ p_lat = "inf" \/ p_lat = "-inf")
       end
    /\ match lo with
       | None => p_lon = ""
       | Some x => p_lon = format_6f x
                   /\ (is_finite x = true -> six_decimals p_lon = true)
                   /\ (is_finite x = false ->
                       p_lon = "nan" \/ p_lon = "inf" \/ p_lon = "-inf")
       end
    /\ match an with
       | None => p_asn = ""
       | Some n => p_asn = "AS" ++ str_int n
                   /\ option_map Z.of_int (NilZero.int_of_string (str_int n)) = Some n
       end
    /\ List.length (split "|" (format_geoip c r ci la lo an og))
       = 7 + text_separators c r ci og
    /\ (text_separators c r ci og = 0 <->
        contains "|" (or_empty c) = false /\ contains "|" (or_empty r) = false
        /\ contains "|" (or_empty ci) = false /\ contains "|" (or_empty og) = false)
    /\ (text_separators c r ci og = 0 ->
        split "|" (format_geoip c r ci la lo an og)
        = [or_empty c; or_empty r; or_empty ci; p_lat; p_lon; p_asn; or_empty og]).
Proof.
  assert (Hla : contains "|" (match la with Some x => format_6f x | None => "" end) = false)
    by (destruct la; [apply format_6f_no_bar | reflexivity]).
  assert (Hlo : contains "|" (match lo with Some x => format_6f x | None => "" end) = false)
    by (destruct lo; [apply format_6f_no_bar | reflexivity]).
  assert (Han : contains "|" (match an with Some n => "AS" ++ str_int n | None => "" end)
                = false).
  { destruct an; [|reflexivity]. rewrite contains_app, str_int_no_bar. reflexivity. }
  assert (Hiff : text_separators c r ci og = 0 <->
                 contains "|" (or_empty c) = false /\ contains "|" (or_empty r) = false
                 /\ contains "|" (or_empty ci) = false
                 /\ contains "|" (or_empty og) = false).
  { unfold text_separators. rewrite <- !occurrences_contains. lia. }
  assert (Hnonfinite : forall x, is_finite x = false ->
             format_6f x = "nan" \/ format_6f x = "inf" \/ format_6f x = "-inf").
  { intros [s|s| |s m e]; cbn [is_finite format_6f]; try discriminate; intros _.
    - destruct s; auto.
    - auto. }
  exists (match la with Some x => format_6f x | None => "" end),
         (match lo with Some x => format_6f x | None => "" end),
         (match an with Some n => "AS" ++ str_int n | None => "" end).
  split; [reflexivity|].
  split.
  { destruct la; [|reflexivity].
    split; [reflexivity|]. split; [apply format_6f_six_decimals | apply Hnonfinite]. }
  split.
  { destruct lo; [|reflexivity].
    split; [reflexivity|]. split; [apply format_6f_six_decimals | apply Hnonfinite]. }
  split.
  { destruct an; [split; [reflexivity | apply str_int_reads_back] | reflexivity]. }
  split; [|split; [exact Hiff|]].
  - unfold format_geoip. rewrite split_length, occurrences_join.
    unfold list_sum. cbn [map fold_right List.length].
    apply occurrences_contains in Hla, Hlo, Han. rewrite Hla, Hlo, Han.
    unfold text_separators. lia.
  - intros Hzero. apply Hiff in Hzero. destruct Hzero as [Hc [Hr [Hci Hog]]].
    unfold format_geoip. apply split_join; [discriminate|].
    repeat (apply Forall_cons; [|]); try assumption; apply Forall_nil.
Qed.

Lemma C3_format_geoip_seven_slots_witness :
  text_separators (Some "US") None None (Some "GOOGLE") = 0
  /\ exists p_lat p_lon p_asn : string,
       format_geoip (Some "US") None None (Some Sample.lat_37_751)
                    (Some Sample.lon_m97_822) (Some 15169%Z) (Some "GOOGLE")
       = "US" ++ "|" ++ "" ++ "|" ++ "" ++ "|"
         ++ p_lat ++ "|" ++ p_lon ++ "|" ++ p_asn ++ "|" ++ "GOOGLE"
       /\ (p_lat = format_6f Sample.lat_37_751
           /\ (is_finite Sample.lat_37_751 = true -> six_decimals p_lat = true)
           /\ (is_finite Sample.lat_37_751 = false ->
               p_lat = "nan" \/ p_lat = "inf" \/ p_lat = "-inf"))
       /\ (p_lon = format_6f Sample.lon_m97_822
           /\ (is_finite Sample.lon_m97_822 = true -> six_decimals p_lon = true)
           /\ (is_finite Sample.lon_m97_822 = false ->
               p_lon = "nan" \/ p_lon = "inf" \/ p_lon = "-inf"))
       /\ (p_asn = "AS" ++ str_int 15169
           /\ option_map Z.of_int (NilZero.int_of_string (str_int 15169)) = Some 15169%Z)
       /\ List.length
            (split "|" (format_geoip (Some "US") None None (Some Sample.lat_37_751)
                                     (Some Sample.lon_m97_822) (Some 15169%Z)
                                     (Some "GOOGLE")))
          = 7
       /\ split "|" (format_geoip (Some "US") None None (Some Sample.lat_37_751)
                                  (Some Sample.lon_m97_822) (Some 15169%Z) (Some "GOOGLE"))
          = ["US"; ""; ""; p_lat; p_lon; p_asn; "GOOGLE"].
Proof.
  split; [reflexivity|].
  destruct (C3_format_geoip_seven_slots
              (Some "US") None None (Some Sample.lat_37_751)
              (Some Sample.lon_m97_822) (Some 15169%Z) (Some "GOOGLE"))
    as [p_lat [p_lon [p_asn [Hjoin [Hlat [Hlon [Hasn [Hlen [_ Hparts]]]]]]]]].
  exists p_lat, p_lon, p_asn.
  split; [exact Hjoin|]. split; [exact Hlat|]. split; [exact Hlon|].
  split; [exact Hasn|]. split; [exact Hlen|]. apply Hparts. reflexivity.
Defined.

(** Two results the stated property fails on.  With a separator inside a
    text field the encoded string splits into eight parts, not seven.  With
    a latitude that is not a number and a longitude that is infinite the
    two coordinates are present and are written [nan] and [-inf], without
    any decimals. *)
Lemma C3_counterexample :
  (format_geoip None None None None None None (Some "a|b") = "||||||a|b"
   /\ List.length (split "|" (format_geoip None None None None None None (Some "a|b"))) = 8)
  /\ (split "|" (format_geoip None None None (Some S754_nan) (Some (S754_infinity true))
                              None None)
      = [""; ""; ""; "nan"; "-inf"; ""; ""]
      /\ six_decimals "nan" = false /\ six_decimals "-inf" = false).
Proof. repeat split; reflexivity. Qed.

(** A present coordinate that is not finite is written without decimals. *)
Example format_geoip_nan :
  format_geoip (Some "US") None None (Some S754_nan) (Some (S754_infinity true)) None None
  = "US|||nan|-inf||".
Proof. reflexivity. Qed.

(** Whatever the fields hold, the encoded string never has fewer than seven
    parts. *)
Lemma format_geoip_at_least_seven
  (c r ci : option string) (la lo : option spec_float) (an : option Z)
  (og : option string) :
  7 <= List.length (split "|" (format_geoip c r ci la lo an og)).
Proof.
  unfold format_geoip.
  match goal with
  | |- _ <= List.length (split _ (join _ ?l)) =>
      apply (split_length_ge "|" l); discriminate
  end.
Qed.

Example format_geoip_all_absent :
  format_geoip None None None None None None None = "||||||"
  /\ split "|" (format_geoip None None None None None None None)
     = [""; ""; ""; ""; ""; ""; ""].
Proof. split; reflexivity. Qed.

(** ** The effect monad *)

Lemma bind_ret_l {A B : Type} (a : A) (k : A -> M B) : bind (ret a) k = k a.
Proof. unfold bind, ret. destruct (k a). reflexivity. Qed.

Lemma bind_raise {A B : Type} (e : exn) (k : A -> M B) : bind (raise e) k = raise e.
Proof. reflexivity. Qed.

Lemma bind_trace_value {A B : Type} (m : M A) (k : A -> M B) (t : list event) (a : A) :
  m = (t, inr a) -> bind m k = ((t ++ trace_of (k a))%list, outcome (k a)).
Proof. intros ->. unfold bind, trace_of, outcome. destruct (k a). reflexivity. Qed.

Lemma bind_trace_error {A B : Type} (m : M A) (k : A -> M B) (t : list event) (e : exn) :
  m = (t, inl e) -> bind m k = (t, inl e).
Proof. intros ->. reflexivity. Qed.

Lemma bind_ext {A B : Type} (m : M A) (k k' : A -> M B) :
  (forall a, k a = k' a) -> bind m k = bind m k'.
Proof.
  intros H. destruct m as [t [e|a]]; simpl; [reflexivity|]. rewrite H. reflexivity.
Qed.

Lemma M_eta {A : Type} (m : M A) : m = (trace_of m, outcome m).
Proof. destruct m. reflexivity. Qed.

(** ** The lookup adapter *)

(** C5.  [lookup] always returns a result.  It queries the location reader,
    then the ownership reader when one is configured, whatever the first
    query did.  A failed location query leaves the five location fields
    absent, a failed ownership query leaves asn and org absent, neither
    touches the other's fields, and without an ownership reader asn and org
    are absent. *)
Theorem C5_lookup_fault_tolerant (cr : reader) (ar : option reader) (ip : string) :
  exists r : lookup_result,
    outcome (lookup cr ar ip) = inr r
    /\ trace_of (lookup cr ar ip)
       = EvQuery CityDb ip
         :: match ar with Some _ => [EvQuery AsnDb ip] | None => [] end
    /\ (r_country_iso r, r_region r, r_city r, r_lat r, r_lon r)
       = match reader_city cr ip with
         | Some resp => city_fields resp
         | None => (None, None, None, None, None)
         end
    /\ (r_asn r, r_org r)
       = match ar with
         | Some a =>
             match reader_asn a ip with
             | Some resp => (autonomous_system_number resp,
                             autonomous_system_organization resp)
             | None => (None, None)
             end
         | None => (None, None)
         end.
Proof.
  unfold lookup, call_city, call_asn, try_except, bind, emit, ret, raise,
    trace_of, outcome.
  destruct (reader_city cr ip) as [resp|]; simpl.
  - destruct (city_fields resp) as [[[[c r] ci] la] lo].
    destruct ar as [a|]; simpl.
    + destruct (reader_asn a ip) as [aresp|]; simpl; eexists; repeat split.
    + eexists; repeat split.
  - destruct ar as [a|]; simpl.
    + destruct (reader_asn a ip) as [aresp|]; simpl; eexists; repeat split.
    + eexists; repeat split.
Qed.

Example lookup_city_miss_still_asks_asn :
  lookup Sample.broken_reader (Some Sample.asn_reader) "8.8.8.8"
  = ([EvQuery CityDb "8.8.8.8"; EvQuery AsnDb "8.8.8.8"],
     inr {| r_country_iso := None; r_region := None; r_city := None;
            r_lat := None; r_lon := None;
            r_asn := Some 15169%Z; r_org := Some "GOOGLE" |}).
Proof. reflexivity. Qed.

(** The region is the name of the most specific subdivision, its code when
    the name is missing or empty, and absent without subdivisions. *)
Lemma city_fields_region (resp : city_response) :
  let '(_, region, _, _, _) := city_fields resp in
  region = match subdivisions resp with
           | [] => None
           | subs =>
               let s := last subs no_subdivision in
               if truthy_opt (sub_name s) then sub_name s else sub_iso_code s
           end.
Proof.
  unfold city_fields, por.
  destruct (location resp); destruct (subdivisions resp); reflexivity.
Qed.

(** ** The classifier and the per-row computation *)

Section Classifier.

Variable L : ip_library.

Lemma is_public_ip_true (s : string) :
  is_public_ip L s = true <->
  exists ip, ip_address L (strip s) = Some ip
             /\ is_private L ip = false /\ is_loopback L ip = false
             /\ is_reserved L ip = false /\ is_link_local L ip = false
             /\ is_multicast L ip = false.
Proof.
  unfold is_public_ip. destruct (ip_address L (strip s)) as [ip|].
  - rewrite negb_true_iff, !orb_false_iff. split.
    + intros [[[[H1 H2] H3] H4] H5]. exists ip. auto 10.
    + intros [ip' [[= <-] [H1 [H2 [H3 [H4 H5]]]]]]. auto.
  - split; [discriminate | intros [ip [[=] _]]].
Qed.

Lemma is_public_ip_strip (s : string) : is_public_ip L (strip s) = is_public_ip L s.
Proof. unfold is_public_ip. rewrite strip_idem. reflexivity. Qed.

Lemma classify_spec_strip (s : string) : classify_spec L (strip s) = classify_spec L s.
Proof. unfold classify_spec. rewrite strip_idem. reflexivity. Qed.

Lemma classify_spec_public (s : string) :
  ip_address L "" = None ->
  (is_public_ip L s = true <-> classify_spec L s = ValidPublic).
Proof.
  intros Hempty. unfold is_public_ip, classify_spec.
  destruct (String.eqb_spec (strip s) "") as [->|Hne].
  - rewrite Hempty. split; discriminate.
  - destruct (ip_address L (strip s)) as [ip|]; [|split; discriminate].
    destruct (is_private L ip || is_loopback L ip || is_reserved L ip
              || is_link_local L ip || is_multicast L ip);
      simpl; split; congruence.
Qed.

(** The classes of the specification in terms of the parser alone: the
    class of a string is decided by its core. *)
Lemma classify_spec_core (ws1 t ws2 : string) :
  all_chars isspace ws1 = true -> all_chars isspace ws2 = true ->
  no_outer_space t = true ->
  classify_spec L (ws1 ++ t ++ ws2)
  = if String.eqb t "" then Invalid
    else match ip_address L t with
         | None => Invalid
         | Some ip =>
             if is_private L ip || is_loopback L ip || is_reserved L ip
                || is_link_local L ip || is_multicast L ip
             then ValidNonRoutable else ValidPublic
         end.
Proof.
  intros H1 H2 Ht. unfold classify_spec. rewrite (strip_unique _ _ _ H1 H2 Ht).
  reflexivity.
Qed.

(** C9, as the code has it.  [is_public_ip] is a function of the string
    alone and answers with a truth value, not with one of three classes.
    Every string is a string without whitespace at its ends, surrounded by
    whitespace, and the answer does not depend on the surrounding
    whitespace: the string is trimmed before it is parsed.  The answer is
    true exactly when the trimmed string parses as an address that is in
    none of the private, loopback, reserved, link-local and multicast
    ranges (Valid-Public).  It is false in all other cases, for a trimmed
    string that does not parse (Invalid) as for an address in one of the
    five ranges (Valid-Non-Routable); among them is every string of
    whitespace only, the empty one included, when the parser rejects the
    empty string. *)
Theorem C9_classifier :
  (forall s, exists ws1 t ws2,
      s = ws1 ++ t ++ ws2
      /\ all_chars isspace ws1 = true /\ all_chars isspace ws2 = true
      /\ no_outer_space t = true)
  /\ (forall ws1 t ws2,
        all_chars isspace ws1 = true -> all_chars isspace ws2 = true ->
        no_outer_space t = true ->
        is_public_ip L (ws1 ++ t ++ ws2) = is_public_ip L t
        /\ (is_public_ip L (ws1 ++ t ++ ws2) = true <->
            exists ip, ip_address L t = Some ip
                       /\ is_private L ip = false /\ is_loopback L ip = false
                       /\ is_reserved L ip = false /\ is_link_local L ip = false
                       /\ is_multicast L ip = false)
        /\ (is_public_ip L (ws1 ++ t ++ ws2) = false <->
            ip_address L t = None
            \/ exists ip, ip_address L t = Some ip
                          /\ (is_private L ip = true \/ is_loopback L ip = true
                              \/ is_reserved L ip = true \/ is_link_local L ip = true
                              \/ is_multicast L ip = true)))
  /\ (ip_address L "" = None ->
      forall ws, all_chars isspace ws = true -> is_public_ip L ws = false).
Proof.
  split; [|split].
  - intros s. destruct (strip_decomposition s) as [ws1 [ws2 [Hs [H1 [H2 Ht]]]]].
    exists ws1, (strip s), ws2. auto.
  - intros ws1 t ws2 H1 H2 Ht.
    assert (Hs : strip (ws1 ++ t ++ ws2) = t) by (apply strip_unique; assumption).
    assert (Hs' : strip t = t) by (apply strip_fixed, Ht).
    split; [|split].
    + unfold is_public_ip. rewrite Hs, Hs'. reflexivity.
    + rewrite is_public_ip_true, Hs. reflexivity.
    + unfold is_public_ip. rewrite Hs.
      destruct (ip_address L t) as [ip|]; [|split; auto].
      rewrite negb_false_iff, !orb_true_iff. split.
      * intros H. right. exists ip. split; [reflexivity | tauto].
      * intros [H|[ip' [[= <-] H]]]; [discriminate | tauto].
  - intros Hempty ws Hws. unfold is_public_ip, strip.
    rewrite (lstrip_all_space _ Hws). cbn [rstrip]. rewrite Hempty. reflexivity.
Qed.

Variables (city_reader : reader) (asn_reader : option reader).

(** The per-row computation gives the empty field, without any event, for a
    value that is no string, a string that is empty once trimmed, and an
    address the specification classifies Invalid. *)
Lemma compute_unusable (c : cell) :
  match c with
  | CStr v => strip v = "" \/ classify_spec L v = Invalid
  | _ => True
  end ->
  compute L city_reader asn_reader c = ([], inr "").
Proof.
  destruct c as [v|t|]; try reflexivity.
  intros H. unfold compute.
  destruct (truthy (strip v)) eqn:Ht; [|reflexivity]. simpl.
  assert (Hne : strip v <> "") by (intros Heq; rewrite Heq in Ht; discriminate).
  destruct H as [H|H]; [contradiction|].
  unfold classify_spec in H.
  destruct (String.eqb_spec (strip v) ""); [contradiction|].
  rewrite is_public_ip_strip. unfold is_public_ip.
  destruct (ip_address L (strip v)) as [ip|]; [|reflexivity].
  destruct (is_private L ip || is_loopback L ip || is_reserved L ip
            || is_link_local L ip || is_multicast L ip); discriminate.
Qed.

(** C7.  For an address classified Valid-Non-Routable the per-row
    computation returns the empty field and causes no event at all: neither
    the location reader nor the ownership reader is queried. *)
Theorem C7_non_routable_no_lookup (v : string) :
  classify_spec L v = ValidNonRoutable ->
  compute L city_reader asn_reader (CStr v) = ([], inr "")
  /\ count_query (trace_of (compute L city_reader asn_reader (CStr v))) = 0.
Proof.
  intros H.
  assert (Hc : compute L city_reader asn_reader (CStr v) = ([], inr "")).
  { unfold classify_spec in H. unfold compute.
    destruct (String.eqb_spec (strip v) "") as [|Hne]; [discriminate|].
    destruct (strip v) as [|ch rest] eqn:Hs; [congruence|]. simpl truthy. simpl negb.
    cbv iota. rewrite <- Hs, is_public_ip_strip. unfold is_public_ip.
    rewrite Hs in *.
    destruct (ip_address L (String ch rest)) as [ip|]; [|discriminate].
    destruct (is_private L ip || is_loopback L ip || is_reserved L ip
              || is_link_local L ip || is_multicast L ip); [reflexivity|discriminate]. }
  rewrite Hc. split; reflexivity.
Qed.

(** For a Valid-Public address the field is the encoded lookup result. *)
Lemma compute_public (v : string) :
  classify_spec L v = ValidPublic ->
  compute L city_reader asn_reader (CStr v)
  = bind (lookup city_reader asn_reader (strip v))
         (fun r => ret (format_geoip (r_country_iso r) (r_region r) (r_city r)
                                     (r_lat r) (r_lon r) (r_asn r) (r_org r))).
Proof.
  intros H. unfold classify_spec in H. unfold compute.
  destruct (String.eqb_spec (strip v) "") as [|Hne]; [discriminate|].
  destruct (strip v) as [|ch rest] eqn:Hs; [congruence|]. simpl truthy. simpl negb.
  cbv iota. rewrite <- Hs, is_public_ip_strip. unfold is_public_ip.
  rewrite Hs in *.
  destruct (ip_address L (String ch rest)) as [ip|]; [|discriminate].
  destruct (is_private L ip || is_loopback L ip || is_reserved L ip
            || is_link_local L ip || is_multicast L ip); [discriminate|reflexivity].
Qed.

End Classifier.

Lemma C9_classifier_witness :
  all_chars isspace " " = true
  /\ no_outer_space "8.8.8.8" = true
  /\ is_public_ip Sample.ipv4_library (" " ++ "8.8.8.8" ++ " ")
     = is_public_ip Sample.ipv4_library "8.8.8.8"
  /\ (is_public_ip Sample.ipv4_library (" " ++ "10.0.0.1" ++ " ") = false <->
      ip_address Sample.ipv4_library "10.0.0.1" = None
      \/ exists ip, ip_address Sample.ipv4_library "10.0.0.1" = Some ip
                    /\ (is_private Sample.ipv4_library ip = true
                        \/ is_loopback Sample.ipv4_library ip = true
                        \/ is_reserved Sample.ipv4_library ip = true
                        \/ is_link_local Sample.ipv4_library ip = true
                        \/ is_multicast Sample.ipv4_library ip = true)).
Proof.
  split; [reflexivity|]. split; [reflexivity|].
  destruct (C9_classifier Sample.ipv4_library) as [_ [Htrim _]].
  split.
  - exact (proj1 (Htrim " " "8.8.8.8" " " eq_refl eq_refl eq_refl)).
  - exact (proj2 (proj2 (Htrim " " "10.0.0.1" " " eq_refl eq_refl eq_refl))).
Defined.

(** A string that does not parse and an address of a private range, of two
    different classes of the specification, get the same answer; no reading
    of the answer tells the two classes apart. *)
Lemma C9_counterexample :
  classify_spec Sample.ipv4_library "not-an-ip" = Invalid
  /\ classify_spec Sample.ipv4_library "10.0.0.1" = ValidNonRoutable
  /\ is_public_ip Sample.ipv4_library "not-an-ip" = false
  /\ is_public_ip Sample.ipv4_library "10.0.0.1" = false
  /\ (forall class_of : bool -> ip_class,
        ~ (class_of (is_public_ip Sample.ipv4_library "not-an-ip") = Invalid
           /\ class_of (is_public_ip Sample.ipv4_library "10.0.0.1") = ValidNonRoutable)).
Proof.
  split; [reflexivity|]. split; [reflexivity|]. split; [reflexivity|].
  split; [reflexivity|].
  intros class_of [H1 H2].
  change (is_public_ip Sample.ipv4_library "not-an-ip") with false in H1.
  change (is_public_ip Sample.ipv4_library "10.0.0.1") with false in H2.
  congruence.
Qed.

Example classify_sample :
  map (classify_spec Sample.ipv4_library)
      ["8.8.8.8"; " 8.8.8.8 "; "10.0.0.1"; "127.0.0.1"; "169.254.1.1"; "224.0.0.1";
       "250.1.1.1"; "not-an-ip"; ""; "   "; "1.2.3"; "01.2.3.4"; "256.1.1.1"]
  = [ValidPublic; ValidPublic; ValidNonRoutable; ValidNonRoutable; ValidNonRoutable;
     ValidNonRoutable; ValidNonRoutable; Invalid; Invalid; Invalid; Invalid; Invalid;
     Invalid]
  /\ map (is_public_ip Sample.ipv4_library)
         ["8.8.8.8"; " 8.8.8.8 "; "10.0.0.1"; "not-an-ip"; ""]
     = [true; true; false; false; false].
Proof. vm_compute. split; reflexivity. Qed.

Lemma C7_non_routable_no_lookup_witness :
  classify_spec Sample.ipv4_library " 10.0.0.1" = ValidNonRoutable
  /\ compute Sample.ipv4_library Sample.city_reader (Some Sample.asn_reader)
             (CStr " 10.0.0.1") = ([], inr "")
  /\ count_query (trace_of (compute Sample.ipv4_library Sample.city_reader
                                    (Some Sample.asn_reader) (CStr " 10.0.0.1"))) = 0.
Proof.
  split; [reflexivity|].
  apply (C7_non_routable_no_lookup Sample.ipv4_library Sample.city_reader
           (Some Sample.asn_reader) " 10.0.0.1").
  reflexivity.
Defined.

(** ** The keep-invalid option *)

Section KeepInvalid.

Variable L : ip_library.
Variable Reader : string -> option reader.
Variable fs : Pd.file_system.

Lemma chunk_loop_ignores_keep_invalid (a : args) (keep : bool) (marker : string)
  (out_path : string) (items : list (exn + frame)) :
  forall (first : bool) (detected : option string),
    chunk_loop L Reader (with_keep_invalid a keep marker) out_path items first detected
    = chunk_loop L Reader a out_path items first detected.
Proof.
  induction items as [|[e|chunk] rest IH]; intros first detected; cbn [chunk_loop].
  - reflexivity.
  - reflexivity.
  - change (resolve_ip_col L (with_keep_invalid a keep marker) chunk detected)
      with (resolve_ip_col L a chunk detected).
    cbn [with_keep_invalid ip_col city_db asn_db geoip_col].
    apply bind_ext. intros resolved.
    apply bind_ext. intros enriched.
    apply bind_ext. intros _.
    apply IH.
Qed.

(** The two options [--keep-invalid] and [--invalid-marker] are parsed and
    never read: a run with them set is the run without them. *)
Lemma process_all_ignores_keep_invalid (a : args) (keep : bool) (marker : string) :
  process_all L Reader fs (with_keep_invalid a keep marker) = process_all L Reader fs a.
Proof.
  unfold process_all.
  change (out_path_of (with_keep_invalid a keep marker)) with (out_path_of a).
  change (read_kwargs_of (with_keep_invalid a keep marker)) with (read_kwargs_of a).
  cbn [with_keep_invalid chunksize inp ip_col city_db asn_db geoip_col].
  destruct (0 <? chunksize a)%Z; [|reflexivity].
  f_equal. apply bind_ext. intros items.
  apply chunk_loop_ignores_keep_invalid.
Qed.

End KeepInvalid.

(** C1, at the input where the script departs from it.  With
    [--keep-invalid] set and the marker [invalid_ip], the run over the four
    example addresses succeeds and still writes the empty field for
    [not-an-ip], where the help text of the option promises the marker. *)
Theorem C1_keep_invalid_not_applied :
  outcome (Sample.run (with_keep_invalid (Sample.default_args "ips.csv") true "invalid_ip"))
  = inr tt
  /\ file_content
       (trace_of (Sample.run (with_keep_invalid (Sample.default_args "ips.csv")
                                                true "invalid_ip")))
       "ips.geoip.csv"
     = Some [ HeaderLine ["ip"; "geoip"];
              DataLine [CStr "8.8.8.8"; CStr "US|||37.751000|-97.822000||"];
              DataLine [CStr "10.0.0.1"; CStr ""];
              DataLine [CStr "not-an-ip"; CStr ""];
              DataLine [CStr ""; CStr ""] ]
  /\ classify_spec Sample.ipv4_library "not-an-ip" = Invalid.
Proof. vm_compute. repeat split; reflexivity. Qed.

(** ** Lists of labels and rows *)

Lemma index_of_some (x : string) (l : list string) (i : nat) :
  Pd.index_of x l = Some i -> i < List.length l /\ nth_error l i = Some x.
Proof.
  revert i. induction l as [|y l IH]; simpl; intros i; [discriminate|].
  destruct (String.eqb_spec y x) as [->|Hne].
  - intros [= <-]. simpl. split; [lia | reflexivity].
  - destruct (Pd.index_of x l) as [j|]; [|discriminate].
    intros [= <-]. destruct (IH j eq_refl) as [Hlt Hnth]. simpl. split; [lia | exact Hnth].
Qed.

Lemma index_of_none (x : string) (l : list string) :
  Pd.index_of x l = None <-> ~ In x l.
Proof.
  induction l as [|y l IH]; simpl.
  - split; auto.
  - destruct (String.eqb_spec y x) as [->|Hne].
    + split; [discriminate | intros H; exfalso; apply H; auto].
    + destruct (Pd.index_of x l) as [j|].
      * split; [discriminate|]. intros H. exfalso.
        assert (Hin : ~ In x l) by (intros Hin; apply H; auto).
        apply IH in Hin. discriminate.
      * split; [|reflexivity]. intros _ [Heq|Hin]; [congruence|].
        apply (proj1 IH eq_refl), Hin.
Qed.

Lemma index_of_in (x : string) (l : list string) :
  In x l -> exists i, Pd.index_of x l = Some i.
Proof.
  intros Hin. destruct (Pd.index_of x l) as [i|] eqn:Hi; [eauto|].
  apply index_of_none in Hi. contradiction.
Qed.

Lemma existsb_eqb_in (g : string) (cols : list string) :
  existsb (String.eqb g) cols = true <-> In g cols.
Proof.
  rewrite existsb_exists. split.
  - intros [x [Hin Heq]]. apply String.eqb_eq in Heq. subst. exact Hin.
  - intros Hin. exists g. split; [exact Hin | apply String.eqb_refl].
Qed.

Lemma indices_of_cons (y : string) (labels l : list string) (idxs : list nat) :
  ~ In y labels ->
  Pd.indices_of labels l = inr idxs ->
  Pd.indices_of labels (y :: l) = inr (map S idxs).
Proof.
  revert idxs. induction labels as [|x labels IH]; simpl; intros idxs Hnin.
  - intros [= <-]. reflexivity.
  - destruct (String.eqb_spec y x) as [->|Hne]; [exfalso; apply Hnin; auto|].
    destruct (Pd.index_of x l) as [i|]; [|discriminate].
    destruct (Pd.indices_of labels l) as [e|rest] eqn:Hrest; [discriminate|].
    intros [= <-].
    rewrite (IH rest); [reflexivity | intros Hin; apply Hnin; auto | reflexivity].
Qed.

(** Selecting the labels of a frame with distinct names, in their order,
    picks every position once, in order. *)
Lemma indices_of_self (l : list string) :
  NoDup l -> Pd.indices_of l l = inr (seq 0 (List.length l)).
Proof.
  induction l as [|y l IH]; intros Hnd; [reflexivity|].
  inversion Hnd as [|? ? Hnin Hnd']; subst.
  simpl. rewrite String.eqb_refl.
  rewrite (indices_of_cons y l l _ Hnin (IH Hnd')), seq_shift. reflexivity.
Qed.

Lemma map_cell_at_seq (r : list cell) :
  map (fun i => Pd.cell_at i r) (seq 0 (List.length r)) = r.
Proof.
  induction r as [|c r IH]; [reflexivity|].
  simpl. unfold Pd.cell_at at 1. simpl. f_equal.
  rewrite <- seq_shift, map_map. exact IH.
Qed.

Lemma zip_insert_map (loc : nat) (rs : list (list cell)) (k : list cell -> cell) :
  Pd.zip_insert loc rs (map k rs) = map (fun r => Pd.insert_at loc (k r) r) rs.
Proof.
  induction rs as [|r rs IH]; simpl; [reflexivity|]. rewrite IH. reflexivity.
Qed.

Lemma insert_at_length {A : Type} (loc : nat) (x : A) (l : list A) :
  List.length (Pd.insert_at loc x l) = S (List.length l).
Proof.
  unfold Pd.insert_at. rewrite length_app. simpl.
  rewrite Nat.add_succ_r, <- length_app, firstn_skipn. reflexivity.
Qed.

Lemma insert_at_NoDup (loc : nat) (x : string) (l : list string) :
  NoDup l -> ~ In x l -> NoDup (Pd.insert_at loc x l).
Proof.
  intros Hnd Hnin. unfold Pd.insert_at.
  apply (NoDup_Add (a := x) (l := l)).
  - rewrite <- (firstn_skipn loc l) at 1. apply Add_app.
  - split; assumption.
Qed.

(** Taking the inserted element out again gives the list back. *)
Lemma insert_at_remove {A : Type} (loc : nat) (x : A) (l : list A) :
  loc <= List.length l ->
  (firstn loc (Pd.insert_at loc x l) ++ skipn (S loc) (Pd.insert_at loc x l))%list = l
  /\ nth_error (Pd.insert_at loc x l) loc = Some x.
Proof.
  intros Hle. unfold Pd.insert_at.
  assert (Hlen : List.length (firstn loc l) = loc) by (apply firstn_length_le; exact Hle).
  split.
  - rewrite firstn_app, Hlen, Nat.sub_diag, firstn_O, app_nil_r.
    rewrite firstn_all2 by lia.
    rewrite skipn_app, Hlen.
    replace (S loc - loc) with 1 by lia.
    assert (Hs : skipn (S loc) (firstn loc l) = []) by (apply skipn_all2; lia).
    rewrite Hs. simpl. apply firstn_skipn.
  - rewrite nth_error_app2 by lia. rewrite Hlen, Nat.sub_diag. reflexivity.
Qed.

(** ** One call of [enrich_dataframe] *)

Section Enrich.

Variable L : ip_library.
Variables (cr : reader) (ar : option reader).

Lemma lookup_total (ip : string) :
  exists r, lookup cr ar ip
            = (EvQuery CityDb ip
                 :: match ar with Some _ => [EvQuery AsnDb ip] | None => [] end,
               inr r).
Proof.
  unfold lookup, call_city, call_asn, try_except, bind, emit, ret, raise.
  destruct (reader_city cr ip) as [resp|]; simpl.
  - destruct (city_fields resp) as [[[[c r] ci] la] lo].
    destruct ar as [a|]; simpl; [destruct (reader_asn a ip); simpl|]; eauto.
  - destruct ar as [a|]; simpl; [destruct (reader_asn a ip); simpl|]; eauto.
Qed.

(** [compute] never raises, and all it causes are queries. *)
Lemma compute_total (c : cell) :
  exists t s, compute L cr ar c = (t, inr s) /\ forallb is_query t = true.
Proof.
  destruct c as [v|x|]; unfold compute; try (exists [], ""; split; reflexivity).
  destruct (truthy (strip v)); simpl; [|exists [], ""; split; reflexivity].
  destruct (is_public_ip L (strip v)); simpl; [|exists [], ""; split; reflexivity].
  destruct (lookup_total (strip v)) as [r Hr]. rewrite Hr.
  unfold bind, ret. eexists _, _. split; [reflexivity|].
  destruct ar; reflexivity.
Qed.

Lemma compute_eta (c : cell) :
  compute L cr ar c = (trace_of (compute L cr ar c), inr (field_of L cr ar c)).
Proof.
  unfold field_of. destruct (compute_total c) as [t [s [H _]]]. rewrite H. reflexivity.
Qed.

Lemma compute_queries_only (c : cell) :
  forallb is_query (trace_of (compute L cr ar c)) = true.
Proof.
  destruct (compute_total c) as [t [s [H Hq]]]. rewrite H. exact Hq.
Qed.

Lemma mapM_fields (series : list cell) :
  mapM (fun v => s <- compute L cr ar (Pd.astype_str v) ;; ret (CStr s)) series
  = (flat_map (fun v => trace_of (compute L cr ar (Pd.astype_str v))) series,
     inr (map (fun v => CStr (field_of L cr ar (Pd.astype_str v))) series)).
Proof.
  induction series as [|v series IH]; [reflexivity|].
  cbn [mapM flat_map map]. rewrite IH.
  rewrite (compute_eta (Pd.astype_str v)) at 1.
  unfold bind, ret. cbn. rewrite !app_nil_r. reflexivity.
Qed.

Lemma flat_map_queries_only (series : list cell) :
  forallb is_query
    (flat_map (fun v => trace_of (compute L cr ar (Pd.astype_str v))) series) = true.
Proof.
  induction series as [|v series IH]; [reflexivity|].
  cbn [flat_map]. rewrite forallb_app, compute_queries_only, IH. reflexivity.
Qed.

(** What the [try] block does, case by case. *)
Lemma enrich_body_run (df : frame) (ipc g : string) :
  enrich_body L df ipc g cr ar =
  match Pd.index_of ipc (columns df) with
  | None => ([], inl (KeyError ipc))
  | Some i =>
      (flat_map (fun v => trace_of (compute L cr ar (Pd.astype_str v)))
                (map (Pd.cell_at i) (rows df)),
       if existsb (String.eqb g) (columns df)
       then inl (ValueError ("cannot insert " ++ g ++ ", already exists"))
       else if (List.length (columns df) <? i + 1)%nat
       then inl (IndexError "index out of bounds")
       else match Pd.indices_of (Pd.insert_at (i + 1) g (columns df))
                                (Pd.insert_at (i + 1) g (columns df)) with
            | inl e => inl e
            | inr idxs =>
                inr {| columns := Pd.insert_at (i + 1) g (columns df);
                       rows := map (fun r => map (fun j => Pd.cell_at j (enrich_row L cr ar i r))
                                                 idxs)
                                   (rows df) |}
            end)
  end.
Proof.
  unfold enrich_body, Pd.getitem.
  destruct (Pd.index_of ipc (columns df)) as [i|] eqn:Hi; [|reflexivity].
  rewrite bind_ret_l.
  rewrite (bind_trace_value _ _ _ _ (mapM_fields _)).
  unfold list_index. rewrite Hi, bind_ret_l.
  unfold Pd.insert.
  destruct (existsb (String.eqb g) (columns df)).
  { cbn. rewrite app_nil_r. reflexivity. }
  destruct (List.length (columns df) <? i + 1)%nat.
  { cbn. rewrite app_nil_r. reflexivity. }
  rewrite bind_ret_l. unfold Pd.select. cbn [columns rows].
  change (firstn (i + 1) (columns df) ++ [g] ++ skipn (i + 1) (columns df))%list
    with (Pd.insert_at (i + 1) g (columns df)).
  destruct (Pd.indices_of (Pd.insert_at (i + 1) g (columns df))
                          (Pd.insert_at (i + 1) g (columns df))) as [e|idxs].
  { cbn. rewrite app_nil_r. reflexivity. }
  cbn. rewrite app_nil_r. f_equal. f_equal. f_equal.
  rewrite map_map.
  rewrite (zip_insert_map (i + 1) (rows df)
             (fun r => CStr (field_of L cr ar (Pd.astype_str (Pd.cell_at i r))))).
  rewrite map_map. reflexivity.
Qed.

Lemma enrich_body_queries_only (df : frame) (ipc g : string) :
  forallb is_query (trace_of (enrich_body L df ipc g cr ar)) = true.
Proof.
  rewrite enrich_body_run.
  destruct (Pd.index_of ipc (columns df)); [|reflexivity].
  apply flat_map_queries_only.
Qed.

(** On a well-formed frame that has the IP column and not yet the new one,
    the block returns the frame with the new column right after the IP
    column and every row extended at that place. *)
Lemma enrich_body_ok (df : frame) (ipc g : string) (i : nat) :
  well_formed df ->
  Pd.index_of ipc (columns df) = Some i ->
  ~ In g (columns df) ->
  outcome (enrich_body L df ipc g cr ar)
  = inr {| columns := Pd.insert_at (i + 1) g (columns df);
           rows := map (enrich_row L cr ar i) (rows df) |}.
Proof.
  intros [Hnd Hrows] Hi Hnin.
  rewrite enrich_body_run, Hi. cbn [outcome snd].
  destruct (existsb (String.eqb g) (columns df)) eqn:Hex.
  { apply existsb_eqb_in in Hex. contradiction. }
  destruct (index_of_some _ _ _ Hi) as [Hlt _].
  destruct (Nat.ltb_spec (List.length (columns df)) (i + 1)); [lia|].
  rewrite (indices_of_self _ (insert_at_NoDup (i + 1) g _ Hnd Hnin)).
  f_equal. f_equal.
  apply map_ext_in. intros r Hr.
  rewrite Forall_forall in Hrows. specialize (Hrows r Hr).
  rewrite insert_at_length.
  replace (S (List.length (columns df))) with (List.length (enrich_row L cr ar i r)).
  - apply map_cell_at_seq.
  - unfold enrich_row. rewrite insert_at_length, Hrows. reflexivity.
Qed.

End Enrich.

Section EnrichCall.

Variable L : ip_library.
Variable Reader : string -> option reader.

(** A whole call, case by case: which handles are opened and closed around
    the [try] block. *)
Lemma enrich_dataframe_run (df : frame) (ipc cdb : string) (adb : option string)
  (g : string) :
  enrich_dataframe L Reader df ipc cdb adb g =
  match Reader cdb with
  | None => ([], inl (DatabaseError cdb))
  | Some cr =>
      match asn_path adb with
      | None =>
          (EvOpen CityDb cdb
             :: trace_of (enrich_body L df ipc g cr None) ++ [EvClose CityDb],
           outcome (enrich_body L df ipc g cr None))%list
      | Some p =>
          match Reader p with
          | None => ([EvOpen CityDb cdb], inl (DatabaseError p))
          | Some ar =>
              (EvOpen CityDb cdb :: EvOpen AsnDb p
                 :: trace_of (enrich_body L df ipc g cr (Some ar))
                 ++ [EvClose CityDb; EvClose AsnDb],
               outcome (enrich_body L df ipc g cr (Some ar)))%list
          end
      end
  end.
Proof.
  unfold enrich_dataframe, open_db, asn_path.
  destruct (Reader cdb) as [cr|]; [|reflexivity].
  destruct adb as [p|].
  - destruct (truthy p).
    + destruct (Reader p) as [ar|]; [|reflexivity].
      destruct (enrich_body L df ipc g cr (Some ar)) as [t r] eqn:Hb.
      unfold try_finally, close_readers, bind, emit, ret. rewrite Hb. reflexivity.
    + destruct (enrich_body L df ipc g cr None) as [t r] eqn:Hb.
      unfold try_finally, close_readers, bind, emit, ret. rewrite Hb. reflexivity.
  - destruct (enrich_body L df ipc g cr None) as [t r] eqn:Hb.
    unfold try_finally, close_readers, bind, emit, ret. rewrite Hb. reflexivity.
Qed.

Lemma queries_are_db_events (t : list event) :
  forallb is_query t = true -> forallb is_db_event t = true.
Proof.
  induction t as [|ev t IH]; [reflexivity|]. simpl.
  intros H. apply andb_true_iff in H as [Hev Ht].
  rewrite (IH Ht). destruct ev; try discriminate. reflexivity.
Qed.

(** A call touches the databases and nothing else. *)
Lemma enrich_dataframe_db_events (df : frame) (ipc cdb : string)
  (adb : option string) (g : string) :
  forallb is_db_event (trace_of (enrich_dataframe L Reader df ipc cdb adb g)) = true.
Proof.
  rewrite enrich_dataframe_run.
  destruct (Reader cdb) as [cr|]; [|reflexivity].
  destruct (asn_path adb) as [p|].
  - destruct (Reader p) as [ar|]; [|reflexivity].
    cbn [trace_of fst forallb is_db_event andb].
    rewrite forallb_app.
    rewrite (queries_are_db_events _ (enrich_body_queries_only L cr (Some ar) df ipc g)).
    reflexivity.
  - cbn [trace_of fst forallb is_db_event andb].
    rewrite forallb_app.
    rewrite (queries_are_db_events _ (enrich_body_queries_only L cr None df ipc g)).
    reflexivity.
Qed.

Lemma open_handles_app (t1 t2 : list event) (held : list db_kind) :
  open_handles (t1 ++ t2) held = open_handles t2 (open_handles t1 held).
Proof.
  revert held. induction t1 as [|ev t1 IH]; intros held; [reflexivity|].
  destruct ev; simpl; apply IH.
Qed.

Lemma open_handles_queries (t : list event) (held : list db_kind) :
  forallb is_query t = true -> open_handles t held = held.
Proof.
  induction t as [|ev t IH]; [reflexivity|]. simpl.
  intros H. apply andb_true_iff in H as [Hev Ht].
  destruct ev; try discriminate. simpl. apply IH, Ht.
Qed.

Lemma count_open_app (k : db_kind) (t1 t2 : list event) :
  count_open k (t1 ++ t2) = count_open k t1 + count_open k t2.
Proof.
  induction t1 as [|ev t1 IH]; [reflexivity|].
  destruct ev; simpl; rewrite IH; lia.
Qed.

Lemma count_open_queries (k : db_kind) (t : list event) :
  forallb is_query t = true -> count_open k t = 0.
Proof.
  induction t as [|ev t IH]; [reflexivity|]. simpl.
  intros H. apply andb_true_iff in H as [Hev Ht].
  destruct ev; try discriminate. simpl. apply IH, Ht.
Qed.

(** Handles of one call: the location database is opened at most once, the
    ownership database at most once and only when configured; when the
    ownership database opens, whatever was opened is closed again at the
    end of the call, whether the [try] block returned or raised. *)
Lemma enrich_dataframe_handles (df : frame) (ipc cdb : string)
  (adb : option string) (g : string) (held : list db_kind) :
  let t := trace_of (enrich_dataframe L Reader df ipc cdb adb g) in
  count_open CityDb t = match Reader cdb with Some _ => 1 | None => 0 end
  /\ count_open AsnDb t <= 1
  /\ (asn_path adb = None -> count_open AsnDb t = 0)
  /\ (asn_opens Reader adb -> open_handles t held = held).
Proof.
  cbv zeta. rewrite enrich_dataframe_run.
  destruct (Reader cdb) as [cr|].
  2:{ cbn. repeat split; auto. }
  destruct (asn_path adb) as [p|] eqn:Hp.
  - destruct (Reader p) as [ar|] eqn:Hr.
    + pose proof (enrich_body_queries_only L cr (Some ar) df ipc g) as Hq.
      cbn [trace_of fst].
      repeat split.
      * cbn [count_open db_kind_eqb]. rewrite count_open_app, (count_open_queries _ _ Hq).
        reflexivity.
      * cbn [count_open db_kind_eqb]. rewrite count_open_app, (count_open_queries _ _ Hq).
        cbn. lia.
      * intros [=].
      * intros _. cbn [open_handles].
        rewrite open_handles_app, (open_handles_queries _ _ Hq). reflexivity.
    + cbn. repeat split; auto.
      intros Ho. exfalso. apply (Ho p Hp), Hr.
  - pose proof (enrich_body_queries_only L cr None df ipc g) as Hq.
    cbn [trace_of fst].
    repeat split.
    + cbn [count_open db_kind_eqb]. rewrite count_open_app, (count_open_queries _ _ Hq).
      reflexivity.
    + cbn [count_open db_kind_eqb]. rewrite count_open_app, (count_open_queries _ _ Hq).
      cbn. lia.
    + intros _. cbn [count_open db_kind_eqb].
      rewrite count_open_app, (count_open_queries _ _ Hq). reflexivity.
    + intros _. cbn [open_handles].
      rewrite open_handles_app, (open_handles_queries _ _ Hq). reflexivity.
Qed.

End EnrichCall.

(** ** The column inserter *)

Section Inserter.

Variable L : ip_library.
Variable Reader : string -> option reader.

Lemma enrich_dataframe_outcome (df : frame) (ipc cdb : string) (adb : option string)
  (g : string) (cr : reader) :
  Reader cdb = Some cr ->
  asn_opens Reader adb ->
  outcome (enrich_dataframe L Reader df ipc cdb adb g)
  = outcome (enrich_body L df ipc g cr (asn_reader_of Reader adb)).
Proof.
  intros Hc Ho. rewrite enrich_dataframe_run, Hc. unfold asn_reader_of.
  destruct (asn_path adb) as [p|] eqn:Hp; [|reflexivity].
  destruct (Reader p) as [ar|] eqn:Hr; [reflexivity|].
  exfalso. apply (Ho p Hp), Hr.
Qed.

(** C8.  On a well-formed frame that has the target column and not yet the
    new one, with databases that open, [enrich_dataframe] returns a frame
    whose columns are those of the input with the new name inserted right
    after the target, at position [i + 1] for a target at any position [i],
    and whose rows are those of the input, in order, each with the computed
    field inserted at that same place: taking position [i + 1] out of the
    output columns or of an output row gives the input back. *)
Theorem C8_column_inserted_after_target (df : frame) (ipc cdb : string)
  (adb : option string) (g : string) (cr : reader) :
  well_formed df ->
  In ipc (columns df) ->
  ~ In g (columns df) ->
  Reader cdb = Some cr ->
  asn_opens Reader adb ->
  exists (i : nat) (out_df : frame),
    nth_error (columns df) i = Some ipc
    /\ outcome (enrich_dataframe L Reader df ipc cdb adb g) = inr out_df
    /\ columns out_df
       = (firstn (i + 1) (columns df) ++ g :: skipn (i + 1) (columns df))%list
    /\ nth_error (columns out_df) (i + 1) = Some g
    /\ (firstn (i + 1) (columns out_df) ++ skipn (S (i + 1)) (columns out_df))%list
       = columns df
    /\ rows out_df
       = map (fun r =>
                (firstn (i + 1) r
                 ++ CStr (field_of L cr (asn_reader_of Reader adb)
                                   (Pd.astype_str (Pd.cell_at i r)))
                 :: skipn (i + 1) r)%list)
             (rows df)
    /\ Forall2 (fun r r' =>
                  (firstn (i + 1) r' ++ skipn (S (i + 1)) r')%list = r
                  /\ List.length r' = S (List.length r))
               (rows df) (rows out_df).
Proof.
  intros Hwf Hin Hnin Hc Ho.
  destruct (index_of_in _ _ Hin) as [i Hi].
  destruct (index_of_some _ _ _ Hi) as [Hlt Hnth].
  exists i, {| columns := Pd.insert_at (i + 1) g (columns df);
               rows := map (enrich_row L cr (asn_reader_of Reader adb) i) (rows df) |}.
  assert (Hle : i + 1 <= List.length (columns df)) by lia.
  destruct (insert_at_remove (i + 1) g (columns df) Hle) as [Hrem Hg].
  split; [exact Hnth|].
  split.
  { rewrite (enrich_dataframe_outcome df ipc cdb adb g cr Hc Ho).
    apply enrich_body_ok; assumption. }
  split; [reflexivity|].
  split; [exact Hg|].
  split; [exact Hrem|].
  split; [reflexivity|].
  cbn [rows]. destruct Hwf as [_ Hrows].
  induction (rows df) as [|r rs IH]; [constructor|].
  inversion Hrows as [|? ? Hr Hrs]; subst.
  cbn [map]. constructor; [|apply IH, Hrs].
  unfold enrich_row. split.
  - apply insert_at_remove. lia.
  - apply insert_at_length.
Qed.

End Inserter.

Lemma C8_column_inserted_after_target_witness :
  well_formed Sample.table_abc
  /\ In "ip" (columns Sample.table_abc)
  /\ ~ In "geoip" (columns Sample.table_abc)
  /\ Sample.open_reader "city.mmdb" = Some Sample.city_reader
  /\ asn_opens Sample.open_reader None
  /\ exists (i : nat) (out_df : frame),
       nth_error (columns Sample.table_abc) i = Some "ip"
       /\ outcome (enrich_dataframe Sample.ipv4_library Sample.open_reader
                     Sample.table_abc "ip" "city.mmdb" None "geoip") = inr out_df
       /\ columns out_df
          = (firstn (i + 1) (columns Sample.table_abc)
             ++ "geoip" :: skipn (i + 1) (columns Sample.table_abc))%list
       /\ nth_error (columns out_df) (i + 1) = Some "geoip"
       /\ (firstn (i + 1) (columns out_df) ++ skipn (S (i + 1)) (columns out_df))%list
          = columns Sample.table_abc
       /\ rows out_df
          = map (fun r =>
                   (firstn (i + 1) r
                    ++ CStr (field_of Sample.ipv4_library Sample.city_reader
                               (asn_reader_of Sample.open_reader None)
                               (Pd.astype_str (Pd.cell_at i r)))
                    :: skipn (i + 1) r)%list)
                (rows Sample.table_abc)
       /\ Forall2 (fun r r' =>
                     (firstn (i + 1) r' ++ skipn (S (i + 1)) r')%list = r
                     /\ List.length r' = S (List.length r))
                  (rows Sample.table_abc) (rows out_df).
Proof.
  assert (Hwf : well_formed Sample.table_abc).
  { split.
    - repeat constructor; simpl; intuition discriminate.
    - repeat constructor. }
  assert (Hin : In "ip" (columns Sample.table_abc)) by (simpl; auto).
  assert (Hnin : ~ In "geoip" (columns Sample.table_abc))
    by (simpl; intuition discriminate).
  assert (Ho : asn_opens Sample.open_reader None) by (intros p [=]).
  split; [exact Hwf|]. split; [exact Hin|]. split; [exact Hnin|].
  split; [reflexivity|]. split; [exact Ho|].
  exact (C8_column_inserted_after_target Sample.ipv4_library Sample.open_reader
           Sample.table_abc "ip" "city.mmdb" None "geoip" Sample.city_reader
           Hwf Hin Hnin eq_refl Ho).
Defined.

(** The positional example: after [ip] in [a, ip, b, c], and the same for an
    IP column in first and in last position. *)
Example insert_positions :
  outcome (enrich_dataframe Sample.ipv4_library Sample.open_reader
             Sample.table_abc "ip" "city.mmdb" None "geoip")
  = inr {| columns := ["a"; "ip"; "geoip"; "b"; "c"];
           rows := [ [CStr "1"; CStr "8.8.8.8"; CStr "US|||37.751000|-97.822000||";
                      CStr "2"; CStr "3"];
                     [CStr "4"; CStr "10.0.0.1"; CStr ""; CStr "5"; CStr "6"] ] |}
  /\ outcome (enrich_dataframe Sample.ipv4_library Sample.open_reader
                {| columns := ["ip"; "b"]; rows := [[CStr "10.0.0.1"; CStr "x"]] |}
                "ip" "city.mmdb" None "geoip")
     = inr {| columns := ["ip"; "geoip"; "b"];
              rows := [[CStr "10.0.0.1"; CStr ""; CStr "x"]] |}
  /\ outcome (enrich_dataframe Sample.ipv4_library Sample.open_reader
                {| columns := ["a"; "ip"]; rows := [[CStr "x"; CStr "10.0.0.1"]] |}
                "ip" "city.mmdb" None "geoip")
     = inr {| columns := ["a"; "ip"; "geoip"];
              rows := [[CStr "x"; CStr "10.0.0.1"; CStr ""]] |}.
Proof. vm_compute. repeat split; reflexivity. Qed.

(** ** Files and aborted runs *)

Lemma file_after_app (t1 t2 : list event) (p : string) (cur : option (list csv_line)) :
  file_after (t1 ++ t2) p cur = file_after t2 p (file_after t1 p cur).
Proof.
  revert cur. induction t1 as [|ev t1 IH]; intros cur; [reflexivity|].
  destruct ev; simpl; try apply IH.
  destruct (String.eqb path p); apply IH.
Qed.

Lemma file_after_db_events (t : list event) (p : string) (cur : option (list csv_line)) :
  forallb is_db_event t = true -> file_after t p cur = cur.
Proof.
  induction t as [|ev t IH]; [reflexivity|]. simpl.
  intros H. apply andb_true_iff in H as [Hev Ht].
  destruct ev; try discriminate; simpl; apply IH, Ht.
Qed.

Lemma aborts_raise {A : Type} (e : exn) : aborts (@raise A e).
Proof. split; [exists e|]; reflexivity. Qed.

Lemma aborts_bind {A B : Type} (m : M A) (k : A -> M B) :
  forallb is_db_event (trace_of m) = true ->
  (forall a, outcome m = inr a -> aborts (k a)) ->
  aborts (bind m k).
Proof.
  destruct m as [t [e|a]]; cbn [trace_of outcome fst snd]; intros Ht Hk.
  - split; [exists e; reflexivity | exact Ht].
  - destruct (Hk a eq_refl) as [[e He] Hdb].
    unfold bind. destruct (k a) as [t' r].
    unfold aborts. cbn [trace_of outcome fst snd] in *.
    split; [exists e; exact He|]. rewrite forallb_app, Ht, Hdb. reflexivity.
Qed.

Lemma aborts_bind_l {A B : Type} (m : M A) (k : A -> M B) :
  aborts m -> aborts (bind m k).
Proof.
  intros [[e He] Hdb]. apply aborts_bind; [exact Hdb|].
  intros a Ha. rewrite Ha in He. discriminate.
Qed.

Lemma aborts_no_file {A : Type} (m : M A) (p : string) :
  aborts m -> file_content (trace_of m) p = None.
Proof. intros [_ Hdb]. apply file_after_db_events, Hdb. Qed.

(** ** Batches *)


Lemma chunks_columns (k : nat) (df : frame) :
  Forall (fun c => columns c = columns df) (Pd.chunks k df).
Proof.
  unfold Pd.chunks. destruct (rows df) as [|r rs].
  - constructor; [reflexivity | constructor].
  - apply Forall_forall. intros c Hc. apply in_map_iff in Hc as [x [<- _]]. reflexivity.
Qed.

Lemma chunks_nonempty (k : nat) (df : frame) : Pd.chunks k df <> [].
Proof.
  unfold Pd.chunks. destruct (rows df) as [|r rs]; [discriminate|].
  cbn [List.length Pd.chunk_rows map]. discriminate.
Qed.


Lemma read_csv_chunked_items (fs : Pd.file_system) (path : string) (k : nat)
  (kw : Pd.read_kwargs) (input : Pd.csv_input) :
  fs path kw = Some input ->
  exists items,
    Pd.read_csv_chunked fs path k kw = ret items
    /\ items <> []
    /\ Forall (item_has_columns (columns (Pd.in_frame input))) items.
Proof.
  intros Hfs. unfold Pd.read_csv_chunked. rewrite Hfs.
  assert (Hall : Forall (item_has_columns (columns (Pd.in_frame input)))
                        (map inr (Pd.chunks k (Pd.in_frame input)))).
  { apply Forall_forall. intros it Hit. apply in_map_iff in Hit as [c [<- Hc]].
    pose proof (chunks_columns k (Pd.in_frame input)) as Hcols.
    rewrite Forall_forall in Hcols. apply Hcols, Hc. }
  assert (Hne : map (@inr exn frame) (Pd.chunks k (Pd.in_frame input)) <> []).
  { pose proof (chunks_nonempty k (Pd.in_frame input)).
    destruct (Pd.chunks k (Pd.in_frame input)); [congruence | discriminate]. }
  destruct (Pd.in_fail_at input) as [n|].
  - destruct (n <? List.length (rows (Pd.in_frame input)))%nat.
    + eexists. split; [reflexivity|]. split.
      * intros H. apply app_eq_nil in H as [_ H]. discriminate.
      * apply Forall_app. split; [|repeat constructor].
        apply Forall_forall. intros it Hit. apply in_map_iff in Hit as [c [<- Hc]].
        assert (Hc' : In c (Pd.chunks k (Pd.in_frame input))).
        { rewrite <- (firstn_skipn (n / k) (Pd.chunks k (Pd.in_frame input))).
          apply in_or_app. left. exact Hc. }
        pose proof (chunks_columns k (Pd.in_frame input)) as Hcols.
        rewrite Forall_forall in Hcols. apply Hcols, Hc'.
    + eexists. split; [reflexivity|]. split; assumption.
  - eexists. split; [reflexivity|]. split; assumption.
Qed.

(** ** A new column name that is already taken *)

Section Collision.

Variable L : ip_library.
Variable Reader : string -> option reader.
Variable fs : Pd.file_system.

Lemma enrich_dataframe_collision_aborts (df : frame) (ipc cdb : string)
  (adb : option string) (g : string) :
  In g (columns df) -> aborts (enrich_dataframe L Reader df ipc cdb adb g).
Proof.
  intros Hin. split; [|apply enrich_dataframe_db_events].
  assert (Hbody : forall cr ar, exists e, outcome (enrich_body L df ipc g cr ar) = inl e).
  { intros cr ar. rewrite enrich_body_run.
    destruct (Pd.index_of ipc (columns df)); [|eexists; reflexivity].
    cbn [outcome snd]. rewrite (proj2 (existsb_eqb_in g (columns df)) Hin).
    eexists; reflexivity. }
  rewrite enrich_dataframe_run.
  destruct (Reader cdb) as [cr|]; [|eexists; reflexivity].
  destruct (asn_path adb) as [p|].
  - destruct (Reader p) as [ar|]; [|eexists; reflexivity]. apply Hbody.
  - apply Hbody.
Qed.

Lemma read_csv_silent (path : string) (kw : Pd.read_kwargs) (input : Pd.csv_input) :
  fs path kw = Some input ->
  trace_of (Pd.read_csv fs path kw) = []
  /\ forall df, outcome (Pd.read_csv fs path kw) = inr df -> df = Pd.in_frame input.
Proof.
  intros Hfs. unfold Pd.read_csv. rewrite Hfs.
  destruct (Pd.in_fail_at input) as [n|].
  - destruct (n <? List.length (rows (Pd.in_frame input)))%nat; split;
      try reflexivity; cbn; intros df [=]; auto.
  - split; [reflexivity|]. cbn. intros df [=]. auto.
Qed.

Lemma chunk_loop_collision (a : args) (out_path : string) (items : list (exn + frame))
  (first : bool) (detected : option string) (cols : list string) :
  items <> [] ->
  Forall (item_has_columns cols) items ->
  In (geoip_col a) cols ->
  aborts (chunk_loop L Reader a out_path items first detected).
Proof.
  intros Hne Hall Hin. destruct items as [|[e|chunk] rest]; [congruence| |].
  - apply aborts_raise.
  - inversion Hall as [|? ? Hcols _]; subst. cbn in Hcols.
    cbn [chunk_loop]. apply aborts_bind.
    + unfold resolve_ip_col. destruct (truthy_opt (ip_col a)); [reflexivity|].
      destruct (negb _); reflexivity.
    + intros resolved _. apply aborts_bind_l.
      apply enrich_dataframe_collision_aborts. rewrite Hcols. exact Hin.
Qed.

(** C4.  When the input table already has a column with the configured new
    name, the run ends with an exception and no file is written, in
    whole-table mode and in chunked mode; no frame with the column
    overwritten, renamed or doubled is ever produced.  With databases that
    open and an IP column that is present, the exception is the
    [ValueError] of [insert], raised once the fields are computed. *)
Theorem C4_collision_aborts (a : args) (input : Pd.csv_input) :
  fs (inp a) (read_kwargs_of a) = Some input ->
  In (geoip_col a) (columns (Pd.in_frame input)) ->
  (exists e, outcome (process_all L Reader fs a) = inl e)
  /\ (forall p, file_content (trace_of (process_all L Reader fs a)) p = None)
  /\ (forall df ipc,
        columns df = columns (Pd.in_frame input) ->
        exists e, outcome (enrich_dataframe L Reader df ipc (city_db a) (asn_db a)
                                            (geoip_col a)) = inl e)
  /\ (forall df ipc cr,
        columns df = columns (Pd.in_frame input) ->
        In ipc (columns df) ->
        Reader (city_db a) = Some cr ->
        asn_opens Reader (asn_db a) ->
        outcome (enrich_dataframe L Reader df ipc (city_db a) (asn_db a) (geoip_col a))
        = inl (ValueError ("cannot insert " ++ geoip_col a ++ ", already exists"))).
Proof.
  intros Hfs Hin.
  assert (Hab : aborts (process_all L Reader fs a)).
  { unfold process_all. apply aborts_bind_l.
    destruct (0 <? chunksize a)%Z.
    - destruct (read_csv_chunked_items fs (inp a) (Z.to_nat (chunksize a))
                  (read_kwargs_of a) input Hfs) as [items [Hread [Hne Hall]]].
      rewrite Hread, bind_ret_l.
      apply (chunk_loop_collision a _ items true None _ Hne Hall Hin).
    - destruct (read_csv_silent _ _ _ Hfs) as [Ht Hdf].
      apply aborts_bind; [rewrite Ht; reflexivity|].
      intros df Hout. rewrite (Hdf df Hout).
      destruct (negb _); [apply aborts_raise|].
      apply aborts_bind_l, enrich_dataframe_collision_aborts, Hin. }
  split; [exact (proj1 Hab)|].
  split; [intros p; apply aborts_no_file, Hab|].
  split.
  - intros df ipc Hcols.
    apply (enrich_dataframe_collision_aborts df ipc). rewrite Hcols. exact Hin.
  - intros df ipc cr Hcols Hipc Hc Ho.
    rewrite (enrich_dataframe_outcome L Reader df ipc _ _ _ cr Hc Ho), enrich_body_run.
    destruct (index_of_in _ _ Hipc) as [i Hi]. rewrite Hi. cbn [outcome snd].
    rewrite (proj2 (existsb_eqb_in (geoip_col a) (columns df))); [reflexivity|].
    rewrite Hcols. exact Hin.
Qed.

End Collision.

Lemma C4_collision_aborts_witness :
  Sample.files "collide.csv" (read_kwargs_of (Sample.default_args "collide.csv"))
  = Some {| Pd.in_frame := Sample.table_collide; Pd.in_fail_at := None |}
  /\ In "geoip" (columns Sample.table_collide)
  /\ (exists e, outcome (Sample.run (Sample.default_args "collide.csv")) = inl e)
  /\ (forall p, file_content (trace_of (Sample.run (Sample.default_args "collide.csv"))) p
                = None).
Proof.
  assert (Hin : In "geoip" (columns Sample.table_collide)) by (simpl; auto).
  split; [reflexivity|]. split; [exact Hin|].
  pose proof (C4_collision_aborts Sample.ipv4_library Sample.open_reader Sample.files
                (Sample.default_args "collide.csv")
                {| Pd.in_frame := Sample.table_collide; Pd.in_fail_at := None |}
                eq_refl Hin) as [H1 [H2 _]].
  split; [exact H1 | exact H2].
Defined.

Example collision_run :
  Sample.run (Sample.default_args "collide.csv")
  = ([EvOpen CityDb "city.mmdb"; EvQuery CityDb "8.8.8.8"; EvClose CityDb],
     inl (ValueError "cannot insert geoip, already exists"))
  /\ Sample.run (with_chunksize (Sample.default_args "collide.csv") 1)
     = ([EvOpen CityDb "city.mmdb"; EvQuery CityDb "8.8.8.8"; EvClose CityDb],
        inl (ValueError "cannot insert geoip, already exists")).
Proof. vm_compute. split; reflexivity. Qed.

(** ** Auto-detection of the IP column *)

Section Autodetect.

Variable L : ip_library.
Variable Reader : string -> option reader.
Variable fs : Pd.file_system.

Lemma scan_names_find (cols : list string) :
  scan_names cols = find is_common_name cols.
Proof.
  induction cols as [|c cols IH]; [reflexivity|].
  cbn [scan_names find]. unfold is_common_name at 1.
  destruct (existsb (String.eqb (lower c)) common); [reflexivity | exact IH].
Qed.

(** The counting loop: [tot] grows by the number of values, [hits] by the
    number of those that parse. *)
Lemma count_hits_spec (vals : list string) (hits tot : nat) :
  count_hits L vals hits tot
  = (hits + List.length (filter (parses L) vals), tot + List.length vals).
Proof.
  revert hits tot. induction vals as [|v vals IH]; intros hits tot.
  - simpl. f_equal; lia.
  - cbn [count_hits filter]. unfold parses at 1.
    destruct (ip_address L (strip v)); rewrite IH; cbn [List.length]; f_equal; lia.
Qed.

Lemma looks_like_ips_spec (vals : list string) :
  looks_like_ips L vals
  = (negb (List.length vals =? 0)
     && (List.length vals <=? 2 * List.length (filter (parses L) vals)))%nat.
Proof. unfold looks_like_ips. rewrite count_hits_spec. reflexivity. Qed.

Lemma scan_values_find (df : frame) (cols : list string) :
  scan_values L (Pd.head 1000 df) cols = find (column_qualifies L df) cols.
Proof.
  induction cols as [|c cols IH]; [reflexivity|].
  cbn [scan_values find]. unfold column_qualifies at 1.
  destruct (sample_values (Pd.head 1000 df) c) as [|v vals] eqn:Hv; [exact IH|].
  rewrite looks_like_ips_spec. cbn [List.length Nat.eqb negb andb].
  destruct (_ <=? _)%nat; [reflexivity | exact IH].
Qed.

(** What [find] finds: the first element, in order, that passes the test. *)
Lemma find_first {A : Type} (p : A -> bool) (l : list A) :
  match find p l with
  | Some c => exists pre post, l = (pre ++ c :: post)%list /\ p c = true
                               /\ forall x, In x pre -> p x = false
  | None => forall x, In x l -> p x = false
  end.
Proof.
  induction l as [|a l IH]; simpl; [intros x []|].
  destruct (p a) eqn:Ha.
  - exists [], l. repeat split; auto. intros x [].
  - destruct (find p l) as [c|].
    + destruct IH as [pre [post [-> [Hc Hpre]]]].
      exists (a :: pre), post. repeat split; auto.
      intros x [<-|Hx]; auto.
    + intros x [<-|Hx]; auto.
Qed.

Lemma chunks_head (k : nat) (df : frame) :
  exists rest, Pd.chunks k df = Pd.head k df :: rest.
Proof.
  destruct df as [cols rs]. unfold Pd.chunks, Pd.head. cbn [rows columns].
  destruct rs as [|r rs'].
  - exists []. rewrite firstn_nil. reflexivity.
  - cbn [List.length Pd.chunk_rows map]. eexists. reflexivity.
Qed.

Lemma find_agree {A : Type} (p q : A -> bool) (l : list A) :
  (forall x, p x = q x) -> find p l = find q l.
Proof.
  intros H. induction l as [|a l IH]; [reflexivity|].
  cbn [find]. rewrite H, IH. reflexivity.
Qed.

Lemma filter_agree {A : Type} (p q : A -> bool) (l : list A) :
  (forall x, p x = q x) -> filter p l = filter q l.
Proof.
  intros H. induction l as [|a l IH]; [reflexivity|].
  cbn [filter]. rewrite H, IH. reflexivity.
Qed.

Lemma find_position (c : string) (cols : list string) (k : nat) :
  option_map fst
    (find (fun p => String.eqb (snd p) c) (combine (seq k (List.length cols)) cols))
  = option_map (fun i => k + i) (Pd.index_of c cols).
Proof.
  revert k. induction cols as [|y cols IH]; intros k; [reflexivity|].
  cbn [List.length seq combine find snd Pd.index_of].
  destruct (String.eqb y c).
  - cbn [option_map fst]. f_equal. lia.
  - rewrite (IH (S k)). destruct (Pd.index_of c cols) as [i|]; cbn [option_map];
      [f_equal; lia | reflexivity].
Qed.

Lemma position_of_index_of (c : string) (cols : list string) :
  position_of c cols = Pd.index_of c cols.
Proof.
  unfold position_of. rewrite find_position.
  destruct (Pd.index_of c cols); reflexivity.
Qed.

(** The values the specification inspects are the values the script
    samples. *)
Lemma inspected_values_sample (df : frame) (c : string) :
  inspected_values df c = sample_values (Pd.head 1000 df) c.
Proof.
  unfold inspected_values, sample_values, Pd.head. cbn [columns rows].
  rewrite position_of_index_of.
  destruct (Pd.index_of c (columns df)); reflexivity.
Qed.

Lemma value_parses_spec (v : string) : value_parses L v = parses L v.
Proof. unfold value_parses, parses. rewrite trimmed_spec_strip. reflexivity. Qed.

Lemma half_parse_spec (df : frame) (c : string) :
  half_parse L df c = column_qualifies L df c.
Proof.
  unfold half_parse, column_qualifies. rewrite inspected_values_sample.
  rewrite (filter_agree _ _ _ value_parses_spec).
  destruct (sample_values (Pd.head 1000 df) c); reflexivity.
Qed.

Lemma detect_spec_autodetect (df : frame) : autodetect_ip_col L df = detect_spec L df.
Proof.
  unfold autodetect_ip_col, detect_spec.
  rewrite scan_names_find, (find_agree _ _ _ named_commonly_spec).
  destruct (find is_common_name (columns df)); [reflexivity|].
  cbn [Pd.head columns]. rewrite (find_agree _ _ _ (half_parse_spec df)).
  apply scan_values_find.
Qed.

(** C6.  [autodetect_ip_col] returns the first column, in schema order,
    whose name is, case ignored, in the fixed list, whatever the rows hold;
    only without such a column it returns the first column, in schema
    order, of whose first 200 non-null values within the first 1000 rows at
    least one exists and at least half parse as addresses, surrounding
    whitespace removed; otherwise it returns nothing.  The schema
    [user, client_ip, ts] resolves to [client_ip] for any rows.  When
    nothing is detected and no column is configured, the run stops with the
    auto-detection failure before anything else happens, in whole-table
    mode and in chunked mode alike. *)
Theorem C6_autodetect (df : frame) :
  autodetect_ip_col L df = detect_spec L df
  /\ (forall c, find named_commonly (columns df) = Some c ->
        forall rows', autodetect_ip_col L {| columns := columns df; rows := rows' |}
                      = Some c)
  /\ (find named_commonly (columns df) = None ->
      autodetect_ip_col L df = find (half_parse L df) (columns df))
  /\ (forall rows', autodetect_ip_col L {| columns := ["user"; "client_ip"; "ts"];
                                           rows := rows' |} = Some "client_ip")
  /\ (forall a,
        fs (inp a) (read_kwargs_of a)
        = Some {| Pd.in_frame := df; Pd.in_fail_at := None |} ->
        truthy_opt (ip_col a) = false ->
        (chunksize a <= 0)%Z ->
        detect_spec L df = None ->
        process_all L Reader fs a = ([], inl autodetect_failed))
  /\ (forall a,
        fs (inp a) (read_kwargs_of a)
        = Some {| Pd.in_frame := df; Pd.in_fail_at := None |} ->
        truthy_opt (ip_col a) = false ->
        (0 < chunksize a)%Z ->
        detect_spec L (Pd.head (Z.to_nat (chunksize a)) df) = None ->
        process_all L Reader fs a = ([], inl autodetect_failed)).
Proof.
  split; [apply detect_spec_autodetect|].
  split.
  { intros c Hc rows'. rewrite detect_spec_autodetect. unfold detect_spec.
    cbn [columns]. rewrite Hc. reflexivity. }
  split.
  { intros Hnone. rewrite detect_spec_autodetect. unfold detect_spec.
    rewrite Hnone. reflexivity. }
  split; [reflexivity|].
  split.
  - intros a Hfs Hcol Hk Hnone. rewrite <- detect_spec_autodetect in Hnone.
    unfold process_all.
    destruct (Z.ltb_spec 0 (chunksize a)); [lia|].
    unfold Pd.read_csv. rewrite Hfs. cbn [Pd.in_fail_at Pd.in_frame].
    rewrite bind_ret_l, Hcol, Hnone. reflexivity.
  - intros a Hfs Hcol Hk Hnone. rewrite <- detect_spec_autodetect in Hnone.
    unfold process_all.
    destruct (Z.ltb_spec 0 (chunksize a)); [|lia].
    unfold Pd.read_csv_chunked. rewrite Hfs. cbn [Pd.in_fail_at Pd.in_frame].
    destruct (chunks_head (Z.to_nat (chunksize a)) df) as [rest Hrest].
    rewrite Hrest, bind_ret_l. cbn [map chunk_loop]. unfold resolve_ip_col.
    rewrite Hcol. cbn [truthy_opt]. rewrite Hnone. reflexivity.
Qed.

End Autodetect.

(** The theorem on three tables: a name in capitals and small letters is
    found before the later column [ip], without a look at the rows; without
    a common name the column [v] is found from its first 200 non-null
    values, although most of its 1200 rows hold no address, and not the
    column [w], whose addresses come after row 1000; a table without
    addresses stops the run. *)
Lemma C6_autodetect_witness :
  autodetect_ip_col Sample.ipv4_library table_named = Some "Client_IP"
  /\ find named_commonly (columns table_sampled) = None
  /\ autodetect_ip_col Sample.ipv4_library table_sampled = Some "v"
  /\ List.length (inspected_values table_sampled "v") = 200
  /\ inspected_values table_sampled "w" = []
  /\ Sample.files "noip.csv" (read_kwargs_of (Sample.default_args "noip.csv"))
     = Some {| Pd.in_frame := Sample.table_no_ip; Pd.in_fail_at := None |}
  /\ truthy_opt (ip_col (Sample.default_args "noip.csv")) = false
  /\ (chunksize (Sample.default_args "noip.csv") <= 0)%Z
  /\ detect_spec Sample.ipv4_library Sample.table_no_ip = None
  /\ Sample.run (Sample.default_args "noip.csv") = ([], inl autodetect_failed).
Proof.
  pose proof (C6_autodetect Sample.ipv4_library Sample.open_reader Sample.files
                table_named) as [_ [Hnamed _]].
  pose proof (C6_autodetect Sample.ipv4_library Sample.open_reader Sample.files
                table_sampled) as [_ [_ [Hvalues _]]].
  pose proof (C6_autodetect Sample.ipv4_library Sample.open_reader Sample.files
                Sample.table_no_ip) as [_ [_ [_ [_ [Hwhole _]]]]].
  split; [apply (Hnamed "Client_IP" eq_refl)|].
  split; [reflexivity|].
  split; [rewrite (Hvalues eq_refl); vm_compute; reflexivity|].
  split; [vm_compute; reflexivity|]. split; [vm_compute; reflexivity|].
  split; [reflexivity|]. split; [reflexivity|]. split; [discriminate|].
  split; [reflexivity|].
  apply Hwhole; [reflexivity | reflexivity | discriminate | reflexivity].
Defined.

Example autodetect_samples :
  autodetect_ip_col Sample.ipv4_library Sample.table_schema = Some "client_ip"
  /\ autodetect_ip_col Sample.ipv4_library
       {| columns := ["User"; "SRC_IP"; "ip"]; rows := [] |} = Some "SRC_IP"
  /\ autodetect_ip_col Sample.ipv4_library Sample.table_mixed = Some "b"
  /\ autodetect_ip_col Sample.ipv4_library (Pd.head 1 Sample.table_mixed) = Some "a"
  /\ autodetect_ip_col Sample.ipv4_library
       {| columns := ["x"; "y"];
          rows := [[CNull; CStr "8.8.8.8"]; [CNull; CStr "no"]; [CNull; CNum "7"]] |}
     = None
  /\ autodetect_ip_col Sample.ipv4_library
       {| columns := ["x"; "y"];
          rows := [[CNull; CStr "8.8.8.8"]; [CNull; CStr "no"]] |}
     = Some "y".
Proof. vm_compute. repeat split; reflexivity. Qed.

(** ** Whole-table mode and chunked mode *)

Lemma trace_bind {A B : Type} (m : M A) (k : A -> M B) :
  trace_of (bind m k)
  = (trace_of m ++ match outcome m with inr a => trace_of (k a) | inl _ => [] end)%list.
Proof.
  destruct m as [t [e|a]]; cbn [bind trace_of outcome fst snd].
  - rewrite app_nil_r. reflexivity.
  - destruct (k a). reflexivity.
Qed.

Lemma outcome_bind {A B : Type} (m : M A) (k : A -> M B) :
  outcome (bind m k) = match outcome m with inr a => outcome (k a) | inl e => inl e end.
Proof.
  destruct m as [t [e|a]]; cbn [bind trace_of outcome fst snd]; [reflexivity|].
  destruct (k a). reflexivity.
Qed.

Section Modes.

Variable L : ip_library.
Variable Reader : string -> option reader.
Variable fs : Pd.file_system.

(** Whether a call succeeds, the columns it returns and what it does to a
    row depend on the columns of its frame only, not on the rows. *)
Lemma enrich_body_rowwise (cols : list string) (ipc g : string) (cr : reader)
  (ar : option reader) :
  exists res : exn + (list string * (list cell -> list cell)),
    forall rs,
      outcome (enrich_body L {| columns := cols; rows := rs |} ipc g cr ar)
      = match res with
        | inl e => inl e
        | inr (nc, f) => inr {| columns := nc; rows := map f rs |}
        end.
Proof.
  destruct (Pd.index_of ipc cols) as [i|] eqn:Hi.
  2:{ exists (inl (KeyError ipc)). intros rs. rewrite enrich_body_run. cbn [columns].
      rewrite Hi. reflexivity. }
  destruct (existsb (String.eqb g) cols) eqn:Hex.
  { eexists (inl _). intros rs. rewrite enrich_body_run. cbn [columns].
    rewrite Hi. cbn [outcome snd]. rewrite Hex. reflexivity. }
  destruct (List.length cols <? i + 1)%nat eqn:Hlt.
  { eexists (inl _). intros rs. rewrite enrich_body_run. cbn [columns].
    rewrite Hi. cbn [outcome snd]. rewrite Hex, Hlt. reflexivity. }
  destruct (Pd.indices_of (Pd.insert_at (i + 1) g cols) (Pd.insert_at (i + 1) g cols))
    as [e|idxs] eqn:Hidx.
  { exists (inl e). intros rs. rewrite enrich_body_run. cbn [columns].
    rewrite Hi. cbn [outcome snd]. rewrite Hex, Hlt, Hidx. reflexivity. }
  exists (inr (Pd.insert_at (i + 1) g cols,
               fun r => map (fun j => Pd.cell_at j (enrich_row L cr ar i r)) idxs)).
  intros rs. rewrite enrich_body_run. cbn [columns rows].
  rewrite Hi. cbn [outcome snd]. rewrite Hex, Hlt, Hidx. reflexivity.
Qed.

Lemma enrich_dataframe_rowwise (cols : list string) (ipc cdb : string)
  (adb : option string) (g : string) :
  exists res : exn + (list string * (list cell -> list cell)),
    forall rs,
      outcome (enrich_dataframe L Reader {| columns := cols; rows := rs |} ipc cdb adb g)
      = match res with
        | inl e => inl e
        | inr (nc, f) => inr {| columns := nc; rows := map f rs |}
        end.
Proof.
  destruct (Reader cdb) as [cr|] eqn:Hc.
  2:{ eexists (inl _). intros rs. rewrite enrich_dataframe_run, Hc. reflexivity. }
  destruct (asn_path adb) as [p|] eqn:Hp.
  - destruct (Reader p) as [ar|] eqn:Hr.
    + destruct (enrich_body_rowwise cols ipc g cr (Some ar)) as [res Hres].
      exists res. intros rs. rewrite enrich_dataframe_run, Hc, Hp, Hr. apply Hres.
    + eexists (inl _). intros rs. rewrite enrich_dataframe_run, Hc, Hp, Hr. reflexivity.
  - destruct (enrich_body_rowwise cols ipc g cr None) as [res Hres].
    exists res. intros rs. rewrite enrich_dataframe_run, Hc, Hp. apply Hres.
Qed.

Lemma resolve_step (a : args) (chunk : frame) (det : option string) (c : string) :
  resolves a det c ->
  exists det', resolve_ip_col L a chunk det = ret (c, det') /\ resolves a det' c.
Proof.
  unfold resolve_ip_col.
  intros [[Ht Hc]|[Hf [Hd Htc]]].
  - exists det. rewrite Ht, Hc. split; [reflexivity | left; auto].
  - exists (Some c). rewrite Hf. subst det. cbn [truthy_opt]. rewrite Htc.
    cbv iota zeta. cbn [truthy_opt]. rewrite Htc.
    split; [reflexivity | right; auto].
Qed.



Lemma print_after (m : M unit) (msg : string) :
  outcome (bind m (fun _ => emit (EvPrint msg))) = outcome m
  /\ forall p cur,
       file_after (trace_of (bind m (fun _ => emit (EvPrint msg)))) p cur
       = file_after (trace_of m) p cur.
Proof.
  split.
  - rewrite outcome_bind. destruct (outcome m) as [e|[]]; reflexivity.
  - intros p cur. rewrite trace_bind, file_after_app.
    destruct (outcome m); reflexivity.
Qed.



End Modes.

Section ModesAgree.

Variable L : ip_library.
Variable Reader : string -> option reader.
Variable fs : Pd.file_system.


(** Detection reads the first 1000 rows only: a first batch that holds them,
    or the whole table, is as good as the table. *)
Lemma autodetect_head (k : nat) (df : frame) :
  List.length (rows df) <= k \/ 1000 <= k ->
  autodetect_ip_col L (Pd.head k df) = autodetect_ip_col L df.
Proof.
  intros Hk. unfold autodetect_ip_col, Pd.head. cbn [columns rows].
  destruct (scan_names (columns df)); [reflexivity|].
  f_equal. f_equal.
  destruct Hk as [Hk|Hk].
  - rewrite (firstn_all2 (n := k)); [reflexivity | exact Hk].
  - rewrite firstn_firstn. f_equal. lia.
Qed.


End ModesAgree.



(** Chunk sizes 1, 7, the row count and more, on the four example rows. *)
Example chunk_sizes_agree :
  forall k, In k [1; 2; 3; 4; 7; 100]%Z ->
    file_content (trace_of (Sample.run (with_chunksize (Sample.default_args "ips.csv") k)))
                 "ips.geoip.csv"
    = file_content (trace_of (Sample.run (Sample.default_args "ips.csv"))) "ips.geoip.csv".
Proof.
  intros k Hk. simpl in Hk.
  repeat (destruct Hk as [<-|Hk]; [vm_compute; reflexivity|]). contradiction.
Qed.

(** ** Database handles *)

Section Handles.

Variable L : ip_library.
Variable Reader : string -> option reader.
Variable fs : Pd.file_system.

Lemma resolve_ip_col_trace (a : args) (chunk : frame) (det : option string) :
  trace_of (resolve_ip_col L a chunk det) = [].
Proof.
  unfold resolve_ip_col. destruct (truthy_opt (ip_col a)); [reflexivity|].
  destruct (negb _); reflexivity.
Qed.


Lemma chunk_loop_count (a : args) (out_path : string) (kd : db_kind) :
  forall (items : list (exn + frame)) (first : bool) (det : option string),
    count_open kd (trace_of (chunk_loop L Reader a out_path items first det))
    <= List.length items.
Proof.
  induction items as [|[e|chunk] rest IH]; intros first det; cbn [List.length].
  - cbn. lia.
  - cbn. lia.
  - cbn [chunk_loop]. rewrite trace_bind, resolve_ip_col_trace. cbn [app].
    destruct (outcome (resolve_ip_col L a chunk det)) as [e|resolved]; [cbn; lia|].
    rewrite trace_bind, count_open_app.
    destruct (enrich_dataframe_handles L Reader chunk (fst resolved) (city_db a)
                (asn_db a) (geoip_col a) []) as [Hc [Ha _]].
    assert (Hone : count_open kd
                     (trace_of (enrich_dataframe L Reader chunk (fst resolved) (city_db a)
                                                 (asn_db a) (geoip_col a))) <= 1).
    { destruct kd; [|exact Ha]. rewrite Hc. destruct (Reader (city_db a)); lia. }
    destruct (outcome (enrich_dataframe L Reader chunk (fst resolved) (city_db a)
                                        (asn_db a) (geoip_col a))) as [e|o].
    + cbn [count_open]. lia.
    + rewrite trace_bind.
      cbn [Pd.to_csv emit trace_of outcome fst snd app count_open].
      specialize (IH false (snd resolved)). lia.
Qed.




End Handles.



(** The ownership database is opened before the [try] block: when it cannot
    be opened, the location database stays open. *)
Example asn_open_failure_leaves_city_open :
  Sample.run (with_asn_db (Sample.default_args "ips.csv") "missing.mmdb")
  = ([EvOpen CityDb "city.mmdb"], inl (DatabaseError "missing.mmdb"))
  /\ open_handles
       (trace_of (Sample.run (with_asn_db (Sample.default_args "ips.csv") "missing.mmdb")))
       [] = [CityDb].
Proof. vm_compute. split; reflexivity. Qed.

(** A read that breaks off in the second batch: the first batch is written,
    the run raises, no handle stays open. *)
Example broken_read_closes_handles :
  outcome (Sample.run (with_chunksize (Sample.default_args "broken.csv") 2))
  = inl (ReadError "broken.csv")
  /\ open_handles
       (trace_of (Sample.run (with_chunksize (Sample.default_args "broken.csv") 2))) []
     = []
  /\ file_content
       (trace_of (Sample.run (with_chunksize (Sample.default_args "broken.csv") 2)))
       "broken.geoip.csv"
     = Some [ HeaderLine ["a"; "geoip"; "b"];
              DataLine [CStr "1.1.1.1"; CStr "||||||"; CStr "z"];
              DataLine [CStr "x"; CStr ""; CStr "2.2.2.2"] ].
Proof. vm_compute. repeat split; reflexivity. Qed.

(** * Further properties of the script *)

(** ** The output path *)

Lemma rsplit_dot_head_spec (s : string) :
  (contains "." s = true ->
   exists ext, s = rsplit_dot_head s ++ String "." ext /\ contains "." ext = false)
  /\ (contains "." s = false -> rsplit_dot_head s = s).
Proof.
  induction s as [|c r [IHt IHf]]; [split; [discriminate | reflexivity]|].
  cbn [rsplit_dot_head contains].
  destruct (contains "." r) eqn:Hr.
  - split; [|rewrite orb_true_r; discriminate].
    intros _. destruct (IHt eq_refl) as [ext [Heq Hext]].
    exists ext. split; [|exact Hext].
    cbn [append]. f_equal. exact Heq.
  - rewrite orb_false_r. destruct (Ascii.eqb_spec c ".") as [->|Hne].
    + split; [|discriminate]. intros _. exists r. split; [reflexivity | exact Hr].
    + split; [discriminate | reflexivity].
Qed.

(** X1.  Without an output path, the output goes to the input path with
    what follows its last dot replaced by [geoip.csv]; an input path
    without a dot gets [.geoip.csv] appended. *)
Theorem X1_default_out_path (a : args) :
  truthy_opt (out a) = false ->
  exists stem,
    out_path_of a = stem ++ ".geoip.csv"
    /\ (contains "." (inp a) = true ->
        exists ext, inp a = stem ++ String "." ext /\ contains "." ext = false)
    /\ (contains "." (inp a) = false -> stem = inp a).
Proof.
  intros Hout. exists (rsplit_dot_head (inp a)).
  unfold out_path_of. rewrite Hout.
  split; [reflexivity|]. apply rsplit_dot_head_spec.
Qed.

Lemma X1_default_out_path_witness :
  truthy_opt (out (Sample.default_args "logs/day.1.csv")) = false
  /\ exists stem,
       out_path_of (Sample.default_args "logs/day.1.csv") = stem ++ ".geoip.csv"
       /\ (contains "." (inp (Sample.default_args "logs/day.1.csv")) = true ->
           exists ext, inp (Sample.default_args "logs/day.1.csv") = stem ++ String "." ext
                       /\ contains "." ext = false)
       /\ (contains "." (inp (Sample.default_args "logs/day.1.csv")) = false ->
           stem = inp (Sample.default_args "logs/day.1.csv")).
Proof.
  split; [reflexivity|].
  apply (X1_default_out_path (Sample.default_args "logs/day.1.csv")). reflexivity.
Defined.

Example out_path_examples :
  out_path_of (Sample.default_args "logs/day.1.csv") = "logs/day.1.geoip.csv"
  /\ out_path_of (Sample.default_args "table") = "table.geoip.csv"
  /\ out_path_of {| inp := "in.csv"; out := Some "res.csv"; city_db := "c"; asn_db := None;
                    ip_col := None; geoip_col := "geoip"; chunksize := 0;
                    encoding := "utf-8"; sep := ","; quotechar := "'";
                    na_filter := false; keep_invalid := false;
                    invalid_marker := "invalid_ip" |} = "res.csv"
  /\ out_path_of {| inp := "in.csv"; out := Some ""; city_db := "c"; asn_db := None;
                    ip_col := None; geoip_col := "geoip"; chunksize := 0;
                    encoding := "utf-8"; sep := ","; quotechar := "'";
                    na_filter := false; keep_invalid := false;
                    invalid_marker := "invalid_ip" |} = "in.geoip.csv".
Proof. repeat split; reflexivity. Qed.

(** ** The per-row computation, continued *)

Section ComputeMore.

Variable L : ip_library.
Variables (city_reader : reader) (asn_reader : option reader).

(** X2.  Whitespace around the cell value changes neither the field nor the
    queries: the value and its trimmed form are computed alike. *)
Theorem X2_compute_ignores_surrounding_space (v : string) :
  compute L city_reader asn_reader (CStr v)
  = compute L city_reader asn_reader (CStr (strip v)).
Proof. unfold compute. rewrite strip_idem. reflexivity. Qed.

Lemma compute_skips (v : string) :
  classify_spec L v <> ValidPublic ->
  compute L city_reader asn_reader (CStr v) = ([], inr "").
Proof.
  intros H. unfold classify_spec in H. unfold compute.
  destruct (String.eqb_spec (strip v) "") as [Heq|Hne]; [rewrite Heq; reflexivity|].
  destruct (strip v) as [|ch rest] eqn:Hs; [congruence|]. simpl truthy. simpl negb.
  cbv iota. rewrite <- Hs, is_public_ip_strip. unfold is_public_ip.
  rewrite Hs in *.
  destruct (ip_address L (String ch rest)) as [ip|]; [|reflexivity].
  destruct (is_private L ip || is_loopback L ip || is_reserved L ip
            || is_link_local L ip || is_multicast L ip); [reflexivity|congruence].
Qed.

Lemma format_geoip_nonempty
  (c r ci : option string) (la lo : option spec_float) (an : option Z)
  (og : option string) :
  format_geoip c r ci la lo an og <> "".
Proof.
  intros H.
  pose proof (format_geoip_at_least_seven c r ci la lo an og) as Hlen.
  rewrite H in Hlen. simpl in Hlen. lia.
Qed.

(** X3.  The per-row computation never raises; its field is empty exactly
    for the values that are not Valid-Public addresses, and exactly for
    those it makes no query.  For a Valid-Public address it queries the
    location reader once, then the ownership reader once when there is one,
    both with the trimmed address, and the field has at least seven slots
    even when both queries miss. *)
Theorem X3_field_empty_iff_not_public (v : string) :
  exists (t : list event) (fld : string),
    compute L city_reader asn_reader (CStr v) = (t, inr fld)
    /\ (fld = "" <-> classify_spec L v <> ValidPublic)
    /\ (t = [] <-> classify_spec L v <> ValidPublic)
    /\ (classify_spec L v = ValidPublic ->
        t = EvQuery CityDb (strip v)
              :: match asn_reader with
                 | Some _ => [EvQuery AsnDb (strip v)]
                 | None => []
                 end
        /\ 7 <= List.length (split "|" fld)).
Proof.
  destruct (classify_spec L v) eqn:Hc.
  - exists [], "". rewrite compute_skips by congruence.
    repeat split; try congruence; try discriminate; intros _; discriminate.
  - rewrite (compute_public L city_reader asn_reader v Hc).
    destruct (lookup_total city_reader asn_reader (strip v)) as [r Hr].
    rewrite Hr. unfold bind, ret. cbn [app].
    eexists _, _. split; [reflexivity|].
    split; [split; [intros H; exfalso; revert H; apply format_geoip_nonempty | congruence]|].
    split; [split; [discriminate | congruence]|].
    intros _. split.
    + destruct asn_reader; reflexivity.
    + apply format_geoip_at_least_seven.
  - exists [], "". rewrite compute_skips by congruence.
    repeat split; try congruence; try discriminate; intros _; discriminate.
Qed.

End ComputeMore.

Example compute_public_miss :
  compute Sample.ipv4_library Sample.city_reader (Some Sample.asn_reader) (CStr " 1.1.1.1 ")
  = ([EvQuery CityDb "1.1.1.1"; EvQuery AsnDb "1.1.1.1"], inr "||||||").
Proof. vm_compute. reflexivity. Qed.

(** ** The lookup adapter and the encoder, continued *)

Lemma lookup_city_fields (cr : reader) (ar : option reader) (ip : string)
  (resp : city_response) (r : lookup_result) :
  reader_city cr ip = Some resp ->
  outcome (lookup cr ar ip) = inr r ->
  (r_country_iso r, r_region r, r_city r, r_lat r, r_lon r) = city_fields resp.
Proof.
  intros Hresp. unfold lookup, call_city, call_asn, try_except, bind, emit, ret, raise,
    outcome.
  rewrite Hresp. simpl.
  destruct (city_fields resp) as [[[[c rg] ci] la] lo].
  destruct ar as [a|]; simpl; [destruct (reader_asn a ip); simpl|];
    intros [= <-]; reflexivity.
Qed.

(** X4.  From a location response [lookup] takes as region the name of the
    last (most specific) subdivision, its code when that name is missing or
    empty, and nothing when there is no subdivision; subdivisions before
    the last one play no part.  The coordinates are those of the response,
    unrounded. *)
Theorem X4_lookup_region_and_coordinates (cr : reader) (ar : option reader)
  (ip : string) (resp : city_response) (r : lookup_result) :
  reader_city cr ip = Some resp ->
  outcome (lookup cr ar ip) = inr r ->
  (subdivisions resp = [] -> r_region r = None)
  /\ (forall earlier s,
        subdivisions resp = (earlier ++ [s])%list ->
        r_region r = if truthy_opt (sub_name s) then sub_name s else sub_iso_code s)
  /\ (forall l, location resp = Some l ->
                r_lat r = latitude l /\ r_lon r = longitude l)
  /\ (location resp = None -> r_lat r = None /\ r_lon r = None).
Proof.
  intros Hresp Hout.
  pose proof (lookup_city_fields cr ar ip resp r Hresp Hout) as Hf.
  unfold city_fields in Hf.
  assert (Hregion : r_region r
                    = match subdivisions resp with
                      | [] => None
                      | subs => por (sub_name (last subs no_subdivision))
                                    (sub_iso_code (last subs no_subdivision))
                      end).
  { destruct (location resp); destruct (subdivisions resp); congruence. }
  split; [intros H; rewrite Hregion, H; reflexivity|].
  split.
  { intros earlier s H. rewrite Hregion, H.
    pose proof (last_last earlier s no_subdivision) as Hlast.
    destruct (earlier ++ [s])%list as [|e l] eqn:E.
    - destruct earlier; discriminate.
    - cbv zeta. rewrite Hlast. reflexivity. }
  split.
  - intros l Hl. rewrite Hl in Hf. split; congruence.
  - intros Hl. rewrite Hl in Hf. split; congruence.
Qed.

Lemma X4_lookup_region_and_coordinates_witness :
  reader_city sample_subdivided_reader "8.8.4.4" = Some sample_subdivided
  /\ (exists r, outcome (lookup sample_subdivided_reader None "8.8.4.4") = inr r
                /\ r_region r = Some "WSM"
                /\ r_lat r = Some Sample.lat_37_751 /\ r_lon r = None).
Proof.
  split; [reflexivity|].
  destruct (lookup_total sample_subdivided_reader None "8.8.4.4") as [r Hr].
  assert (Hout : outcome (lookup sample_subdivided_reader None "8.8.4.4") = inr r)
    by (rewrite Hr; reflexivity).
  destruct (X4_lookup_region_and_coordinates sample_subdivided_reader None "8.8.4.4"
              sample_subdivided r eq_refl Hout) as [_ [Hreg [Hloc _]]].
  exists r. split; [exact Hout|].
  split.
  - exact (Hreg [ {| sub_name := Some "England"; sub_iso_code := Some "ENG" |} ]
                {| sub_name := None; sub_iso_code := Some "WSM" |} eq_refl).
  - exact (Hloc {| latitude := Some Sample.lat_37_751; longitude := None |} eq_refl).
Defined.

Lemma format_6f_nonempty (x : spec_float) : format_6f x <> "".
Proof.
  destruct x as [s|s| |s m e]; cbn [format_6f].
  - destruct s; discriminate.
  - destruct s; discriminate.
  - discriminate.
  - intros H.
    pose proof (format_6f_six_decimals (S754_finite s m e) eq_refl) as Hs.
    cbn [format_6f] in Hs. rewrite H in Hs. discriminate.
Qed.

(** X5.  The encoding keeps what it is given, up to two things: an absent
    text field and an empty one are written alike, and a coordinate is kept
    to the digits written.  Two results whose text fields hold no separator
    and that are encoded alike have the same text fields up to that, the
    same asn, and coordinates that are absent together and written alike. *)
Theorem X5_format_geoip_injective
  (c r ci : option string) (la lo : option spec_float) (an : option Z)
  (og : option string)
  (c' r' ci' : option string) (la' lo' : option spec_float) (an' : option Z)
  (og' : option string) :
  contains "|" (or_empty c) = false -> contains "|" (or_empty r) = false ->
  contains "|" (or_empty ci) = false -> contains "|" (or_empty og) = false ->
  contains "|" (or_empty c') = false -> contains "|" (or_empty r') = false ->
  contains "|" (or_empty ci') = false -> contains "|" (or_empty og') = false ->
  format_geoip c r ci la lo an og = format_geoip c' r' ci' la' lo' an' og' ->
  or_empty c = or_empty c' /\ or_empty r = or_empty r' /\ or_empty ci = or_empty ci'
  /\ or_empty og = or_empty og' /\ an = an'
  /\ option_map format_6f la = option_map format_6f la'
  /\ option_map format_6f lo = option_map format_6f lo'.
Proof.
  intros Hc Hr Hci Hog Hc' Hr' Hci' Hog' Heq.
  assert (Hparts : forall c r ci la lo an og,
             contains "|" (or_empty c) = false -> contains "|" (or_empty r) = false ->
             contains "|" (or_empty ci) = false -> contains "|" (or_empty og) = false ->
             split "|" (format_geoip c r ci la lo an og)
             = [or_empty c; or_empty r; or_empty ci;
                match la with Some x => format_6f x | None => "" end;
                match lo with Some x => format_6f x | None => "" end;
                match an with Some n => "AS" ++ str_int n | None => "" end;
                or_empty og]).
  { intros c0 r0 ci0 la0 lo0 an0 og0 H1 H2 H3 H4.
    unfold format_geoip. apply split_join; [discriminate|].
    repeat (apply Forall_cons; [|]); try assumption; try apply Forall_nil.
    - destruct la0; [apply format_6f_no_bar | reflexivity].
    - destruct lo0; [apply format_6f_no_bar | reflexivity].
    - destruct an0; [|reflexivity]. rewrite contains_app, str_int_no_bar. reflexivity. }
  apply (f_equal (split "|")) in Heq.
  rewrite (Hparts c r ci la lo an og Hc Hr Hci Hog) in Heq.
  rewrite (Hparts c' r' ci' la' lo' an' og' Hc' Hr' Hci' Hog') in Heq.
  injection Heq as E1 E2 E3 E4 E5 E6 E7.
  assert (Hcoord : forall (a b : option spec_float),
             match a with Some x => format_6f x | None => "" end
             = match b with Some x => format_6f x | None => "" end ->
             option_map format_6f a = option_map format_6f b).
  { intros [x|] [y|] H; cbn [option_map].
    - f_equal. exact H.
    - exfalso. exact (format_6f_nonempty x H).
    - exfalso. symmetry in H. exact (format_6f_nonempty y H).
    - reflexivity. }
  repeat split; auto.
  destruct an as [n|], an' as [n'|]; try discriminate; [|reflexivity].
  injection E6 as E6.
  pose proof (str_int_reads_back n) as Hn. pose proof (str_int_reads_back n') as Hn'.
  rewrite E6 in Hn. rewrite Hn in Hn'. congruence.
Qed.

Lemma X5_format_geoip_injective_witness :
  contains "|" (or_empty (Some "US")) = false
  /\ format_geoip (Some "US") None (Some "") None None (Some 15169%Z) None
     = format_geoip (Some "US") (Some "") None None None (Some 15169%Z) (Some "")
  /\ (or_empty (Some "US") = or_empty (Some "US")
      /\ or_empty None = or_empty (Some "")
      /\ or_empty (Some "") = or_empty None
      /\ or_empty None = or_empty (Some "")
      /\ Some 15169%Z = Some 15169%Z
      /\ option_map format_6f None = option_map format_6f None
      /\ option_map format_6f None = option_map format_6f None).
Proof.
  split; [reflexivity|]. split; [reflexivity|].
  apply (X5_format_geoip_injective (Some "US") None (Some "") None None (Some 15169%Z) None
           (Some "US") (Some "") None None None (Some 15169%Z) (Some ""));
    reflexivity.
Defined.

(** ** Queries of a call *)

Lemma count_kind_query_app (k : db_kind) (t1 t2 : list event) :
  count_kind_query k (t1 ++ t2) = count_kind_query k t1 + count_kind_query k t2.
Proof.
  induction t1 as [|ev t1 IH]; [reflexivity|].
  destruct ev; simpl; rewrite IH; lia.
Qed.

Lemma astype_str_text (c : cell) : Pd.astype_str c = CStr (Pd.str_of_cell c).
Proof. destruct c; reflexivity. Qed.

Section CallQueries.

Variable L : ip_library.
Variable Reader : string -> option reader.

Lemma compute_query_count (cr : reader) (ar : option reader) (k : db_kind) (c : cell) :
  count_kind_query k (trace_of (compute L cr ar (Pd.astype_str c)))
  = if is_valid_public L (Pd.str_of_cell c)
    then match k, ar with
         | CityDb, _ => 1
         | AsnDb, Some _ => 1
         | AsnDb, None => 0
         end
    else 0.
Proof.
  rewrite astype_str_text. unfold is_valid_public.
  destruct (classify_spec L (Pd.str_of_cell c)) eqn:Hc.
  - rewrite compute_skips by congruence. reflexivity.
  - rewrite (compute_public L cr ar _ Hc).
    destruct (lookup_total cr ar (strip (Pd.str_of_cell c))) as [r Hr].
    rewrite Hr. unfold bind, ret. cbn [trace_of fst app].
    destruct k, ar; reflexivity.
  - rewrite compute_skips by congruence. reflexivity.
Qed.

Lemma flat_map_query_count (cr : reader) (ar : option reader) (k : db_kind)
  (series : list cell) :
  count_kind_query k
    (flat_map (fun v => trace_of (compute L cr ar (Pd.astype_str v))) series)
  = List.length (filter (fun v => is_valid_public L (Pd.str_of_cell v)) series)
    * match k, ar with
      | CityDb, _ => 1
      | AsnDb, Some _ => 1
      | AsnDb, None => 0
      end.
Proof.
  induction series as [|v series IH]; [reflexivity|].
  cbn [flat_map filter]. rewrite count_kind_query_app, compute_query_count, IH.
  destruct (is_valid_public L (Pd.str_of_cell v)); cbn [List.length]; lia.
Qed.

Lemma compute_queries_of_row (cr : reader) (ar : option reader) (i : nat)
  (r : list cell) :
  trace_of (compute L cr ar (Pd.astype_str (Pd.cell_at i r)))
  = queries_of_row L (match ar with Some _ => true | None => false end) i r.
Proof.
  rewrite astype_str_text. unfold queries_of_row, is_valid_public.
  destruct (classify_spec L (Pd.str_of_cell (Pd.cell_at i r))) eqn:Hc.
  - rewrite compute_skips by congruence. reflexivity.
  - rewrite (compute_public L cr ar _ Hc).
    destruct (lookup_total cr ar (strip (Pd.str_of_cell (Pd.cell_at i r)))) as [res Hr].
    rewrite Hr. unfold bind, ret. cbn [trace_of fst app].
    destruct ar; reflexivity.
  - rewrite compute_skips by congruence. reflexivity.
Qed.

Lemma flat_map_queries_of_rows (cr : reader) (ar : option reader) (i : nat)
  (rs : list (list cell)) :
  flat_map (fun v => trace_of (compute L cr ar (Pd.astype_str v))) (map (Pd.cell_at i) rs)
  = flat_map (queries_of_row L (match ar with Some _ => true | None => false end) i) rs.
Proof.
  induction rs as [|r rs IH]; [reflexivity|].
  cbn [map flat_map]. rewrite IH, compute_queries_of_row. reflexivity.
Qed.

(** X6.  A call of [enrich_dataframe] on a frame that has the IP column,
    with databases that open, does exactly this, in this order: it opens
    the location database, and the ownership database when one is
    configured; then, row by row in the order of the frame, it does nothing
    for a row whose IP value, as text, is no Valid-Public address, and for
    every other row it queries the location database once, with the
    trimmed text of that row, and then, when configured, the ownership
    database once with the same text; then it closes the handles.  So each
    database is queried once for every Valid-Public row, for that row's
    address, and for no other row.  This holds whether the call then
    returns or raises, as it does for a new column name that is taken: the
    rows are looked up before the column is inserted. *)
Theorem X6_queries_per_public_row (df : frame) (ipc cdb : string)
  (adb : option string) (g : string) (cr : reader) (i : nat) :
  Pd.index_of ipc (columns df) = Some i ->
  Reader cdb = Some cr ->
  asn_opens Reader adb ->
  let t := trace_of (enrich_dataframe L Reader df ipc cdb adb g) in
  let with_asn := match asn_path adb with Some _ => true | None => false end in
  let public_rows :=
    filter (fun r => is_valid_public L (Pd.str_of_cell (Pd.cell_at i r))) (rows df) in
  t = (EvOpen CityDb cdb
         :: match asn_path adb with Some p => [EvOpen AsnDb p] | None => [] end
         ++ flat_map (queries_of_row L with_asn i) (rows df)
         ++ EvClose CityDb
         :: match asn_path adb with Some _ => [EvClose AsnDb] | None => [] end)%list
  /\ filter is_query t = flat_map (queries_of_row L with_asn i) (rows df)
  /\ count_kind_query CityDb t = List.length public_rows
  /\ count_kind_query AsnDb t
     = match asn_path adb with
       | Some _ => List.length public_rows
       | None => 0
       end.
Proof.
  intros Hi Hc Ho. cbv zeta.
  assert (Hfilter : forall rs,
             List.length (filter (fun v => is_valid_public L (Pd.str_of_cell v))
                                 (map (Pd.cell_at i) rs))
             = List.length (filter (fun r => is_valid_public L
                                               (Pd.str_of_cell (Pd.cell_at i r))) rs)).
  { induction rs as [|r rs IH]; [reflexivity|]. cbn [map filter].
    destruct (is_valid_public L (Pd.str_of_cell (Pd.cell_at i r))); cbn [List.length];
      rewrite IH; reflexivity. }
  assert (Hq : forall b rs,
             filter is_query (flat_map (queries_of_row L b i) rs)
             = flat_map (queries_of_row L b i) rs).
  { intros b. induction rs as [|r rs IH]; [reflexivity|].
    cbn [flat_map]. rewrite filter_app, IH. f_equal.
    unfold queries_of_row.
    destruct (is_valid_public L (Pd.str_of_cell (Pd.cell_at i r))); [|reflexivity].
    destruct b; reflexivity. }
  rewrite enrich_dataframe_run, Hc.
  destruct (asn_path adb) as [p|] eqn:Hp.
  - destruct (Reader p) as [ar|] eqn:Hr; [|exfalso; apply (Ho p Hp), Hr].
    rewrite enrich_body_run, Hi. cbn [trace_of fst].
    split; [|split].
    + rewrite flat_map_queries_of_rows. reflexivity.
    + rewrite flat_map_queries_of_rows. cbn [app filter is_query].
      rewrite filter_app, Hq. cbn [filter is_query]. apply app_nil_r.
    + cbn [count_kind_query].
      rewrite !count_kind_query_app, !flat_map_query_count, Hfilter.
      cbn [count_kind_query]. split; lia.
  - rewrite enrich_body_run, Hi. cbn [trace_of fst].
    split; [|split].
    + rewrite flat_map_queries_of_rows. reflexivity.
    + rewrite flat_map_queries_of_rows. cbn [app filter is_query].
      rewrite filter_app, Hq. cbn [filter is_query]. apply app_nil_r.
    + cbn [count_kind_query].
      rewrite !count_kind_query_app, !flat_map_query_count, Hfilter.
      cbn [count_kind_query]. split; lia.
Qed.

(** X7.  In a call of [enrich_dataframe] whose databases open, every query
    falls between the opening and the closing of the handles: first the
    location database is opened, then the ownership database when one is
    configured, then come queries and nothing else, then the location handle
    is closed and the ownership handle after it. *)
Theorem X7_queries_between_open_and_close (df : frame) (ipc cdb : string)
  (adb : option string) (g : string) (cr : reader) :
  Reader cdb = Some cr ->
  asn_opens Reader adb ->
  exists qs,
    trace_of (enrich_dataframe L Reader df ipc cdb adb g)
    = (EvOpen CityDb cdb
         :: match asn_path adb with Some p => [EvOpen AsnDb p] | None => [] end
         ++ qs
         ++ EvClose CityDb
         :: match asn_path adb with Some _ => [EvClose AsnDb] | None => [] end)%list
    /\ forallb is_query qs = true.
Proof.
  intros Hc Ho. rewrite enrich_dataframe_run, Hc.
  destruct (asn_path adb) as [p|] eqn:Hp.
  - destruct (Reader p) as [ar|] eqn:Hr; [|exfalso; apply (Ho p Hp), Hr].
    exists (trace_of (enrich_body L df ipc g cr (Some ar))).
    split; [reflexivity | apply enrich_body_queries_only].
  - exists (trace_of (enrich_body L df ipc g cr None)).
    split; [reflexivity | apply enrich_body_queries_only].
Qed.

End CallQueries.

Lemma X6_queries_per_public_row_witness :
  Pd.index_of "ip" (columns Sample.table_ips) = Some 0
  /\ Sample.open_reader "city.mmdb" = Some Sample.city_reader
  /\ asn_opens Sample.open_reader (Some "asn.mmdb")
  /\ trace_of (enrich_dataframe Sample.ipv4_library Sample.open_reader Sample.table_ips
                 "ip" "city.mmdb" (Some "asn.mmdb") "geoip")
     = (EvOpen CityDb "city.mmdb"
          :: match asn_path (Some "asn.mmdb") with
             | Some p => [EvOpen AsnDb p]
             | None => []
             end
          ++ flat_map (queries_of_row Sample.ipv4_library
                         match asn_path (Some "asn.mmdb") with
                         | Some _ => true
                         | None => false
                         end 0)
                      (rows Sample.table_ips)
          ++ EvClose CityDb
          :: match asn_path (Some "asn.mmdb") with
             | Some _ => [EvClose AsnDb]
             | None => []
             end)%list
  /\ flat_map (queries_of_row Sample.ipv4_library true 0) (rows Sample.table_ips)
     = [EvQuery CityDb "8.8.8.8"; EvQuery AsnDb "8.8.8.8"].
Proof.
  assert (Ho : asn_opens Sample.open_reader (Some "asn.mmdb")).
  { intros p Hp. vm_compute in Hp. injection Hp as <-. discriminate. }
  split; [reflexivity|]. split; [reflexivity|]. split; [exact Ho|].
  split; [|reflexivity].
  exact (proj1 (X6_queries_per_public_row Sample.ipv4_library Sample.open_reader
                  Sample.table_ips "ip" "city.mmdb" (Some "asn.mmdb") "geoip"
                  Sample.city_reader 0 eq_refl eq_refl Ho)).
Defined.

Lemma X7_queries_between_open_and_close_witness :
  Sample.open_reader "city.mmdb" = Some Sample.city_reader
  /\ asn_opens Sample.open_reader (Some "asn.mmdb")
  /\ exists qs,
       trace_of (enrich_dataframe Sample.ipv4_library Sample.open_reader Sample.table_ips
                   "ip" "city.mmdb" (Some "asn.mmdb") "geoip")
       = (EvOpen CityDb "city.mmdb"
            :: match asn_path (Some "asn.mmdb") with
               | Some p => [EvOpen AsnDb p]
               | None => []
               end
            ++ qs
            ++ EvClose CityDb
            :: match asn_path (Some "asn.mmdb") with
               | Some _ => [EvClose AsnDb]
               | None => []
               end)%list
       /\ forallb is_query qs = true.
Proof.
  assert (Ho : asn_opens Sample.open_reader (Some "asn.mmdb")).
  { intros p Hp. vm_compute in Hp. injection Hp as <-. discriminate. }
  split; [reflexivity|]. split; [exact Ho|].
  exact (X7_queries_between_open_and_close Sample.ipv4_library Sample.open_reader
           Sample.table_ips "ip" "city.mmdb" (Some "asn.mmdb") "geoip" Sample.city_reader
           eq_refl Ho).
Defined.

Example queries_of_the_example_table :
  trace_of (enrich_dataframe Sample.ipv4_library Sample.open_reader Sample.table_ips
              "ip" "city.mmdb" (Some "asn.mmdb") "geoip")
  = [ EvOpen CityDb "city.mmdb"; EvOpen AsnDb "asn.mmdb";
      EvQuery CityDb "8.8.8.8"; EvQuery AsnDb "8.8.8.8";
      EvClose CityDb; EvClose AsnDb ].
Proof. vm_compute. reflexivity. Qed.

(** ** Runs that fail before anything is written *)

Section EarlyFailures.

Variable L : ip_library.
Variable Reader : string -> option reader.
Variable fs : Pd.file_system.

Lemma resolve_first (a : args) (chunk : frame) (c : string) :
  resolved_column L a chunk = Some c ->
  truthy c = true ->
  exists det', resolve_ip_col L a chunk None = ret (c, det').
Proof.
  unfold resolved_column, resolve_ip_col. intros Hres Htc.
  destruct (truthy_opt (ip_col a)).
  - rewrite Hres. eexists. reflexivity.
  - cbn [truthy_opt]. rewrite Hres. cbn [truthy_opt]. rewrite Htc.
    eexists. reflexivity.
Qed.

(** When the first call of [enrich_dataframe] raises, the run ends there,
    with the events of that call and its exception. *)
Lemma process_all_first_call_fails (a : args) (df : frame) (c : string)
  (t : list event) (e : exn) :
  fs (inp a) (read_kwargs_of a) = Some {| Pd.in_frame := df; Pd.in_fail_at := None |} ->
  resolved_column L a (first_frame a df) = Some c ->
  truthy c = true ->
  enrich_dataframe L Reader (first_frame a df) c (city_db a) (asn_db a) (geoip_col a)
  = (t, inl e) ->
  process_all L Reader fs a = (t, inl e).
Proof.
  unfold process_all, first_frame. intros Hfs Hres Htc Hen.
  destruct (0 <? chunksize a)%Z.
  - unfold Pd.read_csv_chunked. rewrite Hfs. cbn [Pd.in_fail_at Pd.in_frame].
    rewrite bind_ret_l.
    destruct (chunks_head (Z.to_nat (chunksize a)) df) as [rest Hrest].
    rewrite Hrest. cbn [map chunk_loop].
    destruct (resolve_first a _ c Hres Htc) as [det' Hstep].
    rewrite Hstep, bind_ret_l. cbn [fst snd]. rewrite Hen. reflexivity.
  - unfold Pd.read_csv. rewrite Hfs. cbn [Pd.in_fail_at Pd.in_frame].
    rewrite bind_ret_l.
    change (if truthy_opt (ip_col a) then ip_col a else autodetect_ip_col L df)
      with (resolved_column L a df).
    rewrite Hres. cbn [truthy_opt or_empty]. rewrite Htc. cbn [negb].
    rewrite Hen. reflexivity.
Qed.

Lemma first_frame_columns (a : args) (df : frame) :
  columns (first_frame a df) = columns df.
Proof. unfold first_frame. destruct (0 <? chunksize a)%Z; reflexivity. Qed.

(** X8.  A configured IP column that the table does not have ends the run,
    in either mode, with [KeyError] for that name: the databases are opened
    and closed again, no address is looked up, nothing is written and no
    message is printed. *)
Theorem X8_missing_ip_column (a : args) (df : frame) (c : string) (cr : reader) :
  fs (inp a) (read_kwargs_of a) = Some {| Pd.in_frame := df; Pd.in_fail_at := None |} ->
  ip_col a = Some c ->
  truthy c = true ->
  ~ In c (columns df) ->
  Reader (city_db a) = Some cr ->
  asn_opens Reader (asn_db a) ->
  process_all L Reader fs a
  = ((EvOpen CityDb (city_db a)
        :: match asn_path (asn_db a) with Some p => [EvOpen AsnDb p] | None => [] end
        ++ EvClose CityDb
        :: match asn_path (asn_db a) with Some _ => [EvClose AsnDb] | None => [] end)%list,
     inl (KeyError c))
  /\ (forall p, file_content (trace_of (process_all L Reader fs a)) p = None)
  /\ open_handles (trace_of (process_all L Reader fs a)) [] = []
  /\ count_query (trace_of (process_all L Reader fs a)) = 0.
Proof.
  intros Hfs Hip Htc Hnin Hc Ho.
  assert (Hres : resolved_column L a (first_frame a df) = Some c).
  { unfold resolved_column. rewrite Hip. cbn [truthy_opt]. rewrite Htc. reflexivity. }
  assert (Hidx : Pd.index_of c (columns (first_frame a df)) = None).
  { rewrite first_frame_columns. apply index_of_none, Hnin. }
  assert (Hrun : process_all L Reader fs a
                 = ((EvOpen CityDb (city_db a)
                       :: match asn_path (asn_db a) with
                          | Some p => [EvOpen AsnDb p]
                          | None => []
                          end
                       ++ EvClose CityDb
                       :: match asn_path (asn_db a) with
                          | Some _ => [EvClose AsnDb]
                          | None => []
                          end)%list,
                    inl (KeyError c))).
  { apply (process_all_first_call_fails a df c _ _ Hfs Hres Htc).
    rewrite enrich_dataframe_run, Hc.
    destruct (asn_path (asn_db a)) as [p|] eqn:Hp.
    - destruct (Reader p) as [ar|] eqn:Hr; [|exfalso; apply (Ho p Hp), Hr].
      rewrite enrich_body_run, Hidx. reflexivity.
    - rewrite enrich_body_run, Hidx. reflexivity. }
  rewrite Hrun. split; [reflexivity|].
  destruct (asn_path (asn_db a)); repeat split; reflexivity.
Qed.

(** X9.  A location database that cannot be opened ends the run, in either
    mode, with the error of opening it and without any event: the table has
    been read and the IP column settled by then, but no handle is open,
    no address looked up and nothing written. *)
Theorem X9_city_database_unreadable (a : args) (df : frame) (c : string) :
  fs (inp a) (read_kwargs_of a) = Some {| Pd.in_frame := df; Pd.in_fail_at := None |} ->
  resolved_column L a (first_frame a df) = Some c ->
  truthy c = true ->
  Reader (city_db a) = None ->
  process_all L Reader fs a = ([], inl (DatabaseError (city_db a))).
Proof.
  intros Hfs Hres Htc Hc.
  apply (process_all_first_call_fails a df c _ _ Hfs Hres Htc).
  rewrite enrich_dataframe_run, Hc. reflexivity.
Qed.

(** X10.  An ownership database that is configured and cannot be opened
    ends the run, in either mode, with the error of opening it, before any
    address is looked up and before anything is written; the location
    database, opened just before, is not closed. *)
Theorem X10_asn_database_unreadable (a : args) (df : frame) (c p : string)
  (cr : reader) :
  fs (inp a) (read_kwargs_of a) = Some {| Pd.in_frame := df; Pd.in_fail_at := None |} ->
  resolved_column L a (first_frame a df) = Some c ->
  truthy c = true ->
  Reader (city_db a) = Some cr ->
  asn_path (asn_db a) = Some p ->
  Reader p = None ->
  process_all L Reader fs a = ([EvOpen CityDb (city_db a)], inl (DatabaseError p))
  /\ open_handles (trace_of (process_all L Reader fs a)) [] = [CityDb].
Proof.
  intros Hfs Hres Htc Hc Hp Hr.
  assert (Hrun : process_all L Reader fs a
                 = ([EvOpen CityDb (city_db a)], inl (DatabaseError p))).
  { apply (process_all_first_call_fails a df c _ _ Hfs Hres Htc).
    rewrite enrich_dataframe_run, Hc, Hp, Hr. reflexivity. }
  rewrite Hrun. split; reflexivity.
Qed.

(** X11.  An input that cannot be opened, in either mode, or that breaks
    off while it is read in whole-table mode, ends the run with the read
    error and without any event: no database is opened for it. *)
Theorem X11_unreadable_input (a : args) :
  (fs (inp a) (read_kwargs_of a) = None
   \/ ((chunksize a <= 0)%Z
       /\ exists input n,
            fs (inp a) (read_kwargs_of a) = Some input
            /\ Pd.in_fail_at input = Some n
            /\ n < List.length (rows (Pd.in_frame input)))) ->
  process_all L Reader fs a = ([], inl (ReadError (inp a))).
Proof.
  intros [Hfs|[Hk [input [n [Hfs [Hfail Hn]]]]]]; unfold process_all.
  - unfold Pd.read_csv_chunked, Pd.read_csv. rewrite Hfs.
    destruct (0 <? chunksize a)%Z; reflexivity.
  - destruct (Z.ltb_spec 0 (chunksize a)); [lia|].
    unfold Pd.read_csv. rewrite Hfs, Hfail.
    destruct (Nat.ltb_spec n (List.length (rows (Pd.in_frame input)))); [reflexivity | lia].
Qed.

End EarlyFailures.

Lemma X8_missing_ip_column_witness :
  Sample.files "ips.csv"
    (read_kwargs_of (with_chunksize (with_ip_col (Sample.default_args "ips.csv")
                                                 (Some "address")) 2))
  = Some {| Pd.in_frame := Sample.table_ips; Pd.in_fail_at := None |}
  /\ ~ In "address" (columns Sample.table_ips)
  /\ Sample.run (with_chunksize (with_ip_col (Sample.default_args "ips.csv")
                                             (Some "address")) 2)
     = ([EvOpen CityDb "city.mmdb"; EvClose CityDb], inl (KeyError "address")).
Proof.
  assert (Hnin : ~ In "address" (columns Sample.table_ips))
    by (simpl; intuition discriminate).
  assert (Ho : asn_opens Sample.open_reader None) by (intros p [=]).
  split; [reflexivity|]. split; [exact Hnin|].
  exact (proj1 (X8_missing_ip_column Sample.ipv4_library Sample.open_reader Sample.files
                  (with_chunksize (with_ip_col (Sample.default_args "ips.csv")
                                               (Some "address")) 2)
                  Sample.table_ips "address" Sample.city_reader
                  eq_refl eq_refl eq_refl Hnin eq_refl Ho)).
Defined.

Lemma X9_city_database_unreadable_witness :
  Sample.open_reader "nowhere.mmdb" = None
  /\ resolved_column Sample.ipv4_library
       (with_city_db (Sample.default_args "ips.csv") "nowhere.mmdb")
       (first_frame (with_city_db (Sample.default_args "ips.csv") "nowhere.mmdb")
                    Sample.table_ips) = Some "ip"
  /\ Sample.run (with_city_db (Sample.default_args "ips.csv") "nowhere.mmdb")
     = ([], inl (DatabaseError "nowhere.mmdb")).
Proof.
  split; [reflexivity|]. split; [reflexivity|].
  exact (X9_city_database_unreadable Sample.ipv4_library Sample.open_reader Sample.files
           (with_city_db (Sample.default_args "ips.csv") "nowhere.mmdb")
           Sample.table_ips "ip" eq_refl eq_refl eq_refl eq_refl).
Defined.

Lemma X10_asn_database_unreadable_witness :
  Sample.open_reader "city.mmdb" = Some Sample.city_reader
  /\ asn_path (asn_db (with_asn_db (Sample.default_args "ips.csv") "nowhere.mmdb"))
     = Some "nowhere.mmdb"
  /\ Sample.open_reader "nowhere.mmdb" = None
  /\ Sample.run (with_asn_db (Sample.default_args "ips.csv") "nowhere.mmdb")
     = ([EvOpen CityDb "city.mmdb"], inl (DatabaseError "nowhere.mmdb"))
  /\ open_handles
       (trace_of (Sample.run (with_asn_db (Sample.default_args "ips.csv") "nowhere.mmdb")))
       [] = [CityDb].
Proof.
  split; [reflexivity|]. split; [reflexivity|]. split; [reflexivity|].
  exact (X10_asn_database_unreadable Sample.ipv4_library Sample.open_reader Sample.files
           (with_asn_db (Sample.default_args "ips.csv") "nowhere.mmdb")
           Sample.table_ips "ip" "nowhere.mmdb" Sample.city_reader
           eq_refl eq_refl eq_refl eq_refl eq_refl eq_refl).
Defined.

Lemma X11_unreadable_input_witness :
  Sample.files "absent.csv" (read_kwargs_of (Sample.default_args "absent.csv")) = None
  /\ Sample.run (Sample.default_args "absent.csv") = ([], inl (ReadError "absent.csv"))
  /\ Sample.run (Sample.default_args "broken.csv") = ([], inl (ReadError "broken.csv")).
Proof.
  split; [reflexivity|]. split.
  - apply (X11_unreadable_input Sample.ipv4_library Sample.open_reader Sample.files
             (Sample.default_args "absent.csv")).
    left. reflexivity.
  - apply (X11_unreadable_input Sample.ipv4_library Sample.open_reader Sample.files
             (Sample.default_args "broken.csv")).
    right. split; [discriminate|].
    exists {| Pd.in_frame := Sample.table_mixed; Pd.in_fail_at := Some 2 |}, 2.
    split; [reflexivity|]. split; [reflexivity|]. simpl. lia.
Defined.

(** ** A read that breaks off in chunked mode *)

Lemma firstn_plus {A : Type} (n m : nat) (l : list A) :
  firstn (n + m) l = (firstn n l ++ firstn m (skipn n l))%list.
Proof.
  revert l. induction n as [|n IH]; intros l; [reflexivity|].
  destruct l as [|x l]; [simpl; rewrite firstn_nil; reflexivity|].
  cbn [Nat.add firstn skipn app]. f_equal. apply IH.
Qed.

Lemma chunk_rows_firstn (k : nat) :
  1 <= k ->
  forall (j fuel : nat) (rs : list (list cell)),
    List.length rs <= fuel ->
    List.concat (firstn j (Pd.chunk_rows fuel k rs)) = firstn (j * k) rs.
Proof.
  intros Hk. induction j as [|j IH]; intros fuel rs Hlen; [reflexivity|].
  destruct fuel as [|fuel].
  - destruct rs; [cbn [Pd.chunk_rows]; rewrite !firstn_nil; reflexivity
                 | simpl in Hlen; lia].
  - destruct rs as [|r rs']; [cbn [Pd.chunk_rows]; rewrite !firstn_nil; reflexivity|].
    cbn [Pd.chunk_rows firstn List.concat].
    rewrite IH.
    + replace (S j * k) with (k + j * k) by lia. symmetry. apply firstn_plus.
    + rewrite length_skipn. cbn [List.length] in *. lia.
Qed.

(** The rows of the first [j] batches are the first [j * k] rows. *)
Lemma chunks_firstn_rows (k j : nat) (df : frame) :
  1 <= k ->
  List.concat (map rows (firstn j (Pd.chunks k df))) = firstn (j * k) (rows df).
Proof.
  intros Hk. unfold Pd.chunks. destruct (rows df) as [|r rs] eqn:Hr.
  - rewrite firstn_nil. destruct j; [reflexivity|].
    cbn [firstn map List.concat]. rewrite Hr, firstn_nil. reflexivity.
  - rewrite <- firstn_map, map_map. cbn [rows]. rewrite map_id.
    apply chunk_rows_firstn; [exact Hk | lia].
Qed.

Section BrokenRead.

Variable L : ip_library.
Variable Reader : string -> option reader.
Variable fs : Pd.file_system.

Lemma resolve_first_resolves (a : args) (chunk : frame) (c : string) :
  resolved_column L a chunk = Some c ->
  truthy c = true ->
  exists det', resolve_ip_col L a chunk None = ret (c, det') /\ resolves a det' c.
Proof.
  unfold resolved_column, resolve_ip_col. intros Hres Htc.
  destruct (truthy_opt (ip_col a)) eqn:Hip.
  - rewrite Hres. exists None. split; [reflexivity|].
    left. split; [exact Hip | rewrite Hres; reflexivity].
  - cbn [truthy_opt]. rewrite Hres. cbn [truthy_opt]. rewrite Htc.
    exists (Some c). split; [reflexivity|]. right. auto.
Qed.

(** The passes after the first when the reader then raises: the batches
    read are appended, and the run ends with the reader's exception. *)
Lemma chunk_loop_tail_broken (a : args) (out_path c : string) (cols nc : list string)
  (f : list cell -> list cell) (e : exn) :
  (forall rs,
      outcome (enrich_dataframe L Reader {| columns := cols; rows := rs |} c
                                (city_db a) (asn_db a) (geoip_col a))
      = inr {| columns := nc; rows := map f rs |}) ->
  forall (batches : list frame) (det : option string),
    Forall (fun b => columns b = cols) batches ->
    resolves a det c ->
    outcome (chunk_loop L Reader a out_path (map inr batches ++ [inl e]) false det)
    = inl e
    /\ (forall content,
          file_after
            (trace_of (chunk_loop L Reader a out_path (map inr batches ++ [inl e])
                                  false det))
            out_path (Some content)
          = Some (content
                  ++ map DataLine (map f (List.concat (map rows batches))))%list).
Proof.
  intros Hen. induction batches as [|b batches IH]; intros det Hall Hres.
  - cbn. split; [reflexivity|]. intros content. rewrite app_nil_r. reflexivity.
  - inversion Hall as [|? ? Hb Hrest]; subst.
    destruct b as [bc brs]. cbn [columns] in *.
    destruct (resolve_step L a {| columns := bc; rows := brs |} det c Hres)
      as [det' [Hstep Hres']].
    destruct (IH det' Hrest Hres') as [IHo IHf].
    cbn [map app chunk_loop]. rewrite Hstep, bind_ret_l. cbn [fst snd].
    pose proof (Hen brs) as Hout.
    pose proof (enrich_dataframe_db_events L Reader {| columns := bc; rows := brs |} c
                  (city_db a) (asn_db a) (geoip_col a)) as Hdb.
    split.
    + rewrite outcome_bind, Hout, outcome_bind. exact IHo.
    + intros content. rewrite trace_bind, Hout, trace_bind.
      rewrite file_after_app, (file_after_db_events _ _ _ Hdb).
      cbn [Pd.to_csv emit trace_of outcome fst snd app file_after negb].
      rewrite String.eqb_refl, IHf. f_equal.
      unfold written. cbn [rows List.concat map app].
      rewrite !map_app, app_assoc. reflexivity.
Qed.

(** X12.  In chunked mode, when reading breaks off at row [n] of a table
    whose first batch settles the IP column and whose enrichment would
    succeed, the run ends with the read error; the output file then holds
    the header and the enriched rows of the [n / k] batches that were read
    whole, in order, and does not exist when not even the first batch could
    be read. *)
Theorem X12_broken_read_leaves_prefix (a : args) (df : frame) (n : nat)
  (c : string) (out_df : frame) :
  (0 < chunksize a)%Z ->
  fs (inp a) (read_kwargs_of a)
  = Some {| Pd.in_frame := df; Pd.in_fail_at := Some n |} ->
  n < List.length (rows df) ->
  resolved_column L a (Pd.head (Z.to_nat (chunksize a)) df) = Some c ->
  truthy c = true ->
  outcome (enrich_dataframe L Reader df c (city_db a) (asn_db a) (geoip_col a))
  = inr out_df ->
  outcome (process_all L Reader fs a) = inl (ReadError (inp a))
  /\ file_content (trace_of (process_all L Reader fs a)) (out_path_of a)
     = if (n <? Z.to_nat (chunksize a))%nat then None
       else Some (HeaderLine (columns out_df)
                  :: map DataLine
                         (firstn (n / Z.to_nat (chunksize a) * Z.to_nat (chunksize a))
                                 (rows out_df))).
Proof.
  intros Hk Hfs Hn Hres Htc Hout. unfold process_all.
  destruct (Z.ltb_spec 0 (chunksize a)); [|lia].
  unfold Pd.read_csv_chunked. rewrite Hfs. cbn [Pd.in_fail_at Pd.in_frame].
  destruct (Nat.ltb_spec n (List.length (rows df))); [|lia].
  rewrite bind_ret_l.
  set (k := Z.to_nat (chunksize a)) in *.
  assert (Hk1 : 1 <= k) by (unfold k; lia).
  destruct (print_after
              (chunk_loop L Reader a (out_path_of a)
                 (map inr (firstn (n / k) (Pd.chunks k df)) ++ [inl (ReadError (inp a))])
                 true None)
              ("Wrote: " ++ out_path_of a)) as [Hpo Hpf].
  rewrite Hpo. unfold file_content. rewrite Hpf. clear Hpo Hpf.
  destruct (n / k) as [|j'] eqn:Hj.
  - assert (Hlt : n < k) by (apply Nat.div_small_iff; lia).
    destruct (Nat.ltb_spec n k); [|lia]. split; reflexivity.
  - assert (Hge : ~ n < k).
    { intros Hlt. apply Nat.div_small_iff in Hlt; lia. }
    destruct (Nat.ltb_spec n k); [lia|].
    pose proof (chunks_firstn_rows k (S j') df Hk1) as Hrows.
    pose proof (chunks_columns k df) as Hcols.
    destruct (chunks_head k df) as [rest Hchunks].
    rewrite Hchunks in Hrows, Hcols |- *.
    inversion Hcols as [|? ? _ Hrest]; subst.
    assert (Hrest' : Forall (fun b => columns b = columns df) (firstn j' rest)).
    { apply Forall_forall. intros b Hb. rewrite Forall_forall in Hrest. apply Hrest.
      rewrite <- (firstn_skipn j' rest). apply in_or_app. left. exact Hb. }
    destruct (resolve_first_resolves a (Pd.head k df) c Hres Htc)
      as [det' [Hstep Hresolves]].
    destruct df as [cols rs]. unfold Pd.head in *.
    cbn [columns rows firstn map List.concat app] in *.
    destruct (enrich_dataframe_rowwise L Reader cols c (city_db a) (asn_db a) (geoip_col a))
      as [r Hr].
    rewrite (Hr rs) in Hout.
    destruct r as [e|[nc f]]; [discriminate|].
    injection Hout as <-. cbn [columns rows].
    destruct (chunk_loop_tail_broken a (out_path_of a) c cols nc f (ReadError (inp a)) Hr
                (firstn j' rest) det' Hrest' Hresolves) as [Ho Hf].
    pose proof (enrich_dataframe_db_events L Reader
                  {| columns := cols; rows := firstn k rs |} c
                  (city_db a) (asn_db a) (geoip_col a)) as Hdb.
    cbn [chunk_loop]. rewrite Hstep, bind_ret_l. cbn [fst snd negb].
    split.
    + rewrite outcome_bind, (Hr (firstn k rs)), outcome_bind. exact Ho.
    + rewrite trace_bind, (Hr (firstn k rs)), trace_bind.
      rewrite file_after_app, (file_after_db_events _ _ _ Hdb).
      cbn [Pd.to_csv emit trace_of outcome fst snd app file_after].
      rewrite String.eqb_refl, Hf. f_equal.
      unfold written. cbn [columns rows app]. f_equal.
      rewrite <- !map_app, Hrows, <- firstn_map. reflexivity.
Qed.

End BrokenRead.

Lemma X12_broken_read_leaves_prefix_witness :
  (0 < chunksize (with_chunksize (Sample.default_args "broken.csv") 1))%Z
  /\ Sample.files "broken.csv"
       (read_kwargs_of (with_chunksize (Sample.default_args "broken.csv") 1))
     = Some {| Pd.in_frame := Sample.table_mixed; Pd.in_fail_at := Some 2 |}
  /\ 2 < List.length (rows Sample.table_mixed)
  /\ outcome (Sample.run (with_chunksize (Sample.default_args "broken.csv") 1))
     = inl (ReadError "broken.csv")
  /\ file_content (trace_of (Sample.run (with_chunksize (Sample.default_args "broken.csv") 1)))
                  "broken.geoip.csv"
     = Some [ HeaderLine ["a"; "geoip"; "b"];
              DataLine [CStr "1.1.1.1"; CStr "||||||"; CStr "z"];
              DataLine [CStr "x"; CStr ""; CStr "2.2.2.2"] ].
Proof.
  split; [reflexivity|]. split; [reflexivity|]. split; [simpl; lia|].
  exact (X12_broken_read_leaves_prefix Sample.ipv4_library Sample.open_reader Sample.files
           (with_chunksize (Sample.default_args "broken.csv") 1) Sample.table_mixed 2 "a"
           {| columns := ["a"; "geoip"; "b"];
              rows := [ [CStr "1.1.1.1"; CStr "||||||"; CStr "z"];
                        [CStr "x"; CStr ""; CStr "2.2.2.2"];
                        [CStr "y"; CStr ""; CStr "3.3.3.3"] ] |}
           eq_refl eq_refl ltac:(simpl; lia) eq_refl eq_refl eq_refl).
Defined.

(** ** The closing message *)

Lemma db_events_no_print (t : list event) :
  forallb is_db_event t = true -> forallb (fun ev => negb (is_print ev)) t = true.
Proof.
  induction t as [|ev t IH]; [reflexivity|]. simpl.
  intros H. apply andb_true_iff in H as [Hev Ht].
  rewrite (IH Ht). destruct ev; try discriminate; reflexivity.
Qed.

Section ClosingMessage.

Variable L : ip_library.
Variable Reader : string -> option reader.
Variable fs : Pd.file_system.

Lemma chunk_loop_no_print (a : args) (out_path : string) :
  forall (items : list (exn + frame)) (first : bool) (det : option string),
    forallb (fun ev => negb (is_print ev))
            (trace_of (chunk_loop L Reader a out_path items first det)) = true.
Proof.
  induction items as [|[e|chunk] rest IH]; intros first det; try reflexivity.
  cbn [chunk_loop]. rewrite trace_bind, resolve_ip_col_trace. cbn [app].
  destruct (outcome (resolve_ip_col L a chunk det)) as [e|resolved]; [reflexivity|].
  rewrite trace_bind, forallb_app.
  rewrite (db_events_no_print _ (enrich_dataframe_db_events L Reader chunk (fst resolved)
                                   (city_db a) (asn_db a) (geoip_col a))).
  destruct (outcome (enrich_dataframe L Reader chunk (fst resolved) (city_db a)
                                      (asn_db a) (geoip_col a))) as [e|o];
    [reflexivity|].
  rewrite trace_bind. cbn [Pd.to_csv emit trace_of outcome fst snd app forallb is_print
                            negb andb].
  apply IH.
Qed.

(** X13.  The message [Wrote: <output path>] is printed exactly when the run
    succeeds, once, as its last event; a run that raises prints nothing. *)
Theorem X13_wrote_message_iff_success (a : args) :
  exists t,
    forallb (fun ev => negb (is_print ev)) t = true
    /\ trace_of (process_all L Reader fs a)
       = (t ++ match outcome (process_all L Reader fs a) with
               | inr _ => [EvPrint ("Wrote: " ++ out_path_of a)]
               | inl _ => []
               end)%list.
Proof.
  unfold process_all. rewrite trace_bind, outcome_bind.
  match goal with
  | |- exists t, _ /\ (trace_of ?m ++ _)%list = _ => exists (trace_of m)
  end.
  split.
  - destruct (0 <? chunksize a)%Z.
    + rewrite trace_bind.
      assert (Hr : trace_of (Pd.read_csv_chunked fs (inp a) (Z.to_nat (chunksize a))
                               (read_kwargs_of a)) = []).
      { unfold Pd.read_csv_chunked. destruct (fs (inp a) (read_kwargs_of a)) as [i|];
          [|reflexivity].
        destruct (Pd.in_fail_at i); [destruct (_ <? _)%nat|]; reflexivity. }
      rewrite Hr. cbn [app].
      destruct (outcome _) as [e|items]; [reflexivity|].
      apply chunk_loop_no_print.
    + rewrite trace_bind.
      assert (Hr : trace_of (Pd.read_csv fs (inp a) (read_kwargs_of a)) = []).
      { unfold Pd.read_csv. destruct (fs (inp a) (read_kwargs_of a)) as [i|];
          [|reflexivity].
        destruct (Pd.in_fail_at i); [destruct (_ <? _)%nat|]; reflexivity. }
      rewrite Hr. cbn [app].
      destruct (outcome _) as [e|df]; [reflexivity|].
      cbv zeta. destruct (negb _); [reflexivity|].
      rewrite trace_bind, forallb_app.
      rewrite (db_events_no_print _ (enrich_dataframe_db_events L Reader df _
                                       (city_db a) (asn_db a) (geoip_col a))).
      destruct (outcome _); reflexivity.
  - destruct (outcome _) as [e|[]]; reflexivity.
Qed.

End ClosingMessage.

(** ** Auto-detection, continued *)

Section AutodetectMore.

Variable L : ip_library.

(** X14.  A detected column is a column of the table: taking it from the
    frame afterwards cannot fail, and gives one cell per row. *)
Theorem X14_detected_column_exists (df : frame) (c : string) :
  autodetect_ip_col L df = Some c ->
  In c (columns df)
  /\ exists series,
       Pd.getitem df c = ret series /\ List.length series = List.length (rows df).
Proof.
  intros H.
  assert (Hin : In c (columns df)).
  { unfold autodetect_ip_col in H. rewrite scan_names_find in H.
    destruct (find is_common_name (columns df)) as [c'|] eqn:Hn.
    - injection H as <-. apply (find_some _ _ Hn).
    - change (columns (Pd.head 1000 df)) with (columns df) in H.
      rewrite scan_values_find in H. apply (find_some _ _ H). }
  split; [exact Hin|].
  destruct (index_of_in _ _ Hin) as [i Hi].
  unfold Pd.getitem. rewrite Hi. eexists. split; [reflexivity|].
  apply length_map.
Qed.

(** X15.  On a table without rows only the column names count: the result
    is the first common name in schema order, and nothing when there is
    none. *)
Theorem X15_autodetect_without_rows (df : frame) :
  rows df = [] ->
  autodetect_ip_col L df = find is_common_name (columns df).
Proof.
  intros Hrows. unfold autodetect_ip_col. rewrite scan_names_find.
  destruct (find is_common_name (columns df)); [reflexivity|].
  unfold Pd.head. cbn [columns rows]. rewrite Hrows, firstn_nil.
  induction (columns df) as [|c cols IH] at 2; [reflexivity|].
  cbn [scan_values]. unfold sample_values. cbn [columns rows map].
  destruct (Pd.index_of c (columns df)); exact IH.
Qed.

End AutodetectMore.

Lemma X14_detected_column_exists_witness :
  autodetect_ip_col Sample.ipv4_library Sample.table_mixed = Some "b"
  /\ In "b" (columns Sample.table_mixed)
  /\ exists series,
       Pd.getitem Sample.table_mixed "b" = ret series
       /\ List.length series = List.length (rows Sample.table_mixed).
Proof.
  split; [reflexivity|].
  apply (X14_detected_column_exists Sample.ipv4_library Sample.table_mixed "b").
  reflexivity.
Defined.

Lemma X15_autodetect_without_rows_witness :
  rows {| columns := ["when"; "Remote_IP"; "ip"]; rows := [] |} = []
  /\ autodetect_ip_col Sample.ipv4_library
       {| columns := ["when"; "Remote_IP"; "ip"]; rows := [] |}
     = find is_common_name ["when"; "Remote_IP"; "ip"].
Proof.
  split; [reflexivity|].
  apply (X15_autodetect_without_rows Sample.ipv4_library
           {| columns := ["when"; "Remote_IP"; "ip"]; rows := [] |}).
  reflexivity.
Defined.

(** ** Rows are enriched one by one *)

Section RowByRow.

Variable L : ip_library.
Variable Reader : string -> option reader.

(** X16.  Whether a call of [enrich_dataframe] raises, and what it raises,
    depends on the column names, the configuration and the databases only:
    a call that raises on some rows raises the same exception on any rows
    under the same columns, so no cell value makes enrichment fail. *)
Theorem X16_failure_independent_of_rows (cols : list string) (ipc cdb : string)
  (adb : option string) (g : string) (rs : list (list cell)) (e : exn) :
  outcome (enrich_dataframe L Reader {| columns := cols; rows := rs |} ipc cdb adb g)
  = inl e ->
  forall rs',
    outcome (enrich_dataframe L Reader {| columns := cols; rows := rs' |} ipc cdb adb g)
    = inl e.
Proof.
  intros H rs'.
  destruct (enrich_dataframe_rowwise L Reader cols ipc cdb adb g) as [res Hres].
  rewrite (Hres rs) in H. rewrite (Hres rs').
  destruct res as [e'|[nc f]]; [exact H | discriminate].
Qed.

(** X17.  A call that succeeds on a table succeeds on each part of it, with
    the same output columns, and its output rows are those of the parts put
    end to end: every output row is made from its own input row alone. *)
Theorem X17_enrichment_of_appended_rows (cols : list string) (ipc cdb : string)
  (adb : option string) (g : string) (rs1 rs2 : list (list cell)) (o : frame) :
  outcome (enrich_dataframe L Reader {| columns := cols; rows := (rs1 ++ rs2)%list |}
                            ipc cdb adb g) = inr o ->
  exists o1 o2,
    outcome (enrich_dataframe L Reader {| columns := cols; rows := rs1 |} ipc cdb adb g)
    = inr o1
    /\ outcome (enrich_dataframe L Reader {| columns := cols; rows := rs2 |} ipc cdb adb g)
       = inr o2
    /\ columns o1 = columns o /\ columns o2 = columns o
    /\ rows o = (rows o1 ++ rows o2)%list
    /\ List.length (rows o1) = List.length rs1.
Proof.
  intros H.
  destruct (enrich_dataframe_rowwise L Reader cols ipc cdb adb g) as [res Hres].
  rewrite (Hres (rs1 ++ rs2)%list) in H.
  destruct res as [e'|[nc f]]; [discriminate|].
  injection H as <-.
  exists {| columns := nc; rows := map f rs1 |}, {| columns := nc; rows := map f rs2 |}.
  rewrite (Hres rs1), (Hres rs2). cbn [columns rows].
  repeat split; try reflexivity.
  - apply map_app.
  - apply length_map.
Qed.

End RowByRow.

Lemma X16_failure_independent_of_rows_witness :
  outcome (enrich_dataframe Sample.ipv4_library Sample.open_reader
             {| columns := ["ip"; "geoip"]; rows := [[CStr "8.8.8.8"; CStr "old"]] |}
             "ip" "city.mmdb" None "geoip")
  = inl (ValueError "cannot insert geoip, already exists")
  /\ outcome (enrich_dataframe Sample.ipv4_library Sample.open_reader
                {| columns := ["ip"; "geoip"]; rows := [] |}
                "ip" "city.mmdb" None "geoip")
     = inl (ValueError "cannot insert geoip, already exists").
Proof.
  split; [reflexivity|].
  apply (X16_failure_independent_of_rows Sample.ipv4_library Sample.open_reader
           ["ip"; "geoip"] "ip" "city.mmdb" None "geoip" [[CStr "8.8.8.8"; CStr "old"]]).
  reflexivity.
Defined.

Lemma X17_enrichment_of_appended_rows_witness :
  outcome (enrich_dataframe Sample.ipv4_library Sample.open_reader
             {| columns := ["ip"];
                rows := ([[CStr "8.8.8.8"]] ++ [[CStr "10.0.0.1"]; [CStr ""]])%list |}
             "ip" "city.mmdb" None "geoip")
  = inr {| columns := ["ip"; "geoip"];
           rows := [ [CStr "8.8.8.8"; CStr "US|||37.751000|-97.822000||"];
                     [CStr "10.0.0.1"; CStr ""]; [CStr ""; CStr ""] ] |}
  /\ exists o1 o2,
       outcome (enrich_dataframe Sample.ipv4_library Sample.open_reader
                  {| columns := ["ip"]; rows := [[CStr "8.8.8.8"]] |}
                  "ip" "city.mmdb" None "geoip") = inr o1
       /\ outcome (enrich_dataframe Sample.ipv4_library Sample.open_reader
                     {| columns := ["ip"]; rows := [[CStr "10.0.0.1"]; [CStr ""]] |}
                     "ip" "city.mmdb" None "geoip") = inr o2
       /\ columns o1 = ["ip"; "geoip"] /\ columns o2 = ["ip"; "geoip"]
       /\ [ [CStr "8.8.8.8"; CStr "US|||37.751000|-97.822000||"];
            [CStr "10.0.0.1"; CStr ""]; [CStr ""; CStr ""] ]
          = (rows o1 ++ rows o2)%list
       /\ List.length (rows o1) = 1.
Proof.
  assert (H : outcome (enrich_dataframe Sample.ipv4_library Sample.open_reader
                         {| columns := ["ip"];
                            rows := ([[CStr "8.8.8.8"]]
                                     ++ [[CStr "10.0.0.1"]; [CStr ""]])%list |}
                         "ip" "city.mmdb" None "geoip")
              = inr {| columns := ["ip"; "geoip"];
                       rows := [ [CStr "8.8.8.8"; CStr "US|||37.751000|-97.822000||"];
                                 [CStr "10.0.0.1"; CStr ""]; [CStr ""; CStr ""] ] |})
    by (vm_compute; reflexivity).
  split; [exact H|].
  exact (X17_enrichment_of_appended_rows Sample.ipv4_library Sample.open_reader
           ["ip"] "ip" "city.mmdb" None "geoip" [[CStr "8.8.8.8"]]
           [[CStr "10.0.0.1"]; [CStr ""]] _ H).
Defined.

(** ** An output file that exists already *)

Section Overwrite.

Variable L : ip_library.
Variable Reader : string -> option reader.
Variable fs : Pd.file_system.



End Overwrite.


(** ** What detection looks at *)

(** X19.  Detection reads the column names and the first 1000 rows and
    nothing else: two tables with the same columns and the same first 1000
    rows resolve alike, whatever follows. *)
Theorem X19_autodetect_reads_first_1000_rows (L : ip_library) (df df' : frame) :
  columns df = columns df' ->
  firstn 1000 (rows df) = firstn 1000 (rows df') ->
  autodetect_ip_col L df = autodetect_ip_col L df'.
Proof.
  intros Hcols Hrows.
  rewrite <- (autodetect_head L 1000 df) by (right; lia).
  rewrite <- (autodetect_head L 1000 df') by (right; lia).
  unfold Pd.head. rewrite Hcols, Hrows. reflexivity.
Qed.

Lemma X19_autodetect_reads_first_1000_rows_witness :
  columns {| columns := ["a"; "b"];
             rows := (repeat [CStr "x"; CStr "9.9.9.9"] 1000
                      ++ repeat [CStr "9.9.9.9"; CStr "x"] 5000)%list |}
  = columns {| columns := ["a"; "b"]; rows := repeat [CStr "x"; CStr "9.9.9.9"] 1000 |}
  /\ firstn 1000 (repeat [CStr "x"; CStr "9.9.9.9"] 1000
                  ++ repeat [CStr "9.9.9.9"; CStr "x"] 5000)%list
     = firstn 1000 (repeat [CStr "x"; CStr "9.9.9.9"] 1000)
  /\ autodetect_ip_col Sample.ipv4_library
       {| columns := ["a"; "b"];
          rows := (repeat [CStr "x"; CStr "9.9.9.9"] 1000
                   ++ repeat [CStr "9.9.9.9"; CStr "x"] 5000)%list |}
     = autodetect_ip_col Sample.ipv4_library
         {| columns := ["a"; "b"]; rows := repeat [CStr "x"; CStr "9.9.9.9"] 1000 |}.
Proof.
  assert (Hrows : firstn 1000 (repeat [CStr "x"; CStr "9.9.9.9"] 1000
                               ++ repeat [CStr "9.9.9.9"; CStr "x"] 5000)%list
                  = firstn 1000 (repeat [CStr "x"; CStr "9.9.9.9"] 1000))
    by (vm_compute; reflexivity).
  split; [reflexivity|]. split; [exact Hrows|].
  exact (X19_autodetect_reads_first_1000_rows Sample.ipv4_library
           {| columns := ["a"; "b"];
              rows := (repeat [CStr "x"; CStr "9.9.9.9"] 1000
                       ++ repeat [CStr "9.9.9.9"; CStr "x"] 5000)%list |}
           {| columns := ["a"; "b"]; rows := repeat [CStr "x"; CStr "9.9.9.9"] 1000 |}
           eq_refl Hrows).
Defined.

(** ** The writes of a run *)

Lemma write_modes_app (t1 t2 : list event) :
  write_modes (t1 ++ t2) = (write_modes t1 ++ write_modes t2)%list.
Proof.
  induction t1 as [|ev t1 IH]; [reflexivity|].
  destruct ev; simpl; rewrite IH; reflexivity.
Qed.

Lemma write_modes_db_events (t : list event) :
  forallb is_db_event t = true -> write_modes t = [].
Proof.
  induction t as [|ev t IH]; [reflexivity|]. simpl.
  intros H. apply andb_true_iff in H as [Hev Ht].
  destruct ev; try discriminate; simpl; apply IH, Ht.
Qed.

Section Writes.

Variable L : ip_library.
Variable Reader : string -> option reader.
Variable fs : Pd.file_system.

Lemma chunk_loop_write_modes (a : args) (out_path : string) :
  forall (items : list (exn + frame)) (first : bool) (det : option string),
    outcome (chunk_loop L Reader a out_path items first det) = inr tt ->
    write_modes (trace_of (chunk_loop L Reader a out_path items first det))
    = match items with
      | [] => []
      | _ :: rest => (negb first, first) :: repeat (true, false) (List.length rest)
      end.
Proof.
  induction items as [|[e|chunk] rest IH]; intros first det.
  - reflexivity.
  - discriminate.
  - cbn [chunk_loop]. rewrite outcome_bind, trace_bind, resolve_ip_col_trace. cbn [app].
    destruct (outcome (resolve_ip_col L a chunk det)) as [e|resolved]; [discriminate|].
    rewrite outcome_bind, trace_bind, write_modes_app.
    rewrite (write_modes_db_events _
               (enrich_dataframe_db_events L Reader chunk (fst resolved)
                  (city_db a) (asn_db a) (geoip_col a))).
    destruct (outcome (enrich_dataframe L Reader chunk (fst resolved) (city_db a)
                                        (asn_db a) (geoip_col a))) as [e|o];
      [discriminate|].
    rewrite outcome_bind, trace_bind.
    cbn [Pd.to_csv emit trace_of outcome fst snd app write_modes].
    intros Hrest. rewrite (IH false (snd resolved) Hrest).
    destruct rest; reflexivity.
Qed.

(** X20.  A chunked run that succeeds over a table read without error
    writes once per batch, in order: the first batch in mode [w] with the
    header, every later batch in mode [a] without it. *)
Theorem X20_chunked_writes_once_per_batch (a : args) (df : frame) :
  (0 < chunksize a)%Z ->
  fs (inp a) (read_kwargs_of a) = Some {| Pd.in_frame := df; Pd.in_fail_at := None |} ->
  outcome (process_all L Reader fs a) = inr tt ->
  write_modes (trace_of (process_all L Reader fs a))
  = (false, true)
      :: repeat (true, false)
                (List.length (Pd.chunks (Z.to_nat (chunksize a)) df) - 1).
Proof.
  intros Hk Hfs. unfold process_all.
  destruct (Z.ltb_spec 0 (chunksize a)); [|lia].
  unfold Pd.read_csv_chunked. rewrite Hfs. cbn [Pd.in_fail_at Pd.in_frame].
  rewrite bind_ret_l, outcome_bind, trace_bind, write_modes_app.
  destruct (outcome (chunk_loop L Reader a (out_path_of a)
                       (map inr (Pd.chunks (Z.to_nat (chunksize a)) df)) true None))
    as [e|[]] eqn:Hloop; [discriminate|].
  intros _. rewrite (chunk_loop_write_modes _ _ _ _ _ Hloop).
  destruct (chunks_head (Z.to_nat (chunksize a)) df) as [rest Hrest].
  rewrite Hrest. cbn [map List.length negb write_modes emit trace_of fst].
  rewrite app_nil_r, length_map. f_equal. f_equal. lia.
Qed.

End Writes.

Lemma X20_chunked_writes_once_per_batch_witness :
  (0 < chunksize (with_chunksize (Sample.default_args "ips.csv") 1))%Z
  /\ outcome (Sample.run (with_chunksize (Sample.default_args "ips.csv") 1)) = inr tt
  /\ write_modes (trace_of (Sample.run (with_chunksize (Sample.default_args "ips.csv") 1)))
     = (false, true)
         :: repeat (true, false)
                   (List.length
                      (Pd.chunks
                         (Z.to_nat (chunksize (with_chunksize
                                                 (Sample.default_args "ips.csv") 1)))
                         Sample.table_ips) - 1).
Proof.
  split; [reflexivity|]. split; [reflexivity|].
  apply (X20_chunked_writes_once_per_batch Sample.ipv4_library Sample.open_reader
           Sample.files (with_chunksize (Sample.default_args "ips.csv") 1)
           Sample.table_ips); reflexivity.
Defined.
